(** * blockchain-cache-api: the data-access layer and the RPC bridge

    A shallow embedding of [lib/databaseBackend.js], [lib/redisCache.js] and
    [lib/rabbit.js].

    Conventions of the embedding.
    - JavaScript numbers that hold heights, amounts, counts and times are
      integers of [Z]; the embedding is exact while they stay below 2^53.
    - A promise is a function of the mutable world it runs in (the Redis
      entries) that returns the new world and the way the promise settled.
      The body of [new Promise((resolve, reject) => ...)] is a [Chain]: the
      links of [.then] run one after the other, [resolve] and [reject] settle
      the promise only the first time one of them is called, and the links
      that follow still run.  A value thrown in a link skips to [.catch].
    - A promise awaited inside a link runs to its end before the next link
      starts; [Promise.all] runs its promises in list order.
    - The relational store is a record of tables and every SQL statement of
      the source is the list function that selects the same rows.
    - The random source of the sampler is the list of the values it yields
      during a call.
    - Redis holds the JSON text of a value; the embedding keeps the value
      itself.  The entries are split by the shape of the value (one field of
      [Cache] per shape), under the key names the source builds; entries of
      different shapes are never stored under one key, because every key
      starts with the name of its operation or is a block hash. *)

From Stdlib Require Import ZArith List Bool Lia Ascii String DecimalString HexadecimalString.
From stdpp Require Import gmap strings list sorting.

Open Scope Z_scope.

(** ** Errors and promises *)

Inductive Error :=
| Err (message : string)   (* new Error(message) *)
| TypeError                (* a property read on undefined *)
| QueryError.              (* the store refuses a malformed statement *)

Inductive Settled (A : Type) :=
| Fulfilled (a : A)
| Rejected (e : Error).
Arguments Fulfilled {A} a.
Arguments Rejected {A} e.

(** What a link of a chain hands to the next one. *)
Inductive Link (A : Type) :=
| Next (a : A)
| Thrown (e : Error)
| Hung.                    (* waits for a promise that never settles *)
Arguments Next {A} a.
Arguments Thrown {A} e.
Arguments Hung {A}.

Record Exec (W R : Type) := mkExec {
  settled : option (Settled R);
  world : W
}.
Arguments mkExec {W R} settled world.
Arguments settled {W R} e.
Arguments world {W R} e.

Definition Chain (W R A : Type) : Type := Exec W R -> Exec W R * Link A.
Definition Promise (W A : Type) : Type := W -> W * option (Settled A).

Definition ret {W R A} (a : A) : Chain W R A := fun x => (x, Next a).

Definition bind {W R A B} (c : Chain W R A) (k : A -> Chain W R B) : Chain W R B :=
  fun x =>
    match c x with
    | (x', Next a) => k a x'
    | (x', Thrown e) => (x', Thrown e)
    | (x', Hung) => (x', Hung)
    end.

Declare Scope chain_scope.
Delimit Scope chain_scope with chain.
Notation "x <- c ;; k" := (bind c (fun x => k))
  (at level 100, c at next level, right associativity) : chain_scope.
Notation "c ;;; k" := (bind c (fun _ => k))
  (at level 100, right associativity) : chain_scope.
Open Scope chain_scope.

Definition settle {W R} (s : Settled R) (x : Exec W R) : Exec W R :=
  match settled x with
  | Some _ => x
  | None => mkExec (Some s) (world x)
  end.

Definition resolve {W R} (v : R) : Chain W R unit :=
  fun x => (settle (Fulfilled v) x, Next tt).

Definition reject {W R} (e : Error) : Chain W R unit :=
  fun x => (settle (Rejected e) x, Next tt).

Definition throw {W R A} (e : Error) : Chain W R A := fun x => (x, Thrown e).

(** [.catch(handler)] at the end of a chain. *)
Definition catch {W R A} (c : Chain W R A) (handler : Error -> Chain W R A) : Chain W R A :=
  fun x =>
    match c x with
    | (x', Thrown e) => handler e x'
    | r => r
    end.

(** A link that returns a promise: the chain goes on with its value. *)
Definition await {W R B} (p : Promise W B) : Chain W R B :=
  fun x =>
    let '(w', o) := p (world x) in
    (mkExec (settled x) w',
     match o with
     | Some (Fulfilled b) => Next b
     | Some (Rejected e) => Thrown e
     | None => Hung
     end).

(** [new Promise((resolve, reject) => body)]. *)
Definition newPromise {W R} (body : Chain W R unit) : Promise W R :=
  fun w => let '(x, _) := body (mkExec None w) in (world x, settled x).

(** A chain that is returned as the promise itself
    ([return this.query(...).then(...)]). *)
Definition thenable {W A} (c : Chain W Empty_set A) : Promise W A :=
  fun w =>
    let '(x, l) := c (mkExec None w) in
    (world x,
     match l with
     | Next a => Some (Fulfilled a)
     | Thrown e => Some (Rejected e)
     | Hung => None
     end).

Fixpoint runAll {W A} (ps : list (Promise W A)) (w : W) : W * list (option (Settled A)) :=
  match ps with
  | [] => (w, [])
  | p :: ps' =>
      let '(w1, o) := p w in
      let '(w2, os) := runAll ps' w1 in
      (w2, o :: os)
  end.

Fixpoint gather {A} (os : list (option (Settled A))) : option (Settled (list A)) :=
  match os with
  | [] => Some (Fulfilled [])
  | o :: os' =>
      match o, gather os' with
      | Some (Rejected e), _ => Some (Rejected e)
      | _, Some (Rejected e) => Some (Rejected e)
      | Some (Fulfilled a), Some (Fulfilled l) => Some (Fulfilled (a :: l))
      | _, _ => None
      end
  end.

(** [Promise.all(promises)]: every promise runs; the result is the list of
    the values, or the first rejection. *)
Definition all {W A} (ps : list (Promise W A)) : Promise W (list A) :=
  fun w => let '(w', os) := runAll ps w in (w', gather os).

(** ** What [checkCache] asks of a cached value *)

Class JsData (A : Type) := {
  falsy : A -> bool;          (* !data *)
  isEmptyArray : A -> bool;   (* Array.isArray(data) && data.length === 0 *)
  keyCount : A -> nat         (* Object.keys(data).length *)
}.

(** An array. *)
#[export] Instance list_JsData {X : Type} : JsData (list X) := {|
  falsy := fun _ => false;
  isEmptyArray := fun l => match l with [] => true | _ => false end;
  keyCount := fun l => length l
|}.

(** An object used as a mapping. *)
#[export] Instance gmap_JsData {X : Type} : JsData (gmap string X) := {|
  falsy := fun _ => false;
  isEmptyArray := fun _ => false;
  keyCount := fun m => size m
|}.

(** A number: [Object.keys] of a number is the empty array. *)
#[export] Instance Z_JsData : JsData Z := {|
  falsy := fun z => z =? 0;
  isEmptyArray := fun _ => false;
  keyCount := fun _ => 0%nat
|}.

(** ** lib/redisCache.js and the cache helpers of the backend *)

Section RedisCache.

(** The digest that turns a key name into the Redis key. *)
Variable sha256 : string -> string.
(** [opts.defaultTTL || 30] of the constructor. *)
Variable defaultTTL : Z.

Context {A : Type} `{JsData A}.

(** [RedisCache.get]: an entry that is absent or past its expiry reads as
    [null].  The reply is parsed as JSON text: an entry holds the value that
    the parser returns for the text of an array or an object. *)
Definition RedisCache_get (client : gmap string (A * Z)) (now : Z) (keyName : string)
  : option A :=
  match client !! sha256 keyName with
  | Some (value, expiresAt) => if now <? expiresAt then Some value else None
  | None => None
  end.

(** [RedisCache.set]: [None] when the promise rejects ([!value]).  A value
    that is not a string is written as its JSON text; a string would be
    written as it is and is not a value of the entries modelled here. *)
Definition RedisCache_set (client : gmap string (A * Z)) (now : Z) (keyName : string)
    (value : A) (ttl : Z) : option (gmap string (A * Z)) :=
  if falsy value then None
  else Some (<[sha256 keyName := (value, now + (if ttl =? 0 then defaultTTL else ttl))]> client).

(** [checkCache]: [None] is [resolve(false)]. *)
Definition checkCache (cache : option (gmap string (A * Z))) (now : Z) (key : string)
  : option A :=
  match cache with
  | None => None
  | Some client =>
      match RedisCache_get client now key with
      | None => None
      | Some data =>
          if falsy data then None
          else if isEmptyArray data then None
          else if (keyCount data =? 0)%nat then None
          else Some data
      end
  end.

(** [setCache]: the entries afterwards; the promise always resolves with
    [value]. *)
Definition setCache (cache : option (gmap string (A * Z))) (now : Z) (key : string)
    (value : A) (ttl : Z) : option (gmap string (A * Z)) * A :=
  match cache with
  | None => (None, value)
  | Some client =>
      match RedisCache_set client now key value ttl with
      | Some client' => (Some client', value)
      | None => (Some client, value)
      end
  end.

End RedisCache.

(** ** The relational store *)

(** Modelled from the spec: the schema is not part of the sources; the rows
    carry the fields that the data model of the spec lists and the
    statements of the source select.  This is a row of [blocks]. *)
Record BlockRow := {
  b_hash : string;
  b_height : Z;
  b_timestamp : Z;
  b_difficulty : Z;
  b_nonce : Z;
  b_size : Z;
  b_alreadyGeneratedCoins : Z;
  b_baseReward : Z
}.

(** Modelled from the spec: a row of [transactions]. *)
Record TransactionRow := {
  t_txnHash : string;
  t_blockHash : string;
  t_publicKey : string;
  t_paymentId : string;
  t_unlockTime : Z;
  t_size : Z;
  t_fee : Z;
  t_totalInputsAmount : Z;
  t_totalOutputsAmount : Z;
  t_mixin : Z;
  t_extra : string
}.

(** Modelled from the spec: a row of [transaction_inputs]; [type] is the
    number that the backend prints in hexadecimal. *)
Record InputRecord := {
  ir_txnHash : string;
  ir_type : Z;
  ir_amount : Z;
  ir_keyImage : string
}.

(** Modelled from the spec: a row of [transaction_outputs]. *)
Record OutputRecord := {
  or_txnHash : string;
  or_type : Z;
  or_amount : Z;
  or_globalIndex : Z;
  or_outputIndex : Z;
  or_key : string
}.

(** Modelled from the spec: a row of [transaction_outputs_index_maximums],
    the greatest global index known for an amount. *)
Record MaximumRow := {
  m_amount : Z;
  m_globalIndex : Z
}.

(** Modelled from the spec: the tables that the modelled statements read. *)
Record Database := {
  blocks : list BlockRow;
  transactions : list TransactionRow;
  transaction_inputs : list InputRecord;
  transaction_outputs : list OutputRecord;
  transaction_pool : list string;               (* the txnHash column *)
  transaction_outputs_index_maximums : list MaximumRow
}.

(** [ORDER BY key] and [ORDER BY key DESC]. *)
Definition keyLe {X} (key : X -> Z) : relation X := fun a b => key a <= key b.
Definition keyGe {X} (key : X -> Z) : relation X := fun a b => key b <= key a.

#[export] Instance keyLe_dec {X} (key : X -> Z) : RelDecision (keyLe key) :=
  fun a b => Z_le_dec (key a) (key b).
#[export] Instance keyGe_dec {X} (key : X -> Z) : RelDecision (keyGe key) :=
  fun a b => Z_le_dec (key b) (key a).

(** [ORDER BY] on several columns, given as the test "a is not after b". *)
Definition lebRel {X} (leb : X -> X -> bool) : relation X := fun a b => Is_true (leb a b).

#[export] Instance lebRel_dec {X} (leb : X -> X -> bool) : RelDecision (lebRel leb) :=
  fun a b => Is_true_dec (leb a b).

(** The rows of a table in the order of [R]: each row is put before the
    first of the later rows that it is not after, so that rows which [R]
    does not tell apart stay in the order of the table. *)
Fixpoint insertRow {X} (R : relation X) `{!RelDecision R} (x : X) (l : list X) : list X :=
  match l with
  | [] => [x]
  | y :: l' => if decide (R x y) then x :: y :: l' else y :: insertRow R x l'
  end.

Definition sortRows {X} (R : relation X) `{!RelDecision R} (l : list X) : list X :=
  foldr (insertRow R) [] l.

Definition orderBy {X} (leb : X -> X -> bool) (l : list X) : list X :=
  sortRows (lebRel leb) l.

(** [ORDER BY key]: the rows in the order of their keys.  The statement
    does not fix the order of rows with equal keys (they are kept here in
    the order of the table), and the properties proved of these lists do
    not depend on it: they speak of the keys being in order and of the rows
    being the same. *)
Definition orderAsc {X} (key : X -> Z) (l : list X) : list X :=
  sortRows (keyLe key) l.
Definition orderDesc {X} (key : X -> Z) (l : list X) : list X :=
  sortRows (keyGe key) l.

(** [SELECT COUNT( * ) FROM transactions WHERE blockHash = ?]. *)
Definition countTransactions (db : Database) (blockHash : string) : Z :=
  Z.of_nat (length (filter (fun t => t_blockHash t = blockHash) (transactions db))).

(** ** Values the backend returns and caches *)

(** A row of [blocks] with the two fields the backend adds to it. *)
Record BlockHeader := {
  h_block : BlockRow;
  h_depth : Z;
  h_transactionCount : Z
}.

#[export] Instance BlockHeader_JsData : JsData BlockHeader := {|
  falsy := fun _ => false;
  isEmptyArray := fun _ => false;
  keyCount := fun _ => 10%nat
|}.

(** A row of [transactions] with [CAST(unlockTime AS CHAR) AS unlockTimeString]. *)
Record TxnRow := {
  x_row : TransactionRow;
  x_unlockTimeString : string
}.

(** A row of [transaction_inputs] as [getTransactionInputs] hands it out:
    [type] is two hexadecimal digits and [txnHash] may have been deleted. *)
Record InputRow := {
  i_txnHash : option string;
  i_type : string;
  i_amount : Z;
  i_keyImage : string
}.

Record OutputRow := {
  o_txnHash : option string;
  o_type : string;
  o_amount : Z;
  o_globalIndex : Z;
  o_outputIndex : Z;
  o_key : string
}.

(** [n.toString(16)]. *)
Definition toString16 (n : Z) : string :=
  if n <? 0 then "-" +:+ HexadecimalString.NilZero.string_of_uint (N.to_hex_uint (Z.to_N (- n)))
  else HexadecimalString.NilZero.string_of_uint (N.to_hex_uint (Z.to_N n)).

(** [s.padStart(2, '0')]. *)
Definition padStart2 (s : string) : string :=
  match String.length s with
  | O => "00"
  | S O => "0" +:+ s
  | _ => s
  end.

(** [String(n)] for an integer. *)
Definition toString10 (n : Z) : string :=
  DecimalString.NilZero.string_of_int (Z.to_int n).

(** [JSON.stringify] of an array of strings that need no escapes. *)
Definition quote : string := String "034"%char EmptyString.
Definition stringifyStrings (l : list string) : string :=
  "[" +:+ String.concat "," (map (fun s => quote +:+ s +:+ quote) l) +:+ "]".

(** The transaction of a wallet-sync block (current shape).  [meta] is
    deleted once the transaction has passed the checks. *)
Record Meta := {
  meta_inputsTotal : Z;
  meta_outputsTotal : Z;
  meta_fee : Z
}.

Record WalletInput := {
  wi_keyImage : string;
  wi_amount : Z;
  wi_type : string
}.

Record WalletOutput := {
  wo_index : Z;
  wo_globalIndex : Z;
  wo_key : string;
  wo_amount : Z;
  wo_type : string
}.

Record WalletTransaction := {
  wt_hash : string;
  wt_publicKey : string;
  wt_unlockTime : string;
  wt_paymentId : string;
  wt_inputs : list WalletInput;
  wt_outputs : list WalletOutput;
  wt_meta : option Meta
}.

Record WalletBlock := {
  wb_blockHash : string;
  wb_height : Z;
  wb_timestamp : Z;
  wb_transactions : list WalletTransaction
}.

(** The legacy shape. *)
Record LegacyInput := {
  li_amount : Z;
  li_k_image : string
}.

Record LegacyOutput := {
  lo_amount : Z;
  lo_key : string;
  lo_globalIndex : Z
}.

Record LegacyTransaction := {
  lt_hash : string;
  lt_inputs : list LegacyInput;
  lt_outputs : list LegacyOutput;
  lt_paymentID : string;
  lt_txPublicKey : string;
  lt_unlockTime : string;
  lt_meta : option Meta
}.

(** [obj.coinbaseTX]: the empty object it starts as, or the object with the
    four fields that the coinbase row sets. *)
Inductive CoinbaseTX :=
| EmptyObject
| Coinbase (hash txPublicKey unlockTime : string) (outputs : list LegacyOutput).

Record LegacyBlock := {
  lb_blockHash : string;
  lb_blockHeight : Z;
  lb_blockTimestamp : Z;
  lb_coinbaseTX : option CoinbaseTX;            (* [None] once deleted *)
  lb_transactions : list LegacyTransaction
}.

(** The result of [getTransactionsStatus]. *)
Record TransactionsStatus := {
  status : string;
  transactionsInPool : list string;
  transactionsInBlock : list string;
  transactionsUnknown : list string
}.

#[export] Instance WalletBlock_JsData : JsData WalletBlock := {|
  falsy := fun _ => false;
  isEmptyArray := fun _ => false;
  keyCount := fun _ => 4%nat
|}.

#[export] Instance LegacyBlock_JsData : JsData LegacyBlock := {|
  falsy := fun _ => false;
  isEmptyArray := fun _ => false;
  keyCount := fun b => match lb_coinbaseTX b with Some _ => 5%nat | None => 4%nat end
|}.

#[export] Instance TransactionsStatus_JsData : JsData TransactionsStatus := {|
  falsy := fun _ => false;
  isEmptyArray := fun _ => false;
  keyCount := fun _ => 4%nat
|}.

(** A row of the block statements of the wallet-sync operations: the hash
    (selected as [blockHash] in the current shape and as [hash] in the
    legacy shape), the height, the timestamp and the transaction count of
    the [LEFT JOIN], which is [NULL] for a block without transactions. *)
Record BlockSummary := {
  s_hash : string;
  s_height : Z;
  s_timestamp : Z;
  s_txnCount : option Z
}.


(** How the consistency loop leaves a transaction. *)
Inductive Verdict :=
| Passed
| Failed (e : Error)     (* return reject(e) *)
| Raised (e : Error).    (* a thrown error *)

(** The helper [getError] of the two assemblers:
    [util.format('Internal Data Consistency Error [%s]: %s', hash, message)]. *)
Definition getError (hash message : string) : string :=
  "Internal Data Consistency Error [" +:+ hash +:+ "]: " +:+ message.

(** A JavaScript object used as a map from strings, in insertion order. *)
Fixpoint objSet {V} (k : string) (v : V) (o : list (string * V)) : list (string * V) :=
  match o with
  | [] => [(k, v)]
  | (k', v') :: o' =>
      if decide (k' = k) then (k, v) :: o' else (k', v') :: objSet k v o'
  end.

(** [o[k].field.push(...)]: [None] when [o[k]] is undefined. *)
Fixpoint objAlter {V} (f : V -> V) (k : string) (o : list (string * V))
  : option (list (string * V)) :=
  match o with
  | [] => None
  | (k', v') :: o' =>
      if decide (k' = k) then Some ((k', f v') :: o')
      else cons (k', v') <$> objAlter f k o'
  end.

(** [Array.prototype.sort] with a comparator, as an insertion sort.  For a
    comparator that is not consistent (the one of
    [getWalletSyncDataByHeight] answers -1 for every pair of blocks, which
    have no field [blockHeight]) the order of the result is the engine's
    own; what is proved of such a result is that it holds the same
    elements. *)
Fixpoint jsInsert {X} (cmp : X -> X -> Z) (x : X) (l : list X) : list X :=
  match l with
  | [] => [x]
  | y :: l' => if 0 <? cmp x y then y :: jsInsert cmp x l' else x :: y :: l'
  end.

Definition jsSort {X} (cmp : X -> X -> Z) (l : list X) : list X :=
  foldr (jsInsert cmp) [] l.

(** [(a.blockHeight > b.blockHeight) ? 1 : -1]; [None] is a block without
    the field [blockHeight]. *)
Definition compareBlockHeight (a b : option Z) : Z :=
  match a, b with
  | Some x, Some y => if y <? x then 1 else -1
  | _, _ => -1
  end.

(** [checkBlockCount]; [None] is a count that the caller leaves out. *)
Definition checkBlockCount (blockCount : option Z) : Z :=
  let blockCount :=
    match blockCount with
    | Some n => if n =? 0 then 100 else n
    | None => 100
    end in
  let blockCount := Z.abs blockCount in
  if 100 <? blockCount then 100 else blockCount.

(** ** The entries of Redis, by the shape of the value *)

Record Cache := mkCache {
  headers : gmap string (BlockHeader * Z);
  numbers : gmap string (Z * Z);
  transactionRows : gmap string (list TxnRow * Z);
  inputRows : gmap string (list InputRow * Z);
  outputRows : gmap string (list OutputRow * Z);
  walletBlocks : gmap string (WalletBlock * Z);
  legacyBlocks : gmap string (LegacyBlock * Z);
  statuses : gmap string (TransactionsStatus * Z)
}.

Definition emptyCache : Cache := mkCache ∅ ∅ ∅ ∅ ∅ ∅ ∅ ∅.

Record View (A : Type) := mkView {
  getV : Cache -> gmap string (A * Z);
  putV : gmap string (A * Z) -> Cache -> Cache
}.
Arguments mkView {A} getV putV.
Arguments getV {A} v c.
Arguments putV {A} v m c.

Definition headersV : View BlockHeader :=
  mkView headers (fun m c => mkCache m (numbers c) (transactionRows c) (inputRows c)
    (outputRows c) (walletBlocks c) (legacyBlocks c) (statuses c)).
Definition numbersV : View Z :=
  mkView numbers (fun m c => mkCache (headers c) m (transactionRows c) (inputRows c)
    (outputRows c) (walletBlocks c) (legacyBlocks c) (statuses c)).
Definition transactionRowsV : View (list TxnRow) :=
  mkView transactionRows (fun m c => mkCache (headers c) (numbers c) m (inputRows c)
    (outputRows c) (walletBlocks c) (legacyBlocks c) (statuses c)).
Definition inputRowsV : View (list InputRow) :=
  mkView inputRows (fun m c => mkCache (headers c) (numbers c) (transactionRows c) m
    (outputRows c) (walletBlocks c) (legacyBlocks c) (statuses c)).
Definition outputRowsV : View (list OutputRow) :=
  mkView outputRows (fun m c => mkCache (headers c) (numbers c) (transactionRows c)
    (inputRows c) m (walletBlocks c) (legacyBlocks c) (statuses c)).
Definition walletBlocksV : View WalletBlock :=
  mkView walletBlocks (fun m c => mkCache (headers c) (numbers c) (transactionRows c)
    (inputRows c) (outputRows c) m (legacyBlocks c) (statuses c)).
Definition legacyBlocksV : View LegacyBlock :=
  mkView legacyBlocks (fun m c => mkCache (headers c) (numbers c) (transactionRows c)
    (inputRows c) (outputRows c) (walletBlocks c) m (statuses c)).
Definition statusesV : View TransactionsStatus :=
  mkView statuses (fun m c => mkCache (headers c) (numbers c) (transactionRows c)
    (inputRows c) (outputRows c) (walletBlocks c) (legacyBlocks c) m).

(** ** lib/databaseBackend.js *)

Section DatabaseBackend.

Variable sha256 : string -> string.
Variable defaultTTL : Z.
(** The tables at the time of the call and the time of the call, in
    seconds. *)
Variable db : Database.
Variable now : Z.

(** [this.cache] is [None] when no Redis backend is configured. *)
Abbreviation World := (option Cache).

Definition this_checkCache {R A} `{JsData A} (v : View A) (key : string)
  : Chain World R (option A) :=
  fun x => (x, Next (checkCache sha256 (getV v <$> world x) now key)).

Definition this_setCache {R A} `{JsData A} (v : View A) (key : string) (value : A) (ttl : Z)
  : Chain World R A :=
  fun x =>
    let '(c', value') := setCache sha256 defaultTTL (getV v <$> world x) now key value ttl in
    (mkExec (settled x)
            match world x, c' with
            | Some w, Some c => Some (putV v c w)
            | w, _ => w
            end,
     Next value').

(** [.then(cached => { if (cached) return resolve(cached) })] *)
Definition whenHit {R} (cached : option R) : Chain World R unit :=
  match cached with
  | Some c => resolve c
  | None => ret tt
  end.

Definition getLastBlockHeader : Promise World BlockHeader :=
  newPromise (catch (
    cached <- this_checkCache headersV "getLastBlockHeader" ;;
    whenHit cached ;;;
    match firstn 1 (orderDesc b_height (blocks db)) with
    | [] =>
        reject (Err "No blocks found in backend storage") ;;;
        throw TypeError                       (* rows.length of undefined *)
    | b :: _ =>
        let obj := {| h_block := b; h_depth := 0;
                      h_transactionCount := countTransactions db (b_hash b) |} in
        this_setCache headersV "getLastBlockHeader" obj 5 ;;;
        resolve obj
    end) reject).

Definition getBlockHeaderByHash (blockHash : string) : Promise World BlockHeader :=
  let cacheName := "getBlockHeaderByHash" +:+ blockHash in
  newPromise (catch (
    cached <- this_checkCache headersV cacheName ;;
    whenHit cached ;;;
    block <- await getLastBlockHeader ;;
    let topHeight := b_height (h_block block) in
    match firstn 1 (filter (fun b => b_hash b = blockHash) (blocks db)) with
    | [] =>
        reject (Err "Requested block not found") ;;;
        throw TypeError
    | b :: _ =>
        let obj := {| h_block := b; h_depth := topHeight - b_height b;
                      h_transactionCount := countTransactions db (b_hash b) |} in
        this_setCache headersV cacheName obj 10 ;;;
        resolve obj
    end) reject).

Definition getBlockHeaderByHeight (height : Z) : Promise World BlockHeader :=
  let cacheName := "getBlockHeaderByHeight" +:+ toString10 height in
  newPromise (catch (
    cached <- this_checkCache headersV cacheName ;;
    whenHit cached ;;;
    block <- await getLastBlockHeader ;;
    let topHeight := b_height (h_block block) in
    match firstn 1 (filter (fun b => b_height b = height) (blocks db)) with
    | [] =>
        reject (Err "Requested block not found") ;;;
        throw TypeError
    | b :: _ =>
        let obj := {| h_block := b; h_depth := topHeight - b_height b;
                      h_transactionCount := countTransactions db (b_hash b) |} in
        this_setCache headersV cacheName obj 10 ;;;
        resolve obj
    end) reject).

(** [startHeight] and [startTimestamp] are [None] when the caller leaves
    them out (or passes [false]). *)
Definition findCurrentSyncHeight (knownBlockHashes : list string)
    (startHeight startTimestamp : option Z) : Promise World Z :=
  let startHeight := default 0 startHeight in
  let startTimestamp := default 0 startTimestamp in
  let cacheName := "findCurrentSyncHeight" +:+ stringifyStrings knownBlockHashes
                   +:+ toString10 startHeight +:+ toString10 startTimestamp in
  newPromise (catch (
    cached <- this_checkCache numbersV cacheName ;;
    whenHit cached ;;;
    let rows :=
      if (0 <? length knownBlockHashes)%nat
      then Some (firstn 1 (orderDesc b_height
                   (filter (fun b => b_hash b ∈ knownBlockHashes) (blocks db))))
      else None in
    let syncStart :=
      match rows with
      | Some [b] => b_height b + 1
      | _ => 0
      end in
    let rows :=
      if 0 <? startTimestamp
      then Some (firstn 1 (orderDesc b_height
                   (filter (fun b => b_timestamp b <= startTimestamp) (blocks db))))
      else None in
    let syncStart :=
      match rows with
      | Some [b] => if syncStart <? b_height b then b_height b else syncStart
      | _ => syncStart
      end in
    let syncStart := if syncStart <? startHeight then startHeight else syncStart in
    result <- this_setCache numbersV cacheName syncStart 60 ;;
    resolve result) reject).

(** [ORDER BY amount, keyImage] of [transaction_inputs]. *)
Definition inputRecordLeb (a b : InputRecord) : bool :=
  (ir_amount a <? ir_amount b)
  || ((ir_amount a =? ir_amount b) && String.leb (ir_keyImage a) (ir_keyImage b)).

(** [results[i].type = results[i].type.toString(16).padStart(2, '0')] *)
Definition inputRow (r : InputRecord) : InputRow :=
  {| i_txnHash := Some (ir_txnHash r); i_type := padStart2 (toString16 (ir_type r));
     i_amount := ir_amount r; i_keyImage := ir_keyImage r |}.

Definition outputRow (r : OutputRecord) : OutputRow :=
  {| o_txnHash := Some (or_txnHash r); o_type := padStart2 (toString16 (or_type r));
     o_amount := or_amount r; o_globalIndex := or_globalIndex r;
     o_outputIndex := or_outputIndex r; o_key := or_key r |}.

(** [delete txns[i].txnHash] *)
Definition deleteInputTxnHash (r : InputRow) : InputRow :=
  {| i_txnHash := None; i_type := i_type r; i_amount := i_amount r;
     i_keyImage := i_keyImage r |}.

Definition deleteOutputTxnHash (r : OutputRow) : OutputRow :=
  {| o_txnHash := None; o_type := o_type r; o_amount := o_amount r;
     o_globalIndex := o_globalIndex r; o_outputIndex := o_outputIndex r;
     o_key := o_key r |}.

(** [trim] is [None] when the caller leaves it out: it is then [true]. *)
Definition getTransactionInputs (hash : string) (trim : option bool)
  : Promise World (list InputRow) :=
  let trim := default true trim in
  let checkTrim (txns : list InputRow) :=
    if trim then deleteInputTxnHash <$> txns else txns in
  let cacheName := "getTransactionInputs" +:+ hash in
  newPromise (catch (
    cached <- this_checkCache inputRowsV cacheName ;;
    whenHit cached ;;;
    match orderBy inputRecordLeb
            (filter (fun r => ir_txnHash r = hash) (transaction_inputs db)) with
    | [] =>
        resolve [] ;;;
        (* [checkTrim(undefined)] *)
        if trim then throw TypeError else ret tt
    | results =>
        results <- this_setCache inputRowsV cacheName (inputRow <$> results) 60 ;;
        resolve (checkTrim results)
    end) reject).

(** [hash] is [None] when the caller passes [undefined]; the statement
    then compares [txnHash] with [NULL] and selects no row. *)
Definition getTransactionOutputs (hash : option string) (trim : option bool)
  : Promise World (list OutputRow) :=
  let trim := default true trim in
  let checkTrim (txns : list OutputRow) :=
    if trim then deleteOutputTxnHash <$> txns else txns in
  let cacheName := "getTransactionOutputs" +:+ default "undefined" hash in
  newPromise (catch (
    cached <- this_checkCache outputRowsV cacheName ;;
    whenHit cached ;;;
    match orderAsc or_outputIndex
            (filter (fun r => Some (or_txnHash r) = hash) (transaction_outputs db)) with
    | [] =>
        resolve [] ;;;
        if trim then throw TypeError else ret tt
    | results =>
        results <- this_setCache outputRowsV cacheName (outputRow <$> results) 60 ;;
        resolve (checkTrim results)
    end) reject).

Definition txnRow (t : TransactionRow) : TxnRow :=
  {| x_row := t; x_unlockTimeString := toString10 (t_unlockTime t) |}.

Definition getTransactionsByBlock (blockHash : string) : Promise World (list TxnRow) :=
  let cacheName := "getTransactionsByBlock" +:+ blockHash in
  newPromise (catch (
    cached <- this_checkCache transactionRowsV cacheName ;;
    whenHit cached ;;;
    match txnRow <$> filter (fun t => t_blockHash t = blockHash) (transactions db) with
    | [] => resolve []
    | rows =>
        rows <- this_setCache transactionRowsV cacheName rows 120 ;;
        resolve rows
    end) reject).

(** The two statements of [getTransactionsStatus] end in [WHERE] followed
    by one comparison for each hash; without a hash the statement is
    malformed. *)
Definition getTransactionsStatus (hashes : list string) : Promise World TransactionsStatus :=
  let cacheName := "getTransactionsStatus" +:+ stringifyStrings hashes in
  newPromise (catch (
    cached <- this_checkCache statusesV cacheName ;;
    whenHit cached ;;;
    txns <- match hashes with
            | [] => throw QueryError
            | _ => ret (filter (fun h => h ∈ hashes) (transaction_pool db))
            end ;;
    let inPool := txns in
    let txns := t_txnHash <$> filter (fun t => t_txnHash t ∈ hashes) (transactions db) in
    let inBlock := txns in
    let unknown := filter (fun txn => (txn ∉ inPool) /\ (txn ∉ inBlock)) hashes in
    let result := {| status := "OK"; transactionsInPool := inPool;
                     transactionsInBlock := inBlock;
                     transactionsUnknown := unknown |} in
    this_setCache statusesV cacheName result 5 ;;;
    resolve result) reject).

(** *** The block assembler *)

Definition sumInputs (inputs : list WalletInput) : Z :=
  foldl (fun inputsTotal input => inputsTotal + wi_amount input) 0 inputs.
Definition sumOutputs (outputs : list WalletOutput) : Z :=
  foldl (fun outputsTotal output => outputsTotal + wo_amount output) 0 outputs.

Definition deleteMeta (txn : WalletTransaction) : WalletTransaction :=
  {| wt_hash := wt_hash txn; wt_publicKey := wt_publicKey txn;
     wt_unlockTime := wt_unlockTime txn; wt_paymentId := wt_paymentId txn;
     wt_inputs := wt_inputs txn; wt_outputs := wt_outputs txn; wt_meta := None |}.

(** The body of the loop over [obj.transactions] for one transaction. *)
Definition checkTransaction (txn : WalletTransaction) : Verdict :=
  if ((length (wt_inputs txn) =? 0) && (length (wt_outputs txn) =? 0))%nat
  then Failed (Err (getError (wt_hash txn) "No inputs and no outputs"))
  else
    match wt_meta txn with
    | None => Raised TypeError
    | Some meta =>
        let inputsTotal := sumInputs (wt_inputs txn) in
        if negb (meta_inputsTotal meta =? 0)
           && negb (inputsTotal =? meta_inputsTotal meta)
        then Failed (Err (getError (wt_hash txn)
                            "Inputs total does not match meta information"))
        else
          let outputsTotal := sumOutputs (wt_outputs txn) in
          if negb (outputsTotal =? meta_outputsTotal meta)
          then Failed (Err (getError (wt_hash txn)
                              "Outputs total does not match meta information"))
          else if negb (meta_inputsTotal meta =? 0)
                  && negb (inputsTotal - outputsTotal =? meta_fee meta)
          then Failed (Err (getError (wt_hash txn) "Transaction fee does not match"))
          else Passed
    end.

(** The loop: it stops at the first transaction that fails and deletes
    [meta] from those that passed before. *)
Fixpoint checkTransactions (txns : list WalletTransaction)
  : list WalletTransaction * Verdict :=
  match txns with
  | [] => ([], Passed)
  | txn :: rest =>
      match checkTransaction txn with
      | Passed =>
          let '(rest', verdict) := checkTransactions rest in
          (deleteMeta txn :: rest', verdict)
      | verdict => (txn :: rest, verdict)
      end
  end.

(** [txnCount !== n] for the count of the [LEFT JOIN]. *)
Definition countDiffers (txnCount : option Z) (n : nat) : bool :=
  match txnCount with
  | Some c => negb (c =? Z.of_nat n)
  | None => true
  end.

Definition walletTransaction (txn : TxnRow) : WalletTransaction :=
  {| wt_hash := t_txnHash (x_row txn); wt_publicKey := t_publicKey (x_row txn);
     wt_unlockTime := x_unlockTimeString txn; wt_paymentId := t_paymentId (x_row txn);
     wt_inputs := []; wt_outputs := [];
     wt_meta := Some {| meta_inputsTotal := t_totalInputsAmount (x_row txn);
                        meta_outputsTotal := t_totalOutputsAmount (x_row txn);
                        meta_fee := t_fee (x_row txn) |} |}.

Definition pushInput (input : InputRow) (txn : WalletTransaction) : WalletTransaction :=
  {| wt_hash := wt_hash txn; wt_publicKey := wt_publicKey txn;
     wt_unlockTime := wt_unlockTime txn; wt_paymentId := wt_paymentId txn;
     wt_inputs := wt_inputs txn ++ [{| wi_keyImage := i_keyImage input;
                                       wi_amount := i_amount input;
                                       wi_type := i_type input |}];
     wt_outputs := wt_outputs txn; wt_meta := wt_meta txn |}.

Definition pushOutput (output : OutputRow) (txn : WalletTransaction) : WalletTransaction :=
  {| wt_hash := wt_hash txn; wt_publicKey := wt_publicKey txn;
     wt_unlockTime := wt_unlockTime txn; wt_paymentId := wt_paymentId txn;
     wt_inputs := wt_inputs txn;
     wt_outputs := wt_outputs txn ++ [{| wo_index := o_outputIndex output;
                                         wo_globalIndex := o_globalIndex output;
                                         wo_key := o_key output;
                                         wo_amount := o_amount output;
                                         wo_type := o_type output |}];
     wt_meta := wt_meta txn |}.

(** [rows.forEach(row => { map[row.txnHash].field.push(...) })]: a row
    whose [txnHash] names no entry of the map throws. *)
Fixpoint pushRows {Row V R} (txnHash : Row -> option string) (push : Row -> V -> V)
    (rows : list Row) (transactionMap : list (string * V))
  : Chain World R (list (string * V)) :=
  match rows with
  | [] => ret transactionMap
  | row :: rows' =>
      match objAlter (push row) (default "undefined" (txnHash row)) transactionMap with
      | Some transactionMap' => pushRows txnHash push rows' transactionMap'
      | None => throw TypeError
      end
  end.

(** The links that fetch the rows of the block and group them by
    transaction. *)
Definition assembleTransactions {R} (block : BlockSummary)
  : Chain World R (list WalletTransaction) :=
  txns <- await (getTransactionsByBlock (s_hash block)) ;;
  let transactionMap :=
    foldl (fun m txn => objSet (t_txnHash (x_row txn)) (walletTransaction txn) m)
          [] txns in
  results <- await (all ((fun hash => getTransactionInputs hash (Some false))
                           <$> (fst <$> transactionMap))) ;;
  transactionMap <- pushRows i_txnHash pushInput (concat results) transactionMap ;;
  results <- await (all ((fun hash => getTransactionOutputs (Some hash) (Some false))
                           <$> (fst <$> transactionMap))) ;;
  transactionMap <- pushRows o_txnHash pushOutput (concat results) transactionMap ;;
  ret (snd <$> transactionMap).

(** The link of the consistency checks. *)
Definition checkWalletBlock {R} (block : BlockSummary)
    (transactions : list WalletTransaction) : Chain World R (list WalletTransaction) :=
  if countDiffers (s_txnCount block) (length transactions)
  then
    reject (Err (getError "undefined"         (* block.hash is not selected *)
                   "Unexpected number of transactions in structure")) ;;;
    ret transactions
  else
    match checkTransactions transactions with
    | (transactions', Passed) => ret transactions'
    | (transactions', Failed e) => reject e ;;; ret transactions'
    | (_, Raised e) => throw e
    end.

Definition buildWalletDataBlock (block : BlockSummary) : Promise World WalletBlock :=
  let cacheName := s_hash block in
  newPromise (catch (
    cached <- this_checkCache walletBlocksV cacheName ;;
    whenHit cached ;;;
    transactions <- assembleTransactions block ;;
    transactions <- checkWalletBlock block transactions ;;
    let obj := {| wb_blockHash := s_hash block; wb_height := s_height block;
                  wb_timestamp := s_timestamp block; wb_transactions := transactions |} in
    response <- this_setCache walletBlocksV cacheName obj (60 * 60 * 24) ;;
    resolve response) reject).

(** *** The legacy shape *)

Definition sumLegacyInputs (inputs : list LegacyInput) : Z :=
  foldl (fun inputsTotal input => inputsTotal + li_amount input) 0 inputs.
Definition sumLegacyOutputs (outputs : list LegacyOutput) : Z :=
  foldl (fun outputsTotal output => outputsTotal + lo_amount output) 0 outputs.

Definition deleteLegacyMeta (txn : LegacyTransaction) : LegacyTransaction :=
  {| lt_hash := lt_hash txn; lt_inputs := lt_inputs txn; lt_outputs := lt_outputs txn;
     lt_paymentID := lt_paymentID txn; lt_txPublicKey := lt_txPublicKey txn;
     lt_unlockTime := lt_unlockTime txn; lt_meta := None |}.

Definition checkLegacyTransaction (txn : LegacyTransaction) : Verdict :=
  if ((length (lt_inputs txn) =? 0) && (length (lt_outputs txn) =? 0))%nat
  then Failed (Err (getError (lt_hash txn) "No inputs and no outputs"))
  else
    match lt_meta txn with
    | None => Raised TypeError
    | Some meta =>
        let inputsTotal := sumLegacyInputs (lt_inputs txn) in
        if negb (inputsTotal =? meta_inputsTotal meta)
        then Failed (Err (getError (lt_hash txn)
                            "Inputs total does not match meta information"))
        else
          let outputsTotal := sumLegacyOutputs (lt_outputs txn) in
          if negb (outputsTotal =? meta_outputsTotal meta)
          then Failed (Err (getError (lt_hash txn)
                              "Outputs total does not match meta information"))
          else if negb (inputsTotal - outputsTotal =? meta_fee meta)
          then Failed (Err (getError (lt_hash txn) "Transaction fee does not match"))
          else Passed
    end.

Fixpoint checkLegacyTransactions (txns : list LegacyTransaction)
  : list LegacyTransaction * Verdict :=
  match txns with
  | [] => ([], Passed)
  | txn :: rest =>
      match checkLegacyTransaction txn with
      | Passed =>
          let '(rest', verdict) := checkLegacyTransactions rest in
          (deleteLegacyMeta txn :: rest', verdict)
      | verdict => (txn :: rest, verdict)
      end
  end.

Definition legacyTransaction (txn : TxnRow) : LegacyTransaction :=
  {| lt_hash := t_txnHash (x_row txn); lt_inputs := []; lt_outputs := [];
     lt_paymentID := t_paymentId (x_row txn); lt_txPublicKey := t_publicKey (x_row txn);
     lt_unlockTime := x_unlockTimeString txn;
     lt_meta := Some {| meta_inputsTotal := t_totalInputsAmount (x_row txn);
                        meta_outputsTotal := t_totalOutputsAmount (x_row txn);
                        meta_fee := t_fee (x_row txn) |} |}.

Definition legacyOutput (output : OutputRow) : LegacyOutput :=
  {| lo_amount := o_amount output; lo_key := o_key output;
     lo_globalIndex := o_globalIndex output |}.

Definition pushLegacyInput (input : InputRow) (txn : LegacyTransaction)
  : LegacyTransaction :=
  {| lt_hash := lt_hash txn;
     lt_inputs := lt_inputs txn ++ [{| li_amount := i_amount input;
                                       li_k_image := i_keyImage input |}];
     lt_outputs := lt_outputs txn; lt_paymentID := lt_paymentID txn;
     lt_txPublicKey := lt_txPublicKey txn; lt_unlockTime := lt_unlockTime txn;
     lt_meta := lt_meta txn |}.

Definition pushLegacyOutput (output : OutputRow) (txn : LegacyTransaction)
  : LegacyTransaction :=
  {| lt_hash := lt_hash txn; lt_inputs := lt_inputs txn;
     lt_outputs := lt_outputs txn ++ [legacyOutput output];
     lt_paymentID := lt_paymentID txn; lt_txPublicKey := lt_txPublicKey txn;
     lt_unlockTime := lt_unlockTime txn; lt_meta := lt_meta txn |}.

(** The first loop of the legacy assembler: the row without input amount
    fills [obj.coinbaseTX], the others enter the map. *)
Definition sortTransaction (acc : CoinbaseTX * list (string * LegacyTransaction))
    (txn : TxnRow) : CoinbaseTX * list (string * LegacyTransaction) :=
  if t_totalInputsAmount (x_row txn) =? 0
  then (Coinbase (t_txnHash (x_row txn)) (t_publicKey (x_row txn))
                 (x_unlockTimeString txn) [], snd acc)
  else (fst acc, objSet (t_txnHash (x_row txn)) (legacyTransaction txn) (snd acc)).

Definition coinbaseHash (c : CoinbaseTX) : option string :=
  match c with
  | EmptyObject => None
  | Coinbase hash _ _ _ => Some hash
  end.

Definition assembleLegacy {R} (block : BlockSummary)
  : Chain World R (CoinbaseTX * list LegacyTransaction) :=
  txns <- await (getTransactionsByBlock (s_hash block)) ;;
  let '(coinbaseTX, transactionMap) := foldl sortTransaction (EmptyObject, []) txns in
  outputs <- await (getTransactionOutputs (coinbaseHash coinbaseTX) None) ;;
  coinbaseTX <-
    match coinbaseTX, outputs with
    | Coinbase hash txPublicKey unlockTime outs, _ =>
        ret (Coinbase hash txPublicKey unlockTime (outs ++ (legacyOutput <$> outputs)))
    | EmptyObject, [] => ret EmptyObject
    | EmptyObject, _ => throw TypeError         (* push on undefined *)
    end ;;
  results <- await (all ((fun hash => getTransactionInputs hash (Some false))
                           <$> (fst <$> transactionMap))) ;;
  transactionMap <- pushRows i_txnHash pushLegacyInput (concat results) transactionMap ;;
  results <- await (all ((fun hash => getTransactionOutputs (Some hash) (Some false))
                           <$> (fst <$> transactionMap))) ;;
  transactionMap <- pushRows o_txnHash pushLegacyOutput (concat results) transactionMap ;;
  ret (coinbaseTX, snd <$> transactionMap).

Definition checkLegacyBlock {R} (block : BlockSummary) (coinbaseTX : CoinbaseTX)
    (transactions : list LegacyTransaction) : Chain World R (list LegacyTransaction) :=
  match coinbaseTX with
  | EmptyObject => throw TypeError            (* outputs.length of undefined *)
  | Coinbase _ _ _ [] =>
      reject (Err (getError (s_hash block) "Coinbase Transaction Has No Outputs")) ;;;
      ret transactions
  | Coinbase _ _ _ _ =>
      if countDiffers (s_txnCount block) (length transactions + 1)
      then
        reject (Err (getError (s_hash block)
                       "Unexpected number of transactions in structure")) ;;;
        ret transactions
      else
        match checkLegacyTransactions transactions with
        | (transactions', Passed) => ret transactions'
        | (transactions', Failed e) => reject e ;;; ret transactions'
        | (_, Raised e) => throw e
        end
  end.

Definition deleteCoinbaseTX (response : LegacyBlock) : LegacyBlock :=
  {| lb_blockHash := lb_blockHash response; lb_blockHeight := lb_blockHeight response;
     lb_blockTimestamp := lb_blockTimestamp response;
     lb_coinbaseTX := None; lb_transactions := lb_transactions response |}.

Definition buildLegacyWalletDataBlock (block : BlockSummary)
    (skipCoinbaseTransactions : bool) : Promise World LegacyBlock :=
  let cacheName := "legacy" +:+ s_hash block in
  newPromise (catch (
    cached <- this_checkCache legacyBlocksV cacheName ;;
    whenHit cached ;;;
    assembled <- assembleLegacy block ;;
    let coinbaseTX := fst assembled in
    transactions <- checkLegacyBlock block coinbaseTX (snd assembled) ;;
    let obj := {| lb_blockHash := s_hash block; lb_blockHeight := s_height block;
                  lb_blockTimestamp := s_timestamp block;
                  lb_coinbaseTX := Some coinbaseTX; lb_transactions := transactions |} in
    response <- this_setCache legacyBlocksV cacheName obj (60 * 60 * 24) ;;
    resolve (if skipCoinbaseTransactions then deleteCoinbaseTX response else response))
    reject).

(** *** The wallet-sync operations *)

(** The columns of the block statements; the transaction count is [NULL]
    when the block has no row in [transactions]. *)
Definition blockSummary (b : BlockRow) : BlockSummary :=
  {| s_hash := b_hash b; s_height := b_height b; s_timestamp := b_timestamp b;
     s_txnCount := let n := countTransactions db (b_hash b) in
                   if n =? 0 then None else Some n |}.

Definition getWalletSyncDataByHeight (scanHeight blockCount : option Z)
  : Promise World (list WalletBlock) :=
  let blockCount := checkBlockCount blockCount in
  let scanHeight := default 0 scanHeight in
  thenable (
    let blocks :=
      blockSummary <$> orderAsc b_height
        (filter (fun b => scanHeight <= b_height b /\ b_height b < scanHeight + blockCount)
                (blocks db)) in
    blocks <- await (all (buildWalletDataBlock <$> blocks)) ;;
    (* these blocks have no field blockHeight *)
    ret (jsSort (fun _ _ => compareBlockHeight None None) blocks)).




(** [AND `transactions`.`txnCount` > 1] *)
Definition moreThanCoinbase (s : BlockSummary) : bool :=
  match s_txnCount s with
  | Some c => 1 <? c
  | None => false
  end.


End DatabaseBackend.

(** ** The resume height in the words of the specification

    (a) one plus the greatest height among the blocks whose hash is known,
    (b) the greatest height whose timestamp is at most [startTimestamp],
    (c) [startHeight]; the maximum of those that apply, and 0 when none
    does. *)

Definition greatest (l : list Z) : option Z :=
  match l with
  | [] => None
  | x :: l' => Some (fold_right Z.max x l')
  end.


(** ** Sample stores used by the examples *)

Definition sampleBlock (hash : string) (height timestamp : Z) : BlockRow :=
  {| b_hash := hash; b_height := height; b_timestamp := timestamp; b_difficulty := 1;
     b_nonce := 0; b_size := 100; b_alreadyGeneratedCoins := 0; b_baseReward := 0 |}.

Definition blocksOnly (l : list BlockRow) : Database :=
  {| blocks := l; transactions := []; transaction_inputs := [];
     transaction_outputs := []; transaction_pool := [];
     transaction_outputs_index_maximums := [] |}.

(** A chain of two blocks, and the same chain one block later. *)
Definition chain2 : Database :=
  blocksOnly [sampleBlock "aa" 0 1000; sampleBlock "bb" 1 1030].
Definition chain3 : Database :=
  blocksOnly [sampleBlock "aa" 0 1000; sampleBlock "bb" 1 1030; sampleBlock "cc" 2 1060].


(** A store in which the transaction ["aa"] is both in the pool and in a
    block, and ["bb"] is in the pool only. *)
Definition sampleTransaction (txnHash blockHash : string) (fee totalIn totalOut : Z)
  : TransactionRow :=
  {| t_txnHash := txnHash; t_blockHash := blockHash; t_publicKey := "pk";
     t_paymentId := ""; t_unlockTime := 0; t_size := 200; t_fee := fee;
     t_totalInputsAmount := totalIn; t_totalOutputsAmount := totalOut;
     t_mixin := 0; t_extra := "" |}.

Definition poolAndBlock : Database :=
  {| blocks := [sampleBlock "b0" 0 1000];
     transactions := [sampleTransaction "aa" "b0" 1 10 9];
     transaction_inputs := []; transaction_outputs := [];
     transaction_pool := ["aa"; "bb"];
     transaction_outputs_index_maximums := [] |}.

(** A store with one transaction ["t1"] that has one input and one output. *)
Definition oneTransfer : Database :=
  {| blocks := [sampleBlock "b0" 0 1000];
     transactions := [sampleTransaction "t1" "b0" 1 10 9];
     transaction_inputs :=
       [{| ir_txnHash := "t1"; ir_type := 2; ir_amount := 10; ir_keyImage := "k1" |}];
     transaction_outputs :=
       [{| or_txnHash := "t1"; or_type := 2; or_amount := 9; or_globalIndex := 0;
           or_outputIndex := 0; or_key := "o1" |}];
     transaction_pool := [];
     transaction_outputs_index_maximums := [{| m_amount := 9; m_globalIndex := 0 |}] |}.

(** ** The consistency invariants in the words of the specification *)

(** Invariant 3 for every transaction, invariants 2 and 4 for a transaction
    that is not a coinbase transaction; [recorded] holds the totals and the
    fee of the row of [transactions]. *)
Definition consistent (inputs outputs : Z) (recorded : Meta) : Prop :=
  outputs = meta_outputsTotal recorded
  /\ (meta_inputsTotal recorded <> 0 ->
      inputs = meta_inputsTotal recorded /\ inputs - outputs = meta_fee recorded).

Definition recordedTotals (txn : TxnRow) : Meta :=
  {| meta_inputsTotal := t_totalInputsAmount (x_row txn);
     meta_outputsTotal := t_totalOutputsAmount (x_row txn);
     meta_fee := t_fee (x_row txn) |}.

(** The messages of a DataConsistency error. *)
Definition isDataConsistency (e : Error) : Prop :=
  exists hash message, e = Err (getError hash message).

(** A block with a coinbase transaction ["cb"] and a transfer ["t1"] whose
    rows agree with the recorded totals. *)
Definition soundBlock : Database :=
  {| blocks := [sampleBlock "b0" 0 1000];
     transactions := [sampleTransaction "cb" "b0" 0 0 5;
                      sampleTransaction "t1" "b0" 1 10 9];
     transaction_inputs :=
       [{| ir_txnHash := "t1"; ir_type := 2; ir_amount := 10; ir_keyImage := "k1" |}];
     transaction_outputs :=
       [{| or_txnHash := "cb"; or_type := 2; or_amount := 5; or_globalIndex := 0;
           or_outputIndex := 0; or_key := "o0" |};
        {| or_txnHash := "t1"; or_type := 2; or_amount := 9; or_globalIndex := 0;
           or_outputIndex := 0; or_key := "o1" |}];
     transaction_pool := [];
     transaction_outputs_index_maximums := [] |}.

(** The same block when the coinbase row records 5 and its only output
    holds 3. *)
Definition coinbaseMismatch : Database :=
  {| blocks := [sampleBlock "b0" 0 1000];
     transactions := [sampleTransaction "cb" "b0" 0 0 5;
                      sampleTransaction "t1" "b0" 1 10 9];
     transaction_inputs :=
       [{| ir_txnHash := "t1"; ir_type := 2; ir_amount := 10; ir_keyImage := "k1" |}];
     transaction_outputs :=
       [{| or_txnHash := "cb"; or_type := 2; or_amount := 3; or_globalIndex := 0;
           or_outputIndex := 0; or_key := "o0" |};
        {| or_txnHash := "t1"; or_type := 2; or_amount := 9; or_globalIndex := 0;
           or_outputIndex := 0; or_key := "o1" |}];
     transaction_pool := [];
     transaction_outputs_index_maximums := [] |}.

(** The same block when the transfer records a fee of 2. *)
Definition feeMismatch : Database :=
  {| blocks := [sampleBlock "b0" 0 1000];
     transactions := [sampleTransaction "cb" "b0" 0 0 5;
                      sampleTransaction "t1" "b0" 2 10 9];
     transaction_inputs :=
       [{| ir_txnHash := "t1"; ir_type := 2; ir_amount := 10; ir_keyImage := "k1" |}];
     transaction_outputs :=
       [{| or_txnHash := "cb"; or_type := 2; or_amount := 5; or_globalIndex := 0;
           or_outputIndex := 0; or_key := "o0" |};
        {| or_txnHash := "t1"; or_type := 2; or_amount := 9; or_globalIndex := 0;
           or_outputIndex := 0; or_key := "o1" |}];
     transaction_pool := [];
     transaction_outputs_index_maximums := [] |}.





(** A transaction of the assembler that still carries the totals of its
    row of [txns]. *)
Definition fromRow (txns : list TxnRow) (t : WalletTransaction) : Prop :=
  exists row, row ∈ txns /\ wt_hash t = t_txnHash (x_row row)
              /\ wt_meta t = Some (recordedTotals row).

Definition fromLegacyRow (txns : list TxnRow) (t : LegacyTransaction) : Prop :=
  exists row, row ∈ txns /\ lt_hash t = t_txnHash (x_row row)
              /\ t_totalInputsAmount (x_row row) <> 0
              /\ lt_meta t = Some (recordedTotals row).

(** ** The random output sampler ([getRandomOutputsForAmounts]) *)

(** How the operation ends for a finite run of the entropy source:
    [Starved] is a run in which the drawing loop has not finished when the
    source is used up. *)
Inductive Sampled (A : Type) :=
| Drawn (a : A)
| Refused (e : Error)
| Starved.
Arguments Drawn {A} a.
Arguments Refused {A} e.
Arguments Starved {A}.

Record Out := {
  global_amount_index : Z;
  out_key : string
}.

(** [curObject]: it starts as [{ amount: -1 }], without [outs]. *)
Record OutputGroup := {
  g_amount : Z;
  g_outs : option (list Out)
}.

(** [Random(min, max)] resolves an integer between [min] and [max], both
    included, that the next value of the entropy source determines. *)
Definition Random (min max entropy : Z) : Z := min + entropy mod (max - min + 1).

Definition InsufficientMixins : Error :=
  Err "Not enough mixins available to satisfy the request".

Section Sampler.

Variable db : Database.

(** The first loop: the amounts without repetition and the number of
    mixins to draw for each. *)
Definition dedupe (mixin : Z) (amounts : list Z) : list Z * gmap Z Z :=
  foldl (fun acc amount =>
           if decide (amount ∈ fst acc)
           then (fst acc, alter (fun count => count + mixin) amount (snd acc))
           else (fst acc ++ [amount], <[amount := mixin]> (snd acc)))
        ([], ∅) amounts.

(** [while (rnds.length !== dedupedMixin) { ... }]; [dedupedMixin] is
    [None] when [mixinCounts] has no entry for the amount. *)
Fixpoint drawUnique (max : Z) (dedupedMixin : option Z) (rnds : list Z) (entropy : list Z)
  : option (list Z) * list Z :=
  if decide (Some (Z.of_nat (length rnds)) = dedupedMixin) then (Some rnds, entropy)
  else
    match entropy with
    | [] => (None, [])
    | e :: entropy' =>
        let rand := Random 0 max e in
        drawUnique max dedupedMixin
          (if decide (rand ∈ rnds) then rnds else rnds ++ [rand]) entropy'
    end.

(** The loop over the maxima: the pairs (amount, index) of
    [randomValues]. *)
Fixpoint sampleRows (mixin : Z) (mixinCounts : gmap Z Z) (results : list MaximumRow)
    (entropy : list Z) : Sampled (list (Z * Z)) :=
  match results with
  | [] => Drawn []
  | result :: rest =>
      if m_globalIndex result <? mixin then Refused InsufficientMixins
      else
        match drawUnique (m_globalIndex result) (mixinCounts !! m_amount result) []
                entropy with
        | (None, _) => Starved
        | (Some rnds, entropy') =>
            match sampleRows mixin mixinCounts rest entropy' with
            | Drawn randomValues =>
                Drawn (((fun rand => (m_amount result, rand)) <$> rnds) ++ randomValues)
            | other => other
            end
        end
  end.

Definition sortOuts (outs : list Out) : list Out :=
  jsSort (fun a b =>
            if global_amount_index b <? global_amount_index a then 1
            else if global_amount_index a <? global_amount_index b then -1
            else 0) outs.

Definition outOf (result : OutputRecord) : Out :=
  {| global_amount_index := or_globalIndex result; out_key := or_key result |}.

(** [curObject.outs.push({ ... })] *)
Definition pushOut (cur : OutputGroup) (result : OutputRecord) : OutputGroup :=
  {| g_amount := g_amount cur;
     g_outs := Some (default [] (g_outs cur) ++ [outOf result]) |}.

(** The loop that forms the flat rows into groups; [None] is the
    [TypeError] of [curObject.outs.length] on the first object. *)
Fixpoint groupRows (mixin : Z) (response : list OutputGroup) (curObject : OutputGroup)
    (results : list OutputRecord) : option (list OutputGroup) :=
  match results with
  | [] => Some (response ++ [curObject])
  | result :: rest =>
      let startsGroup :=
        if negb (or_amount result =? g_amount curObject) then Some true
        else (fun outs => Z.of_nat (length outs) =? mixin) <$> g_outs curObject in
      match startsGroup with
      | None => None
      | Some true =>
          let response :=
            if negb (g_amount curObject =? -1)
            then response ++ [{| g_amount := g_amount curObject;
                                 g_outs := sortOuts <$> g_outs curObject |}]
            else response in
          groupRows mixin response
            (pushOut {| g_amount := or_amount result; g_outs := Some [] |} result) rest
      | Some false => groupRows mixin response (pushOut curObject result) rest
      end
  end.

(** [mixin] is [None] when the caller leaves it out; [entropy] is what the
    random source yields during the call. *)
Definition getRandomOutputsForAmounts (amounts : list Z) (mixin : option Z)
    (entropy : list Z) : Sampled (list OutputGroup) :=
  let mixin := default 0 mixin in
  let mixin := mixin + 1 in
  let '(dedupedAmounts, mixinCounts) := dedupe mixin amounts in
  match dedupedAmounts with
  | [] => Refused QueryError                    (* WHERE without a comparison *)
  | _ =>
      let results :=
        filter (fun r => m_amount r ∈ dedupedAmounts)
               (transaction_outputs_index_maximums db) in
      if negb (length results =? length dedupedAmounts)%nat
      then Refused (Err "No prior outputs exist for one of the supplied amounts")
      else
        match sampleRows mixin mixinCounts results entropy with
        | Drawn [] => Refused QueryError    (* no index drawn: WHERE without a comparison *)
        | Drawn randomValues =>
            let results :=
              orderAsc or_amount
                (filter (fun r => (or_amount r, or_globalIndex r) ∈ randomValues)
                        (transaction_outputs db)) in
            match groupRows mixin [] {| g_amount := -1; g_outs := None |} results with
            | Some response => Drawn response
            | None => Refused TypeError
            end
        | Refused e => Refused e
        | Starved => Starved
        end
  end.

End Sampler.

(** A store with [n] outputs of amount 7, indexed from 0. *)
Definition outputsOfSeven (n : nat) : Database :=
  {| blocks := []; transactions := []; transaction_inputs := [];
     transaction_outputs :=
       (fun i => {| or_txnHash := "t"; or_type := 2; or_amount := 7; or_globalIndex := i;
                    or_outputIndex := 0; or_key := "key" +:+ toString10 i |})
       <$> seqZ 0 (Z.of_nat n);
     transaction_pool := [];
     transaction_outputs_index_maximums :=
       [{| m_amount := 7; m_globalIndex := Z.of_nat n - 1 |}] |}.

(** A store with six outputs of amount 7 (greatest global index 5) and two
    outputs of amount 9 (greatest global index 1). *)
Definition sevenAndNine : Database :=
  {| blocks := []; transactions := []; transaction_inputs := [];
     transaction_outputs :=
       ((fun i => {| or_txnHash := "t"; or_type := 2; or_amount := 7; or_globalIndex := i;
                     or_outputIndex := 0; or_key := "key" +:+ toString10 i |})
        <$> seqZ 0 6)
       ++ ((fun i => {| or_txnHash := "u"; or_type := 2; or_amount := 9;
                        or_globalIndex := i; or_outputIndex := 0;
                        or_key := "nine" +:+ toString10 i |})
           <$> seqZ 0 2);
     transaction_pool := [];
     transaction_outputs_index_maximums :=
       [{| m_amount := 7; m_globalIndex := 5 |}; {| m_amount := 9; m_globalIndex := 1 |}] |}.

(** ** lib/rabbit.js: the request/reply bridge

    The channel is a state machine.  Its events are a call of
    [requestReply], the delivery of a message of the reply queue to one of
    the registered consumers, and the passing of time (in milliseconds),
    which fires the timers that are due. *)

Module Rabbit.

Record Message := {
  correlationId : string;
  content : string
}.

(** A consumer registered by [channel.consume(this.replyQueue, ...)]; the
    callback of [requestReply] is told apart by the [requestId] it
    closes over. *)
Record Consumer := {
  consumerQueue : string;
  requestId : string
}.

(** A timer armed by [setTimeout]. *)
Record Timer := {
  fireAt : Z;
  timerFor : string
}.

(** A message handed to [channel.sendToQueue] with its options. *)
Record Published := {
  p_queue : string;
  p_payload : string;
  p_correlationId : string;
  p_replyTo : string;
  p_expiration : Z
}.

Record Bridge := mkBridge {
  replyQueue : string;
  clock : Z;
  consumers : list Consumer;
  timers : list Timer;
  promises : gmap string (Settled string);   (* by requestId; absent = pending *)
  published : list Published;
  acked : list Message;
  nacked : list Message
}.

Definition Timeout : Error :=
  Err "Could not complete request within the specified timeout period".

(** [resolve] and [reject] of the promise of one call: the first wins. *)
Definition settlePromise (id : string) (s : Settled string)
    (m : gmap string (Settled string)) : gmap string (Settled string) :=
  match m !! id with
  | Some _ => m
  | None => <[id := s]> m
  end.

(** [requestReply(queue, payload, timeout)]; [requestId] is the identifier
    that [UUID()] yields for the call, [timeout] is [None] when the caller
    leaves it out. *)
Definition requestReply (b : Bridge) (queue payload : string) (timeout : option Z)
    (requestId : string) : Bridge :=
  let timeout := match timeout with
                 | Some t => if t =? 0 then 5000 else t
                 | None => 5000
                 end in
  {| replyQueue := replyQueue b;
     clock := clock b;
     consumers := consumers b ++ [{| consumerQueue := replyQueue b;
                                     requestId := requestId |}];
     timers := timers b ++ [{| fireAt := clock b + (timeout + 500);
                               timerFor := requestId |}];
     promises := promises b;
     published := published b ++ [{| p_queue := queue; p_payload := payload;
                                     p_correlationId := requestId;
                                     p_replyTo := replyQueue b;
                                     p_expiration := timeout |}];
     acked := acked b;
     nacked := nacked b |}.

(** The callback of the consumer at position [i] runs on [message]. *)
Definition deliver (b : Bridge) (i : nat) (message : Message) : Bridge :=
  match consumers b !! i with
  | None => b
  | Some c =>
      if decide (correlationId message = requestId c)
      then
        {| replyQueue := replyQueue b; clock := clock b; consumers := consumers b;
           (* clearTimeout(cancelTimer) *)
           timers := filter (fun t => timerFor t <> requestId c) (timers b);
           promises := settlePromise (requestId c) (Fulfilled (content message))
                         (promises b);
           published := published b;
           acked := acked b ++ [message];
           nacked := nacked b |}
      else
        {| replyQueue := replyQueue b; clock := clock b; consumers := consumers b;
           timers := timers b; promises := promises b; published := published b;
           acked := acked b;
           nacked := nacked b ++ [message] |}
  end.

(** Time passes until [t]: the timers that are due fire, each once. *)
Definition advance (b : Bridge) (t : Z) : Bridge :=
  let t := Z.max (clock b) t in
  let due := filter (fun timer => fireAt timer <= t) (timers b) in
  {| replyQueue := replyQueue b;
     clock := t;
     consumers := consumers b;
     timers := filter (fun timer => ~ fireAt timer <= t) (timers b);
     promises := foldl (fun m timer => settlePromise (timerFor timer) (Rejected Timeout) m)
                       (promises b) due;
     published := published b;
     acked := acked b;
     nacked := nacked b |}.

Inductive Event :=
| Call (queue payload : string) (timeout : option Z) (requestId : string)
| Deliver (consumer : nat) (message : Message)
| Advance (t : Z).

Definition step (b : Bridge) (e : Event) : Bridge :=
  match e with
  | Call queue payload timeout requestId => requestReply b queue payload timeout requestId
  | Deliver i message => deliver b i message
  | Advance t => advance b t
  end.

Definition run (b : Bridge) (events : list Event) : Bridge := foldl step b events.

(** What an event must not be for a call that gets no reply: a message
    with the identifier of the call, or another call with that
    identifier. *)
Definition unrelated (id : string) (e : Event) : Prop :=
  match e with
  | Call _ _ _ requestId => requestId <> id
  | Deliver _ message => correlationId message <> id
  | Advance _ => True
  end.

(** What holds, at every later moment, of a call that gets no reply: its
    consumer is registered, its timers are armed for [deadline], and either
    the promise is pending before the deadline with the timer armed, or it
    is rejected with Timeout and no timer of the call is left. *)
Definition pendingOrTimedOut (id queue : string) (deadline : Z) (b : Bridge) : Prop :=
  {| consumerQueue := queue; requestId := id |} ∈ consumers b
  /\ (forall t, t ∈ timers b -> timerFor t = id -> fireAt t = deadline)
  /\ ((promises b !! id = None /\ clock b < deadline
       /\ {| fireAt := deadline; timerFor := id |} ∈ timers b)
      \/ (promises b !! id = Some (Rejected Timeout) /\ deadline <= clock b
          /\ forall t, t ∈ timers b -> timerFor t <> id)).

(** A bridge just connected. *)
Definition connected (replyQueue : string) : Bridge :=
  mkBridge replyQueue 0 [] [] ∅ [] [] [].

End Rabbit.

(** ** Operations that cache values of other shapes

    The operations below cache values whose shape has no field in [Cache].
    Each one reads and writes only the entries under its own key names, so
    its world holds those entries, next to [Cache] when the operation calls
    operations that keep their entries there.  [getBlockCount] and
    [getTransactionPool] are the one place where the source stores values
    of two shapes under one key: their entry holds a [CountOrPool]. *)

(** [.then(cached => { if (cached) return resolve(cached) })] in any world. *)
Definition whenCached {W R} (cached : option R) : Chain W R unit :=
  match cached with
  | Some c => resolve c
  | None => ret tt
  end.

(** Where the entries of one shape are kept in a world. *)
Record Store (W A : Type) := mkStore {
  entriesOf : W -> gmap string (A * Z);
  withEntries : gmap string (A * Z) -> W -> W
}.
Arguments mkStore {W A} entriesOf withEntries.
Arguments entriesOf {W A} s w.
Arguments withEntries {W A} s m w.

(** A world that is the entries themselves. *)
Definition ownStore {A} : Store (gmap string (A * Z)) A :=
  mkStore (fun m => m) (fun m _ => m).

(** A world that holds [Cache] and the entries of one more shape. *)
Definition besideCache {A} : Store (Cache * gmap string (A * Z)) A :=
  mkStore snd (fun m w => (fst w, m)).

(** A promise of the header operations run in such a world. *)
Definition onCache {E A} (p : Promise (option Cache) A) : Promise (option (Cache * E)) A :=
  fun w =>
    let '(c', o) := p (fst <$> w) in
    (match w, c' with
     | Some (_, e), Some c => Some (c, e)
     | _, _ => w
     end, o).

(** [JSON.stringify] of an array of integers. *)
Definition stringifyNumbers (l : list Z) : string :=
  "[" +:+ String.concat "," (map toString10 l) +:+ "]".

(** What is found under the key ['getBlockCount']: the count that
    [getBlockCount] stores or the rows that [getTransactionPool] stores
    under the same name. *)
Inductive CountOrPool :=
| Count (cnt : Z)
| Pool (rows : list string).

#[export] Instance CountOrPool_JsData : JsData CountOrPool := {|
  falsy := fun v => match v with Count cnt => cnt =? 0 | Pool _ => false end;
  isEmptyArray := fun v => match v with Pool [] => true | _ => false end;
  keyCount := fun v => match v with Count _ => 0%nat | Pool rows => length rows end
|}.

(** A row of [getBlocks]. *)
Record BlockListing := {
  bl_size : Z;
  bl_difficulty : Z;
  bl_hash : string;
  bl_height : Z;
  bl_timestamp : Z;
  bl_nonce : Z;
  bl_tx_count : Z
}.

(** A row of the transactions of [getBlock]. *)
Record BlockTransaction := {
  bt_amount_out : Z;
  bt_fee : Z;
  bt_hash : string;
  bt_size : Z
}.

(** What [getBlock] returns: the header, with [depth] written again, and
    the field [transactions]. *)
Record BlockDetail := {
  d_header : BlockHeader;
  d_transactions : list BlockTransaction
}.

#[export] Instance BlockDetail_JsData : JsData BlockDetail := {|
  falsy := fun _ => false;
  isEmptyArray := fun _ => false;
  keyCount := fun _ => 11%nat
|}.

(** What [getTransaction] returns.  The rows of [transactions] have no
    column [nonce], so [tx.nonce] is undefined and the object has no such
    field. *)
Record TransactionInfo := {
  ti_amount_out : Z;
  ti_fee : Z;
  ti_hash : string;
  ti_mixin : Z;
  ti_paymentId : string;
  ti_size : Z;
  ti_extra : string;
  ti_unlock_time : string;
  ti_publicKey : string;
  ti_inputs : list InputRow;
  ti_outputs : list OutputRow
}.

Record BlockInfo := {
  bi_cumul_size : Z;
  bi_difficulty : Z;
  bi_hash : string;
  bi_height : Z;
  bi_timestamp : Z;
  bi_tx_count : Z;
  bi_depth : Z
}.

Record TransactionDetail := {
  td_tx : TransactionInfo;
  td_block : BlockInfo
}.

#[export] Instance TransactionDetail_JsData : JsData TransactionDetail := {|
  falsy := fun _ => false;
  isEmptyArray := fun _ => false;
  keyCount := fun _ => 2%nat
|}.

(** [buffer.toString('hex')]: two lower-case hexadecimal digits for each
    byte. *)
Definition hexDigit (n : N) : ascii :=
  match n with
  | 0 => "0" | 1 => "1" | 2 => "2" | 3 => "3" | 4 => "4" | 5 => "5" | 6 => "6" | 7 => "7"
  | 8 => "8" | 9 => "9" | 10 => "a" | 11 => "b" | 12 => "c" | 13 => "d" | 14 => "e"
  | _ => "f"
  end%N%char.

Fixpoint toStringHex (bytes : string) : string :=
  match bytes with
  | EmptyString => EmptyString
  | String byte rest =>
      String (hexDigit (N_of_ascii byte / 16))
        (String (hexDigit (N_of_ascii byte mod 16)) (toStringHex rest))
  end.

(** A row of [getRecentChainStats]. *)
Record ChainStat := {
  cs_timestamp : Z;
  cs_difficulty : Z;
  cs_nonce : Z;
  cs_size : Z;
  cs_txnCount : Z
}.

(** A row of [getAmountKeys]. *)
Record AmountKey := {
  ak_globalIndex : Z;
  ak_key : string
}.

(** What [legacyGetWalletSyncDataPreflight] returns. *)
Record TopBlock := {
  top_height : Z;
  top_hash : string
}.

Record Preflight := {
  pf_topBlock : TopBlock;
  pf_networkHeight : Z;
  pf_height : Z;
  pf_blockCount : Z;
  pf_blockHashes : list string
}.

Section MoreOperations.

Variable sha256 : string -> string.
Variable defaultTTL : Z.
Variable db : Database.
Variable now : Z.

Definition store_checkCache {W R A} `{JsData A} (s : Store W A) (key : string)
  : Chain (option W) R (option A) :=
  fun x => (x, Next (checkCache sha256 (entriesOf s <$> world x) now key)).

Definition store_setCache {W R A} `{JsData A} (s : Store W A) (key : string) (value : A)
    (ttl : Z) : Chain (option W) R A :=
  fun x =>
    let '(c', value') :=
      setCache sha256 defaultTTL (entriesOf s <$> world x) now key value ttl in
    (mkExec (settled x)
            match world x, c' with
            | Some w, Some c => Some (withEntries s c w)
            | w, _ => w
            end,
     Next value').

(** [getBlockHeight]: the value it caches is a number. *)
Definition getBlockHeight (hash : string) : Promise (option Cache) Z :=
  let cacheName := "getBlockHeight" +:+ hash in
  newPromise (catch (
    cached <- this_checkCache sha256 now numbersV cacheName ;;
    whenHit cached ;;;
    block <- await (getBlockHeaderByHash sha256 defaultTTL db now hash) ;;
    height <- this_setCache sha256 defaultTTL now numbersV cacheName
                (b_height (h_block block)) 15 ;;
    resolve height) reject).

(** [SELECT COUNT( * ) AS cnt FROM blocks] yields one row, so the guard on
    [results.length] never fires. *)
Definition getBlockCount
  : Promise (option (gmap string (CountOrPool * Z))) CountOrPool :=
  let cacheName := "getBlockCount" in
  newPromise (catch (
    cached <- store_checkCache ownStore cacheName ;;
    whenCached cached ;;;
    cnt <- store_setCache ownStore cacheName (Count (Z.of_nat (length (blocks db)))) 5 ;;
    resolve cnt) reject).

(** [getTransactionPool] names its entry ['getBlockCount'] as well. *)
Definition getTransactionPool
  : Promise (option (gmap string (CountOrPool * Z))) CountOrPool :=
  let cacheName := "getBlockCount" in
  newPromise (catch (
    cached <- store_checkCache ownStore cacheName ;;
    whenCached cached ;;;
    rows <- store_setCache ownStore cacheName (Pool (transaction_pool db)) 5 ;;
    resolve rows) reject).

Definition chainStat (b : BlockRow) : ChainStat :=
  {| cs_timestamp := b_timestamp b; cs_difficulty := b_difficulty b;
     cs_nonce := b_nonce b; cs_size := b_size b;
     cs_txnCount := countTransactions db (b_hash b) |}.

(** After [reject] the link that follows calls [resolve(undefined)] on the
    promise that is settled by then. *)
Definition getRecentChainStats
  : Promise (option (gmap string (list ChainStat * Z))) (list ChainStat) :=
  let cacheName := "getRecentChainStats" in
  newPromise (catch (
    cached <- store_checkCache ownStore cacheName ;;
    whenCached cached ;;;
    match chainStat <$> firstn 2880 (orderDesc b_height (blocks db)) with
    | [] => reject (Err "No blocks found")
    | blocks =>
        blocks <- store_setCache ownStore cacheName blocks 30 ;;
        resolve blocks
    end) reject).

Definition blockListing (b : BlockRow) : BlockListing :=
  {| bl_size := b_size b; bl_difficulty := b_difficulty b; bl_hash := b_hash b;
     bl_height := b_height b; bl_timestamp := b_timestamp b; bl_nonce := b_nonce b;
     bl_tx_count := countTransactions db (b_hash b) |}.

(** [SELECT ... FROM blocks WHERE height BETWEEN ? AND ? ORDER BY height DESC] *)
Definition blocksBetween (min max : Z) : list BlockListing :=
  blockListing <$> orderDesc b_height
    (filter (fun b => min <= b_height b /\ b_height b <= max) (blocks db)).

(** [count] is [None] when the caller leaves it out. *)
Definition getBlocks (height : Z) (count : option Z)
  : Promise (option (gmap string (list BlockListing * Z))) (list BlockListing) :=
  let cnt := match count with
             | Some n => if n =? 0 then 30 else n
             | None => 30
             end in
  let cacheName := "getBlocks" +:+ toString10 height +:+ toString10 cnt in
  let min := height - (cnt - 1) in
  let max := height in
  newPromise (catch (
    cached <- store_checkCache ownStore cacheName ;;
    whenCached cached ;;;
    blocks <- store_setCache ownStore cacheName (blocksBetween min max) 5 ;;
    resolve blocks) reject).

Definition blockTransaction (t : TransactionRow) : BlockTransaction :=
  {| bt_amount_out := t_totalOutputsAmount t; bt_fee := t_fee t; bt_hash := t_txnHash t;
     bt_size := t_size t |}.

Definition getBlock (hash : string)
  : Promise (option (Cache * gmap string (BlockDetail * Z))) BlockDetail :=
  let cacheName := "getBlock" +:+ hash in
  newPromise (catch (
    cached <- store_checkCache besideCache cacheName ;;
    whenCached cached ;;;
    header <- await (onCache (getLastBlockHeader sha256 defaultTTL db now)) ;;
    let topHeight := b_height (h_block header) in
    block <- await (onCache (getBlockHeaderByHash sha256 defaultTTL db now hash)) ;;
    let result := {| h_block := h_block block;
                     h_depth := topHeight - b_height (h_block block);
                     h_transactionCount := h_transactionCount block |} in
    let transactions :=
      blockTransaction <$> filter (fun t => t_blockHash t = hash) (transactions db) in
    let result := {| d_header := result; d_transactions := transactions |} in
    store_setCache besideCache cacheName result 5 ;;;
    resolve result) reject).

(** When the statement does not select exactly one row, the link rejects
    and returns undefined, and the next link throws on [block.size]. *)
Definition getTransaction (hash : string)
  : Promise (option (Cache * gmap string (TransactionDetail * Z))) TransactionDetail :=
  let cacheName := "getTransaction" +:+ hash in
  newPromise (catch (
    cached <- store_checkCache besideCache cacheName ;;
    whenCached cached ;;;
    match txnRow <$> filter (fun t => t_txnHash t = hash) (transactions db) with
    | [transaction] =>
        let tx := x_row transaction in
        block <- await (onCache (getBlockHeaderByHash sha256 defaultTTL db now
                                   (t_blockHash tx))) ;;
        inputs <- await (onCache (getTransactionInputs sha256 defaultTTL db now
                                    (t_txnHash tx) None)) ;;
        outputs <- await (onCache (getTransactionOutputs sha256 defaultTTL db now
                                     (Some (t_txnHash tx)) None)) ;;
        header <- await (onCache (getLastBlockHeader sha256 defaultTTL db now)) ;;
        let result :=
          {| td_tx := {| ti_amount_out := t_totalOutputsAmount tx; ti_fee := t_fee tx;
                         ti_hash := t_txnHash tx; ti_mixin := t_mixin tx;
                         ti_paymentId := t_paymentId tx; ti_size := t_size tx;
                         ti_extra := toStringHex (t_extra tx);
                         ti_unlock_time := x_unlockTimeString transaction;
                         ti_publicKey := t_publicKey tx;
                         ti_inputs := inputs; ti_outputs := outputs |};
             td_block := {| bi_cumul_size := b_size (h_block block);
                            bi_difficulty := b_difficulty (h_block block);
                            bi_hash := b_hash (h_block block);
                            bi_height := b_height (h_block block);
                            bi_timestamp := b_timestamp (h_block block);
                            bi_tx_count := h_transactionCount block;
                            bi_depth := b_height (h_block header)
                                        - b_height (h_block block) |} |} in
        store_setCache besideCache cacheName result 15 ;;;
        resolve result
    | _ =>
        reject (Err "Transaction not found") ;;;
        throw TypeError
    end) reject).

Definition amountKey (r : OutputRecord) : AmountKey :=
  {| ak_globalIndex := or_globalIndex r; ak_key := or_key r |}.

(** [globalIndexes] is an array of numbers, so neither guard at the head
    of the function fires.  With no index the statement ends in [IN ()],
    which the store refuses.  After [reject] the link that follows calls
    [resolve(undefined)] on the promise that is settled by then. *)
Definition getAmountKeys (amount : Z) (globalIndexes : list Z)
  : Promise (option (gmap string (list AmountKey * Z))) (list AmountKey) :=
  let cacheName := "getAmountKeys" +:+ toString10 amount +:+ stringifyNumbers globalIndexes in
  newPromise (catch (
    cached <- store_checkCache ownStore cacheName ;;
    whenCached cached ;;;
    rows <- match globalIndexes with
            | [] => throw QueryError
            | _ =>
                ret (amountKey <$> orderAsc or_globalIndex
                       (filter (fun r => or_amount r = amount
                                         /\ or_globalIndex r ∈ globalIndexes)
                               (transaction_outputs db)))
            end ;;
    if negb (length rows =? length globalIndexes)%nat
    then reject (Err ("Data consistency error, could not provide all keys "
                      +:+ "for supplied globalIndexes"))
    else
      rows <- store_setCache ownStore cacheName rows 60 ;;
      resolve rows) reject).

(** The store refuses a [LIMIT] with a negative count. *)
Definition legacyGetWalletSyncDataPreflight (startHeight startTimestamp : option Z)
    (blockHashCheckpoints : list string) (skipCoinbaseTransactions : bool)
  : Promise (option Cache) Preflight :=
  thenable (
    block <- await (getLastBlockHeader sha256 defaultTTL db now) ;;
    let topBlock := {| top_height := b_height (h_block block);
                       top_hash := b_hash (h_block block) |} in
    syncHeight <- await (findCurrentSyncHeight sha256 defaultTTL db now
                           blockHashCheckpoints startHeight startTimestamp) ;;
    let resolvableBlocks := top_height topBlock - syncHeight + 1 in
    let blockCount := if 100 <? resolvableBlocks then 100 else resolvableBlocks in
    blocks <-
      (if blockCount <? 0 then throw QueryError
       else ret (firstn (Z.to_nat blockCount)
                   (orderAsc s_height
                     (filter (fun s => skipCoinbaseTransactions = true
                                       -> moreThanCoinbase s = true)
                       (blockSummary db <$>
                          filter (fun b => syncHeight <= b_height b
                                           /\ b_height b <= top_height topBlock)
                                 (blocks db)))))) ;;
    ret {| pf_topBlock := topBlock; pf_networkHeight := 0; pf_height := syncHeight;
           pf_blockCount := blockCount; pf_blockHashes := s_hash <$> blocks |}).

End MoreOperations.

(** A promise that always resolves and neither drops nor creates the
    backend. *)
Definition steady {A} (p : Promise (option Cache) A) : Prop :=
  forall w, (exists a, snd (p w) = Some (Fulfilled a))
            /\ (is_Some w <-> is_Some (fst (p w))).

(** A group of the sampler that holds at most [mixin] outputs, each built
    from one of [rows] with the amount of the group. *)
Definition groupOk (mixin : Z) (rows : list OutputRecord) (g : OutputGroup) : Prop :=
  forall outs, g_outs g = Some outs ->
    Z.of_nat (length outs) <= mixin
    /\ forall o, o ∈ outs ->
         exists r, r ∈ rows /\ or_amount r = g_amount g /\ outOf r = o.

(** ** lib/rabbit.js: the reply of a worker *)

(** The message that [reply(message, payload)] sends to the queue
    [message.properties.replyTo], for the request that [requestReply] has
    published: it carries the [correlationId] of the request. *)
Definition Rabbit_reply (message : Rabbit.Published) (payload : string) : Rabbit.Message :=
  {| Rabbit.correlationId := Rabbit.p_correlationId message; Rabbit.content := payload |}.

(** The consumers that the calls among [events] register on [replyQueue]. *)
Definition registeredBy (replyQueue : string) (events : list Rabbit.Event)
  : list Rabbit.Consumer :=
  omap (fun e => match e with
                 | Rabbit.Call _ _ _ requestId =>
                     Some {| Rabbit.consumerQueue := replyQueue;
                             Rabbit.requestId := requestId |}
                 | _ => None
                 end) events.

(** * Theorems *)

(** ** The cache helpers *)

Section RedisCacheFacts.

Variable sha256 : string -> string.
Variable defaultTTL : Z.

Lemma checkCache_no_backend {A} `{JsData A} now key :
  checkCache sha256 (A:=A) None now key = None.
Proof. reflexivity. Qed.

Lemma checkCache_hit_inv {A} `{JsData A} cache now key (data : A) :
  checkCache sha256 cache now key = Some data ->
  exists client, cache = Some client
    /\ RedisCache_get sha256 client now key = Some data
    /\ falsy data = false /\ isEmptyArray data = false /\ keyCount data <> 0%nat.
Proof.
  unfold checkCache. destruct cache as [client|]; [|discriminate].
  destruct (RedisCache_get sha256 client now key) as [d|] eqn:Hget; [|discriminate].
  destruct (falsy d) eqn:Hf; [discriminate|].
  destruct (isEmptyArray d) eqn:He; [discriminate|].
  destruct (keyCount d =? 0)%nat eqn:Hk; [discriminate|].
  intros [= <-]. exists client. repeat split; try assumption.
  now apply Nat.eqb_neq.
Qed.

(** A number is never a hit. *)
Lemma checkCache_number cache now key :
  checkCache sha256 (A:=Z) cache now key = None.
Proof.
  destruct (checkCache sha256 cache now key) as [z|] eqn:Hc; [|reflexivity].
  apply checkCache_hit_inv in Hc as (? & _ & _ & _ & _ & Hk). now elim Hk.
Qed.

End RedisCacheFacts.

(** C9: a lookup that finds no backend, no entry, an empty array or a value
    without keys is a miss for [checkCache]; in particular the empty array
    (and the empty mapping) stored through [setCache] under [k] reads back
    as a miss under [k] at any later time. *)
Theorem checkCache_empty_is_miss :
  forall (sha256 : string -> string) (defaultTTL : Z) (A : Type) (JA : JsData A)
         (client : gmap string (A * Z)) (now : Z) (k : string),
    checkCache sha256 (A:=A) None now k = None
    /\ (RedisCache_get sha256 client now k = None ->
        checkCache sha256 (Some client) now k = None)
    /\ (forall data : A,
          RedisCache_get sha256 client now k = Some data ->
          isEmptyArray data = true \/ keyCount data = 0%nat ->
          checkCache sha256 (Some client) now k = None)
    /\ (forall (X : Type) (c : gmap string (list X * Z)) (ttl later : Z),
          snd (setCache sha256 defaultTTL (Some c) now k [] ttl) = []
          /\ checkCache sha256 (fst (setCache sha256 defaultTTL (Some c) now k [] ttl))
               later k = None)
    /\ (forall (X : Type) (c : gmap string (gmap string X * Z)) (ttl later : Z),
          checkCache sha256 (fst (setCache sha256 defaultTTL (Some c) now k ∅ ttl))
            later k = None).
Proof.
  intros sha256 defaultTTL A JA client now k.
  split; [reflexivity|]. split.
  { intros Hget. unfold checkCache. now rewrite Hget. }
  split.
  { intros data Hget Hempty. unfold checkCache. rewrite Hget.
    destruct (falsy data); [reflexivity|].
    destruct Hempty as [-> | ->]; [reflexivity|].
    now destruct (isEmptyArray data). }
  split.
  - intros X c ttl later. split; [reflexivity|].
    cbn. unfold RedisCache_get. rewrite lookup_insert_eq.
    now destruct (later <? _).
  - intros X c ttl later.
    cbn. unfold RedisCache_get. rewrite lookup_insert_eq.
    destruct (later <? _); [|reflexivity].
    cbn. now rewrite map_size_empty.
Qed.

Lemma checkCache_empty_is_miss_witness :
  checkCache (fun s => s) (Some ({[ "k" := ([] : list Z, 100) ]})) 0 "k" = None.
Proof.
  destruct (checkCache_empty_is_miss (fun s => s) 30 (list Z) _
              {[ "k" := ([], 100) ]} 0 "k") as (_ & _ & Hempty & _).
  apply (Hempty []); [vm_compute; reflexivity | left; reflexivity].
Defined.

(** ** [ORDER BY ... DESC LIMIT 1] *)

Section SortFacts.

Context {X : Type} (R : relation X) `{!RelDecision R}.

Lemma insertRow_Permutation (x : X) (l : list X) : insertRow R x l ≡ₚ x :: l.
Proof.
  induction l as [|y l IH]; cbn; [reflexivity|].
  destruct (decide (R x y)); [reflexivity|].
  rewrite IH. apply Permutation_swap.
Qed.

Lemma sortRows_Permutation (l : list X) : sortRows R l ≡ₚ l.
Proof.
  induction l as [|x l IH]; cbn; [reflexivity|].
  rewrite insertRow_Permutation. now f_equiv.
Qed.

Context `{!Transitive R, !Total R}.

Lemma insertRow_sorted (x : X) (l : list X) :
  StronglySorted R l -> StronglySorted R (insertRow R x l).
Proof.
  induction 1 as [|y l Hsorted IH Hall]; cbn.
  - repeat constructor.
  - destruct (decide (R x y)) as [Hxy|Hxy].
    + constructor; [now constructor|]. constructor; [assumption|].
      eapply Forall_impl; [exact Hall|]. intros z Hz. now transitivity y.
    + constructor; [assumption|].
      rewrite insertRow_Permutation. constructor; [|assumption].
      destruct (total R x y); [contradiction | assumption].
Qed.

Lemma StronglySorted_sortRows (l : list X) : StronglySorted R (sortRows R l).
Proof.
  induction l as [|x l IH]; cbn; [constructor|]. now apply insertRow_sorted.
Qed.

End SortFacts.

Section OrderFacts.

Context {X : Type} (key : X -> Z).

#[local] Instance keyGe_trans : Transitive (keyGe key).
Proof. unfold keyGe. intros a b c ? ?. lia. Qed.

#[local] Instance keyGe_total : Total (keyGe key).
Proof. unfold keyGe. intros a b. lia. Qed.

Lemma orderDesc_perm (l : list X) : orderDesc key l ≡ₚ l.
Proof. apply sortRows_Permutation. Qed.

Lemma orderDesc_nil (l : list X) : orderDesc key l = [] <-> l = [].
Proof.
  split; intros Hl.
  - apply Permutation_nil_r. rewrite <- Hl. symmetry. apply orderDesc_perm.
  - subst l. apply Permutation_nil_r. apply orderDesc_perm.
Qed.

Lemma orderDesc_head (l : list X) (b : X) (rest : list X) :
  orderDesc key l = b :: rest ->
  b ∈ l /\ forall x, x ∈ l -> key x <= key b.
Proof.
  intros Hs.
  pose proof (orderDesc_perm l) as Hp.
  pose proof (StronglySorted_sortRows (keyGe key) l) as Hsorted.
  fold (orderDesc key l) in Hsorted. rewrite Hs in Hp, Hsorted.
  split.
  - rewrite <- Hp. left.
  - intros x Hx. rewrite <- Hp in Hx.
    apply StronglySorted_inv in Hsorted as [_ Hall].
    apply elem_of_cons in Hx as [-> | Hx]; [lia|].
    rewrite Forall_forall in Hall. exact (Hall x Hx).
Qed.

Lemma fold_max_spec (a : Z) (l : list Z) :
  fold_right Z.max a l ∈ a :: l /\ forall x, x ∈ a :: l -> x <= fold_right Z.max a l.
Proof.
  induction l as [|c l [Hin Hmax]]; cbn.
  - split; [left|]. intros x Hx. apply list_elem_of_singleton in Hx. lia.
  - split.
    + destruct (Z.max_spec c (fold_right Z.max a l)) as [[_ Heq] | [_ Heq]];
        rewrite Heq; [|right; left].
      apply elem_of_cons in Hin as [Hin | Hin]; [rewrite Hin; left|].
      right. now right.
    + intros x Hx.
      apply elem_of_cons in Hx as [Hx | Hx].
      * assert (x <= fold_right Z.max a l) by (apply Hmax; rewrite Hx; left). lia.
      * apply elem_of_cons in Hx as [Hx | Hx]; [lia|].
        assert (x <= fold_right Z.max a l) by (apply Hmax; now right). lia.
Qed.

Lemma greatest_spec (l : list Z) (m : Z) :
  greatest l = Some m <-> m ∈ l /\ forall x, x ∈ l -> x <= m.
Proof.
  destruct l as [|a l]; cbn.
  - split; [discriminate|]. intros [Hm _]. inversion Hm.
  - destruct (fold_max_spec a l) as [Hin Hmax]. split.
    + intros [= <-]. now split.
    + intros [Hm Hmax']. f_equal.
      specialize (Hmax _ Hm). specialize (Hmax' _ Hin). lia.
Qed.


End OrderFacts.

(** ** Block headers *)

(** Unfolds the links of a chain down to the cache and the store. *)
Ltac run_chain :=
  unfold newPromise, thenable, catch, bind, this_checkCache, this_setCache, await,
    whenHit, resolve, reject, throw, ret, settle, setCache, RedisCache_set;
  cbn.

Section HeaderFacts.

Variable sha256 : string -> string.
Variable defaultTTL : Z.
Variable db : Database.
Variable now : Z.

(** A hit settles the promise with the cached header, whatever the rest of
    the chain does. *)
Lemma getLastBlockHeader_hit w cached :
  checkCache sha256 (headers <$> w) now "getLastBlockHeader" = Some cached ->
  snd (getLastBlockHeader sha256 defaultTTL db now w) = Some (Fulfilled cached).
Proof.
  intros Hc. unfold getLastBlockHeader. run_chain.
  rewrite Hc. cbn.
  destruct (firstn 1 (orderDesc b_height (blocks db))); [reflexivity|].
  now destruct w.
Qed.






End HeaderFacts.




(** ** The sync height resolver *)

Section SyncHeightFacts.

Variable sha256 : string -> string.
Variable defaultTTL : Z.
Variable db : Database.
Variable now : Z.




End SyncHeightFacts.



(** ** Transaction status *)

Section StatusFacts.

Variable sha256 : string -> string.
Variable defaultTTL : Z.
Variable db : Database.
Variable now : Z.

Lemma getTransactionsStatus_hit w hashes cached :
  checkCache sha256 (statuses <$> w) now
    ("getTransactionsStatus" +:+ stringifyStrings hashes) = Some cached ->
  snd (getTransactionsStatus sha256 defaultTTL db now hashes w) = Some (Fulfilled cached).
Proof.
  intros Hc. unfold getTransactionsStatus. run_chain. rewrite Hc. cbn.
  destruct hashes; [reflexivity|]. now destruct w.
Qed.

Lemma getTransactionsStatus_miss w hashes :
  checkCache sha256 (statuses <$> w) now
    ("getTransactionsStatus" +:+ stringifyStrings hashes) = None ->
  snd (getTransactionsStatus sha256 defaultTTL db now hashes w) =
  match hashes with
  | [] => Some (Rejected QueryError)
  | _ =>
      let inPool := filter (fun h => h ∈ hashes) (transaction_pool db) in
      let inBlock :=
        t_txnHash <$> filter (fun t => t_txnHash t ∈ hashes) (transactions db) in
      Some (Fulfilled
        {| status := "OK"; transactionsInPool := inPool; transactionsInBlock := inBlock;
           transactionsUnknown :=
             filter (fun txn => (txn ∉ inPool) /\ (txn ∉ inBlock)) hashes |})
  end.
Proof.
  intros Hc. unfold getTransactionsStatus. run_chain. rewrite Hc. cbn.
  destruct hashes; [reflexivity|]. now destruct w.
Qed.

End StatusFacts.

(** C7 (as amended): for a list of hashes that is not empty and whose status
    is not served from the cache, the call resolves; every hash of the
    result is an input hash and every input hash is in at least one of the
    three lists; [transactionsUnknown] shares no hash with the other two;
    [transactionsInPool] and [transactionsInBlock] share exactly the input
    hashes that the store holds both in [transaction_pool] and in
    [transactions], so they are disjoint when the store holds none. *)
Theorem getTransactionsStatus_classifies :
  forall (sha256 : string -> string) (defaultTTL : Z) (db : Database) (now : Z)
         (w : option Cache) (hashes : list string),
    hashes <> [] ->
    checkCache sha256 (statuses <$> w) now
      ("getTransactionsStatus" +:+ stringifyStrings hashes) = None ->
    exists r,
      snd (getTransactionsStatus sha256 defaultTTL db now hashes w) = Some (Fulfilled r)
      /\ (forall h, h ∈ hashes <->
            h ∈ transactionsInPool r \/ h ∈ transactionsInBlock r
            \/ h ∈ transactionsUnknown r)
      /\ (forall h, h ∈ transactionsUnknown r ->
            (h ∉ transactionsInPool r) /\ (h ∉ transactionsInBlock r))
      /\ (forall h, h ∈ transactionsInPool r /\ h ∈ transactionsInBlock r <->
            h ∈ hashes /\ h ∈ transaction_pool db
            /\ h ∈ t_txnHash <$> transactions db).
Proof.
  intros sha256 defaultTTL db now w hashes Hne Hmiss.
  rewrite (getTransactionsStatus_miss _ _ _ _ _ _ Hmiss).
  destruct hashes as [|h0 hs]; [congruence|].
  set (hashes := h0 :: hs). cbv zeta. eexists. split; [reflexivity|]. cbn [transactionsInPool transactionsInBlock transactionsUnknown].
  assert (Hpool : forall h, h ∈ filter (fun h => h ∈ hashes) (transaction_pool db)
                            <-> h ∈ hashes /\ h ∈ transaction_pool db).
  { intros h. rewrite list_elem_of_filter. tauto. }
  assert (Hblock : forall h,
             h ∈ t_txnHash <$> filter (fun t => t_txnHash t ∈ hashes) (transactions db)
             <-> h ∈ hashes /\ h ∈ t_txnHash <$> transactions db).
  { intros h. rewrite !list_elem_of_fmap. split.
    - intros (t & -> & Ht). apply list_elem_of_filter in Ht as [Ht1 Ht2].
      split; [assumption|]. now exists t.
    - intros (Hh & t & -> & Ht). exists t. split; [reflexivity|].
      apply list_elem_of_filter. now split. }
  split; [|split].
  - intros h. rewrite Hpool, Hblock, list_elem_of_filter. cbn beta.
    rewrite Hpool, Hblock.
    destruct (decide (h ∈ transaction_pool db));
      destruct (decide (h ∈ t_txnHash <$> transactions db)); tauto.
  - intros h Hh. apply list_elem_of_filter in Hh. tauto.
  - intros h. rewrite Hpool, Hblock. tauto.
Qed.

Lemma getTransactionsStatus_classifies_witness :
  exists r,
    snd (getTransactionsStatus (fun s => s) 30 poolAndBlock 0 ["bb"; "cc"] None)
    = Some (Fulfilled r)
    /\ transactionsInPool r = ["bb"] /\ transactionsInBlock r = []
    /\ transactionsUnknown r = ["cc"].
Proof.
  destruct (getTransactionsStatus_classifies (fun s => s) 30 poolAndBlock 0 None ["bb"; "cc"])
    as (r & Hr & _); [discriminate | reflexivity |].
  exists r. split; [exact Hr|].
  vm_compute in Hr. injection Hr as <-. repeat split.
Defined.

(** The claim of C7 fails on a store that holds a transaction both in the
    pool and in a block: its hash is reported in two of the three lists. *)
Lemma getTransactionsStatus_overlap :
  exists r,
    snd (getTransactionsStatus (fun s => s) 30 poolAndBlock 0 ["aa"] None)
    = Some (Fulfilled r)
    /\ "aa" ∈ transactionsInPool r /\ "aa" ∈ transactionsInBlock r.
Proof.
  eexists. split; [vm_compute; reflexivity|].
  split; left.
Qed.

(** ** Inputs and outputs of a transaction *)

(** C8: with the default trimming, [getTransactionInputs] and
    [getTransactionOutputs] drop [txnHash] from the rows they compute, but
    the rows they serve from the cache one second later still carry it; with
    no cache backend the second call returns the trimmed rows again.  The
    returned value therefore depends on whether the cache is configured and
    on whether the call is a hit. *)
Theorem trimmed_rows_differ_on_cache_hit :
  let inputs w t := getTransactionInputs (fun s => s) 30 oneTransfer t "t1" None w in
  let outputs w t := getTransactionOutputs (fun s => s) 30 oneTransfer t (Some "t1") None w in
  let trimmedInput :=
    {| i_txnHash := None; i_type := "02"; i_amount := 10; i_keyImage := "k1" |} in
  let cachedInput :=
    {| i_txnHash := Some "t1"; i_type := "02"; i_amount := 10; i_keyImage := "k1" |} in
  let trimmedOutput :=
    {| o_txnHash := None; o_type := "02"; o_amount := 9; o_globalIndex := 0;
       o_outputIndex := 0; o_key := "o1" |} in
  let cachedOutput :=
    {| o_txnHash := Some "t1"; o_type := "02"; o_amount := 9; o_globalIndex := 0;
       o_outputIndex := 0; o_key := "o1" |} in
  snd (inputs (Some emptyCache) 0) = Some (Fulfilled [trimmedInput])
  /\ snd (inputs (fst (inputs (Some emptyCache) 0)) 1) = Some (Fulfilled [cachedInput])
  /\ snd (inputs (fst (inputs None 0)) 1) = Some (Fulfilled [trimmedInput])
  /\ snd (outputs (Some emptyCache) 0) = Some (Fulfilled [trimmedOutput])
  /\ snd (outputs (fst (outputs (Some emptyCache) 0)) 1) = Some (Fulfilled [cachedOutput])
  /\ snd (outputs (fst (outputs None 0)) 1) = Some (Fulfilled [trimmedOutput]).
Proof.
  cbv zeta. repeat split; vm_compute; reflexivity.
Qed.

(** ** The block assembler *)

Section CheckFacts.

Lemma checkTransaction_passed (t : WalletTransaction) :
  checkTransaction t = Passed ->
  exists meta, wt_meta t = Some meta
    /\ consistent (sumInputs (wt_inputs t)) (sumOutputs (wt_outputs t)) meta.
Proof.
  unfold checkTransaction, consistent.
  destruct (_ && _)%nat; [discriminate|].
  destruct (wt_meta t) as [meta|]; [|discriminate].
  destruct (Z.eqb_spec (meta_inputsTotal meta) 0) as [Hz|Hz]; cbn;
    destruct (Z.eqb_spec (sumInputs (wt_inputs t)) (meta_inputsTotal meta)); cbn;
    try discriminate;
    destruct (Z.eqb_spec (sumOutputs (wt_outputs t)) (meta_outputsTotal meta)); cbn;
    try discriminate;
    try (destruct (Z.eqb_spec (sumInputs (wt_inputs t) - sumOutputs (wt_outputs t))
                     (meta_fee meta)); cbn; try discriminate);
    intros _; exists meta; (split; [reflexivity|]); split; try assumption;
    intros; try contradiction; now split.
Qed.

Lemma checkTransaction_verdict (t : WalletTransaction) :
  is_Some (wt_meta t) ->
  checkTransaction t = Passed
  \/ exists message, checkTransaction t = Failed (Err (getError (wt_hash t) message)).
Proof.
  intros [meta Hmeta]. unfold checkTransaction. rewrite Hmeta.
  repeat match goal with
         | |- context [if ?c then _ else _] => destruct c
         end; eauto.
Qed.

Lemma checkTransactions_passed (txns txns' : list WalletTransaction) :
  checkTransactions txns = (txns', Passed) ->
  txns' = deleteMeta <$> txns
  /\ Forall (fun t => checkTransaction t = Passed) txns.
Proof.
  revert txns'. induction txns as [|t rest IH]; intros txns'; cbn.
  - intros [= <-]. split; [reflexivity | constructor].
  - destruct (checkTransaction t) eqn:Ht; try discriminate.
    destruct (checkTransactions rest) as [rest' verdict].
    intros [= <- ->]. destruct (IH _ eq_refl) as [-> Hall].
    split; [reflexivity | now constructor].
Qed.

Lemma checkTransactions_verdict (txns : list WalletTransaction) :
  Forall (fun t => is_Some (wt_meta t)) txns ->
  snd (checkTransactions txns) = Passed
  \/ exists e, snd (checkTransactions txns) = Failed e /\ isDataConsistency e.
Proof.
  induction 1 as [|t rest Ht _ IH]; cbn; [now left|].
  destruct (checkTransaction_verdict t Ht) as [-> | [message ->]].
  - destruct (checkTransactions rest) as [rest' verdict]. exact IH.
  - right. eexists. split; [reflexivity|]. now exists (wt_hash t), message.
Qed.

Lemma checkLegacyTransaction_passed (t : LegacyTransaction) :
  checkLegacyTransaction t = Passed ->
  exists meta, lt_meta t = Some meta
    /\ sumLegacyInputs (lt_inputs t) = meta_inputsTotal meta
    /\ sumLegacyOutputs (lt_outputs t) = meta_outputsTotal meta
    /\ sumLegacyInputs (lt_inputs t) - sumLegacyOutputs (lt_outputs t) = meta_fee meta.
Proof.
  unfold checkLegacyTransaction.
  destruct (_ && _)%nat; [discriminate|].
  destruct (lt_meta t) as [meta|]; [|discriminate].
  destruct (Z.eqb_spec (sumLegacyInputs (lt_inputs t)) (meta_inputsTotal meta)); cbn;
    try discriminate.
  destruct (Z.eqb_spec (sumLegacyOutputs (lt_outputs t)) (meta_outputsTotal meta)); cbn;
    try discriminate.
  destruct (Z.eqb_spec (sumLegacyInputs (lt_inputs t) - sumLegacyOutputs (lt_outputs t))
              (meta_fee meta)); cbn; try discriminate.
  intros _. now exists meta.
Qed.

Lemma checkLegacyTransaction_verdict (t : LegacyTransaction) :
  is_Some (lt_meta t) ->
  checkLegacyTransaction t = Passed
  \/ exists message,
      checkLegacyTransaction t = Failed (Err (getError (lt_hash t) message)).
Proof.
  intros [meta Hmeta]. unfold checkLegacyTransaction. rewrite Hmeta.
  repeat match goal with
         | |- context [if ?c then _ else _] => destruct c
         end; eauto.
Qed.

Lemma checkLegacyTransactions_passed (txns txns' : list LegacyTransaction) :
  checkLegacyTransactions txns = (txns', Passed) ->
  txns' = deleteLegacyMeta <$> txns
  /\ Forall (fun t => checkLegacyTransaction t = Passed) txns.
Proof.
  revert txns'. induction txns as [|t rest IH]; intros txns'; cbn.
  - intros [= <-]. split; [reflexivity | constructor].
  - destruct (checkLegacyTransaction t) eqn:Ht; try discriminate.
    destruct (checkLegacyTransactions rest) as [rest' verdict].
    intros [= <- ->]. destruct (IH _ eq_refl) as [-> Hall].
    split; [reflexivity | now constructor].
Qed.

Lemma checkLegacyTransactions_verdict (txns : list LegacyTransaction) :
  Forall (fun t => is_Some (lt_meta t)) txns ->
  snd (checkLegacyTransactions txns) = Passed
  \/ exists e, snd (checkLegacyTransactions txns) = Failed e /\ isDataConsistency e.
Proof.
  induction 1 as [|t rest Ht _ IH]; cbn; [now left|].
  destruct (checkLegacyTransaction_verdict t Ht) as [-> | [message ->]].
  - destruct (checkLegacyTransactions rest) as [rest' verdict]. exact IH.
  - right. eexists. split; [reflexivity|]. now exists (lt_hash t), message.
Qed.

End CheckFacts.

Section ObjectFacts.

Context {V : Type} (P : V -> Prop).

Lemma objSet_Forall k v (o : list (string * V)) :
  P v -> Forall P (snd <$> o) -> Forall P (snd <$> objSet k v o).
Proof.
  intros Hv. induction o as [|[k' v'] o IH]; cbn; intros Ho.
  - now constructor.
  - apply Forall_cons in Ho as [Hv' Ho].
    destruct (decide (k' = k)); cbn; constructor; auto.
Qed.

Lemma objAlter_Forall f k (o o' : list (string * V)) :
  (forall v, P v -> P (f v)) ->
  objAlter f k o = Some o' -> Forall P (snd <$> o) -> Forall P (snd <$> o').
Proof.
  intros Hf. revert o'. induction o as [|[k' v'] o IH]; cbn; intros o' Ho'; [discriminate|].
  intros Ho. apply Forall_cons in Ho as [Hv' Ho].
  destruct (decide (k' = k)).
  - injection Ho' as <-. cbn. constructor; auto.
  - destruct (objAlter f k o) as [o1|]; [|discriminate].
    injection Ho' as <-. cbn. constructor; auto.
Qed.

Lemma objAlter_keys f k (o o' : list (string * V)) :
  objAlter f k o = Some o' -> fst <$> o' = fst <$> o.
Proof.
  revert o'. induction o as [|[k' v'] o IH]; cbn; intros o' Ho'; [discriminate|].
  destruct (decide (k' = k)).
  - now injection Ho' as <-.
  - destruct (objAlter f k o) as [o1|]; [|discriminate].
    injection Ho' as <-. cbn. f_equal. now apply IH.
Qed.

End ObjectFacts.

Section AssemblerFacts.

Variable sha256 : string -> string.
Variable defaultTTL : Z.
Variable db : Database.
Variable now : Z.

Lemma pushRows_run {Row V R} (txnHash : Row -> option string) (push : Row -> V -> V)
    (P : V -> Prop) rows (m : list (string * V)) (x : Exec (option Cache) R) :
  (forall row v, P v -> P (push row v)) ->
  Forall P (snd <$> m) ->
  fst (pushRows txnHash push rows m x) = x
  /\ forall m', snd (pushRows txnHash push rows m x) = Next m' ->
                Forall P (snd <$> m') /\ fst <$> m' = fst <$> m.
Proof.
  intros Hpush. revert m. induction rows as [|row rows IH]; intros m Hm; cbn.
  - split; [reflexivity|]. now intros m' [= <-].
  - destruct (objAlter (push row) _ m) as [m1|] eqn:Halter; cbn.
    + destruct (IH m1) as [Hx Hnext].
      { eapply objAlter_Forall; eauto. }
      split; [exact Hx|]. intros m' Hm'. destruct (Hnext _ Hm') as [HP Hkeys].
      split; [exact HP|]. rewrite Hkeys. eapply objAlter_keys; eauto.
    + split; [reflexivity | discriminate].
Qed.

Lemma pushInput_fromRow txns row t : fromRow txns t -> fromRow txns (pushInput row t).
Proof. intros (r & ? & ? & ?). now exists r. Qed.

Lemma pushOutput_fromRow txns row t : fromRow txns t -> fromRow txns (pushOutput row t).
Proof. intros (r & ? & ? & ?). now exists r. Qed.

Lemma transactionMap_fromRow (txns : list TxnRow) :
  Forall (fromRow txns)
    (snd <$> foldl (fun m txn => objSet (t_txnHash (x_row txn)) (walletTransaction txn) m)
                   [] txns).
Proof.
  assert (Hgen : forall l m,
             (forall row, row ∈ l -> row ∈ txns) ->
             Forall (fromRow txns) (snd <$> m) ->
             Forall (fromRow txns)
               (snd <$> foldl (fun m txn =>
                          objSet (t_txnHash (x_row txn)) (walletTransaction txn) m) m l)).
  { induction l as [|row l IH]; intros m Hl Hm; cbn; [assumption|].
    apply IH.
    - intros r Hr. apply Hl. now right.
    - apply objSet_Forall; [|assumption].
      exists row. split; [apply Hl; left | split; reflexivity]. }
  apply Hgen; [auto | constructor].
Qed.

(** The fetch links settle nothing, and the transactions they hand to the
    checks carry the totals of the rows that [getTransactionsByBlock]
    resolved. *)
Lemma assembleTransactions_run {R} block (x : Exec (option Cache) R) :
  settled (fst (assembleTransactions sha256 defaultTTL db now block x)) = settled x
  /\ forall transactions,
      snd (assembleTransactions sha256 defaultTTL db now block x) = Next transactions ->
      exists txns,
        snd (getTransactionsByBlock sha256 defaultTTL db now (s_hash block) (world x))
        = Some (Fulfilled txns)
        /\ Forall (fromRow txns) transactions.
Proof.
  unfold assembleTransactions, bind, await, ret.
  destruct (getTransactionsByBlock sha256 defaultTTL db now (s_hash block) (world x))
    as [w1 [[txns|e]|]]; cbn; try (split; [reflexivity | discriminate]).
  pose proof (transactionMap_fromRow txns) as Hmap.
  set (transactionMap := foldl _ [] txns) in *.
  match goal with |- context [all ?ps ?w] => destruct (all ps w) as [w2 [[results|e]|]] end;
    cbn;
    try (split; [reflexivity | discriminate]).
  destruct (pushRows_run i_txnHash pushInput (fromRow txns) (concat results) transactionMap
              (mkExec (R:=R) (settled x) w2) (pushInput_fromRow txns) Hmap) as [Hx1 Hm1].
  destruct (pushRows i_txnHash pushInput (concat results) transactionMap _)
    as [x1 [m1| |]]; cbn in *; subst x1; try (split; [reflexivity | discriminate]).
  destruct (Hm1 _ eq_refl) as [Hmap1 _].
  match goal with |- context [all ?ps ?w] => destruct (all ps w) as [w3 [[results2|e]|]] end;
    cbn;
    try (split; [reflexivity | discriminate]).
  destruct (pushRows_run o_txnHash pushOutput (fromRow txns) (concat results2) m1
              (mkExec (R:=R) (settled x) w3) (pushOutput_fromRow txns) Hmap1) as [Hx2 Hm2].
  destruct (pushRows o_txnHash pushOutput (concat results2) m1 _)
    as [x2 [m2| |]]; cbn in *; subst x2; try (split; [reflexivity | discriminate]).
  destruct (Hm2 _ eq_refl) as [Hmap2 _].
  split; [reflexivity|]. intros transactions [= <-]. now exists txns.
Qed.

#[local] Opaque assembleTransactions.

(** How [buildWalletDataBlock] settles when the block is not served from
    the cache. *)
Lemma buildWalletDataBlock_outcome block w :
  checkCache sha256 (walletBlocks <$> w) now (s_hash block) = None ->
  snd (buildWalletDataBlock sha256 defaultTTL db now block w) =
  match snd (assembleTransactions sha256 defaultTTL db now block
               (mkExec (R:=WalletBlock) None w)) with
  | Next transactions =>
      if countDiffers (s_txnCount block) (length transactions)
      then Some (Rejected (Err (getError "undefined"
                                  "Unexpected number of transactions in structure")))
      else
        match checkTransactions transactions with
        | (transactions', Passed) =>
            Some (Fulfilled {| wb_blockHash := s_hash block; wb_height := s_height block;
                               wb_timestamp := s_timestamp block;
                               wb_transactions := transactions' |})
        | (_, Failed e) => Some (Rejected e)
        | (_, Raised e) => Some (Rejected e)
        end
  | Thrown e => Some (Rejected e)
  | Hung => None
  end.
Proof.
  intros Hmiss. unfold buildWalletDataBlock. run_chain. rewrite Hmiss. cbn.
  pose proof (assembleTransactions_run block (mkExec (R:=WalletBlock) None w)) as [Hs _].
  destruct (assembleTransactions sha256 defaultTTL db now block _)
    as [x1 [transactions| |]]; cbn in *; rewrite ?Hs; try reflexivity.
  unfold checkWalletBlock. run_chain.
  destruct (countDiffers _ _); cbn.
  - rewrite Hs. now destruct (world x1).
  - destruct (checkTransactions transactions) as [transactions' [|e|e]]; cbn;
      rewrite ?Hs; try reflexivity; now destruct (world x1).
Qed.

Lemma buildWalletDataBlock_fulfilled block w obj :
  checkCache sha256 (walletBlocks <$> w) now (s_hash block) = None ->
  snd (buildWalletDataBlock sha256 defaultTTL db now block w) = Some (Fulfilled obj) ->
  exists txns,
    snd (getTransactionsByBlock sha256 defaultTTL db now (s_hash block) w)
    = Some (Fulfilled txns)
    /\ Forall (fun t => exists row,
                 row ∈ txns /\ wt_hash t = t_txnHash (x_row row)
                 /\ consistent (sumInputs (wt_inputs t)) (sumOutputs (wt_outputs t))
                      (recordedTotals row))
         (wb_transactions obj).
Proof.
  intros Hmiss. rewrite (buildWalletDataBlock_outcome _ _ Hmiss).
  pose proof (assembleTransactions_run block (mkExec (R:=WalletBlock) None w)) as [_ Hnext].
  destruct (snd (assembleTransactions sha256 defaultTTL db now block _))
    as [transactions| |]; try discriminate.
  destruct (Hnext _ eq_refl) as (txns & Htxns & Hrows).
  destruct (countDiffers _ _); [discriminate|].
  destruct (checkTransactions transactions) as [transactions' [|e|e]] eqn:Hcheck;
    try discriminate.
  intros [= <-]. exists txns. split; [exact Htxns|]. cbn.
  apply checkTransactions_passed in Hcheck as [-> Hpassed].
  apply Forall_fmap. rewrite Forall_forall in *. intros t Ht.
  destruct (Hrows t Ht) as (row & Hrow & Hhash & Hmeta).
  destruct (checkTransaction_passed t (Hpassed t Ht)) as (meta & Hmeta' & Hc).
  assert (Heq : meta = recordedTotals row) by congruence. subst meta.
  exists row. cbn. split; [assumption|]. split; assumption.
Qed.

Lemma buildWalletDataBlock_rejects block w transactions :
  checkCache sha256 (walletBlocks <$> w) now (s_hash block) = None ->
  snd (assembleTransactions sha256 defaultTTL db now block
         (mkExec (R:=WalletBlock) None w)) = Next transactions ->
  (exists t meta, t ∈ transactions /\ wt_meta t = Some meta
      /\ ~ consistent (sumInputs (wt_inputs t)) (sumOutputs (wt_outputs t)) meta) ->
  exists e,
    snd (buildWalletDataBlock sha256 defaultTTL db now block w) = Some (Rejected e)
    /\ isDataConsistency e.
Proof.
  intros Hmiss Hassembled (t & meta & Ht & Hmeta & Hbad).
  rewrite (buildWalletDataBlock_outcome _ _ Hmiss).
  pose proof (assembleTransactions_run block (mkExec (R:=WalletBlock) None w)) as [_ Hnext].
  rewrite Hassembled in *.
  destruct (Hnext _ eq_refl) as (txns & _ & Hrows).
  destruct (countDiffers _ _).
  { eexists. split; [reflexivity|]. now eexists _, _. }
  assert (Hmetas : Forall (fun t => is_Some (wt_meta t)) transactions).
  { eapply Forall_impl; [exact Hrows|]. intros t' (row & _ & _ & ->). eauto. }
  destruct (checkTransactions_verdict _ Hmetas) as [Hpassed | (e & He & Hdc)].
  - destruct (checkTransactions transactions) as [transactions' verdict] eqn:Hcheck.
    cbn in Hpassed. subst verdict.
    apply checkTransactions_passed in Hcheck as [_ Hall].
    rewrite Forall_forall in Hall.
    destruct (checkTransaction_passed t (Hall t Ht)) as (meta' & Hmeta' & Hc).
    exfalso. apply Hbad. congruence.
  - destruct (checkTransactions transactions) as [transactions' verdict].
    cbn in He. subst verdict. now exists e.
Qed.

(** *** The legacy shape *)

Lemma pushLegacyInput_fromRow txns row t :
  fromLegacyRow txns t -> fromLegacyRow txns (pushLegacyInput row t).
Proof. intros (r & ? & ? & ? & ?). now exists r. Qed.

Lemma pushLegacyOutput_fromRow txns row t :
  fromLegacyRow txns t -> fromLegacyRow txns (pushLegacyOutput row t).
Proof. intros (r & ? & ? & ? & ?). now exists r. Qed.

Lemma legacyMap_fromRow (txns : list TxnRow) :
  Forall (fromLegacyRow txns) (snd <$> snd (foldl sortTransaction (EmptyObject, []) txns)).
Proof.
  assert (Hgen : forall l acc,
             (forall row, row ∈ l -> row ∈ txns) ->
             Forall (fromLegacyRow txns) (snd <$> snd acc) ->
             Forall (fromLegacyRow txns) (snd <$> snd (foldl sortTransaction acc l))).
  { induction l as [|row l IH]; intros acc Hl Hacc; cbn; [assumption|].
    apply IH.
    - intros r Hr. apply Hl. now right.
    - unfold sortTransaction.
      destruct (Z.eqb_spec (t_totalInputsAmount (x_row row)) 0) as [Hz|Hz]; cbn;
        [assumption|].
      apply objSet_Forall; [|assumption].
      exists row. split; [apply Hl; left|]. now repeat split. }
  apply Hgen; [auto | constructor].
Qed.

Lemma assembleLegacy_run {R} block (x : Exec (option Cache) R) :
  settled (fst (assembleLegacy sha256 defaultTTL db now block x)) = settled x
  /\ forall coinbaseTX transactions,
      snd (assembleLegacy sha256 defaultTTL db now block x)
      = Next (coinbaseTX, transactions) ->
      exists txns,
        snd (getTransactionsByBlock sha256 defaultTTL db now (s_hash block) (world x))
        = Some (Fulfilled txns)
        /\ Forall (fromLegacyRow txns) transactions.
Proof.
  unfold assembleLegacy, bind, await, ret.
  destruct (getTransactionsByBlock sha256 defaultTTL db now (s_hash block) (world x))
    as [w1 [[txns|e]|]]; cbn; try (split; [reflexivity | discriminate]).
  pose proof (legacyMap_fromRow txns) as Hmap.
  destruct (foldl sortTransaction (EmptyObject, []) txns) as [coinbase0 transactionMap].
  cbn in Hmap.
  destruct coinbase0 as [|hash txPublicKey unlockTime outs]; cbn.
  all: match goal with
       | |- context [getTransactionOutputs ?s ?d ?b ?n ?h ?t ?w] =>
           destruct (getTransactionOutputs s d b n h t w) as [w2 [[outputs|e]|]]
       end; cbn; try (split; [reflexivity | discriminate]).
  1: destruct outputs as [|output outputs]; cbn; unfold throw;
     try (split; [reflexivity | discriminate]).
  all: match goal with
       | |- context [all ?ps ?w] => destruct (all ps w) as [w3 [[results|e]|]]
       end; cbn; try (split; [reflexivity | discriminate]).
  all: destruct (pushRows_run i_txnHash pushLegacyInput (fromLegacyRow txns)
                   (concat results) transactionMap
                   (mkExec (R:=R) (settled x) w3)
                   (pushLegacyInput_fromRow txns) Hmap) as [Hx1 Hm1];
       destruct (pushRows i_txnHash pushLegacyInput (concat results) transactionMap _)
         as [x1 [m1| |]]; cbn in *; subst x1; try (split; [reflexivity | discriminate]);
       destruct (Hm1 _ eq_refl) as [Hmap1 _];
       match goal with
       | |- context [all ?ps ?w] => destruct (all ps w) as [w4 [[results2|e]|]]
       end; cbn; try (split; [reflexivity | discriminate]);
       destruct (pushRows_run o_txnHash pushLegacyOutput (fromLegacyRow txns)
                   (concat results2) m1
                   (mkExec (R:=R) (settled x) w4)
                   (pushLegacyOutput_fromRow txns) Hmap1) as [Hx2 Hm2];
       destruct (pushRows o_txnHash pushLegacyOutput (concat results2) m1 _)
         as [x2 [m2| |]]; cbn in *; subst x2; try (split; [reflexivity | discriminate]);
       destruct (Hm2 _ eq_refl) as [Hmap2 _];
       (split; [reflexivity|]); intros coinbaseTX transactions [= <- <-]; now exists txns.
Qed.

(** [obj.coinbaseTX] stays the empty object exactly when no row of the
    block has a [totalInputsAmount] of 0. *)
Lemma sortTransaction_coinbase (txns : list TxnRow) acc :
  fst (foldl sortTransaction acc txns) = EmptyObject
  <-> fst acc = EmptyObject
      /\ Forall (fun row => t_totalInputsAmount (x_row row) <> 0) txns.
Proof.
  revert acc. induction txns as [|row txns IH]; intros acc; cbn.
  - split; [intros Hacc; split; [assumption | constructor] | now intros [Hacc _]].
  - rewrite IH, Forall_cons. unfold sortTransaction.
    destruct (Z.eqb_spec (t_totalInputsAmount (x_row row)) 0) as [Hz|Hz]; cbn.
    + split; [now intros [? _] | now intros (_ & ? & _)].
    + tauto.
Qed.

Lemma assembleLegacy_coinbase {R} block (x : Exec (option Cache) R) coinbaseTX transactions :
  snd (assembleLegacy sha256 defaultTTL db now block x) = Next (coinbaseTX, transactions) ->
  exists txns,
    snd (getTransactionsByBlock sha256 defaultTTL db now (s_hash block) (world x))
    = Some (Fulfilled txns)
    /\ (coinbaseTX = EmptyObject
        <-> Forall (fun row => t_totalInputsAmount (x_row row) <> 0) txns).
Proof.
  unfold assembleLegacy, bind, await, ret.
  destruct (getTransactionsByBlock sha256 defaultTTL db now (s_hash block) (world x))
    as [w1 [[txns|e]|]]; cbn; try discriminate.
  pose proof (sortTransaction_coinbase txns (EmptyObject, [])) as Hcb.
  destruct (foldl sortTransaction (EmptyObject, []) txns) as [coinbase0 transactionMap].
  cbn in Hcb.
  destruct coinbase0 as [|hash txPublicKey unlockTime outs]; cbn.
  all: match goal with
       | |- context [getTransactionOutputs ?s ?d ?b ?n ?h ?t ?w] =>
           destruct (getTransactionOutputs s d b n h t w) as [w2 [[outputs|e]|]]
       end; cbn; try discriminate.
  1: destruct outputs as [|output outputs]; cbn; unfold throw; try discriminate.
  all: match goal with
       | |- context [all ?ps ?w] => destruct (all ps w) as [w3 [[results|e]|]]
       end; cbn; try discriminate.
  all: destruct (pushRows i_txnHash pushLegacyInput (concat results) transactionMap _)
         as [x1 [m1| |]]; cbn; try discriminate;
       match goal with
       | |- context [all ?ps ?w] => destruct (all ps w) as [w4 [[results2|e]|]]
       end; cbn; try discriminate;
       destruct (pushRows o_txnHash pushLegacyOutput (concat results2) m1 _)
         as [x2 [m2| |]]; cbn; try discriminate;
       intros [= <- <-]; exists txns; (split; [reflexivity|]).
  - split; [intros _; now apply Hcb | reflexivity].
  - split; [discriminate|]. intros Hall. now discriminate (proj2 Hcb (conj eq_refl Hall)).
Qed.

#[local] Opaque assembleLegacy.

(** How [buildLegacyWalletDataBlock] settles when the block is not served
    from the cache. *)
Lemma buildLegacyWalletDataBlock_outcome block skip w :
  checkCache sha256 (legacyBlocks <$> w) now ("legacy" +:+ s_hash block) = None ->
  snd (buildLegacyWalletDataBlock sha256 defaultTTL db now block skip w) =
  match snd (assembleLegacy sha256 defaultTTL db now block
               (mkExec (R:=LegacyBlock) None w)) with
  | Next (EmptyObject, _) => Some (Rejected TypeError)
  | Next (Coinbase _ _ _ [], _) =>
      Some (Rejected (Err (getError (s_hash block) "Coinbase Transaction Has No Outputs")))
  | Next (Coinbase hash txPublicKey unlockTime outs, transactions) =>
      if countDiffers (s_txnCount block) (length transactions + 1)
      then Some (Rejected (Err (getError (s_hash block)
                                  "Unexpected number of transactions in structure")))
      else
        match checkLegacyTransactions transactions with
        | (transactions', Passed) =>
            let obj := {| lb_blockHash := s_hash block; lb_blockHeight := s_height block;
                          lb_blockTimestamp := s_timestamp block;
                          lb_coinbaseTX := Some (Coinbase hash txPublicKey unlockTime outs);
                          lb_transactions := transactions' |} in
            Some (Fulfilled (if skip then deleteCoinbaseTX obj else obj))
        | (_, Failed e) => Some (Rejected e)
        | (_, Raised e) => Some (Rejected e)
        end
  | Thrown e => Some (Rejected e)
  | Hung => None
  end.
Proof.
  intros Hmiss. unfold buildLegacyWalletDataBlock. run_chain. rewrite Hmiss. cbn.
  pose proof (assembleLegacy_run block (mkExec (R:=LegacyBlock) None w)) as [Hs _].
  destruct (assembleLegacy sha256 defaultTTL db now block _)
    as [x1 [[coinbaseTX transactions]| |]]; cbn in *; rewrite ?Hs; try reflexivity.
  unfold checkLegacyBlock. run_chain.
  destruct coinbaseTX as [|hash txPublicKey unlockTime [|out outs]]; cbn.
  - now rewrite Hs.
  - rewrite Hs. now destruct (world x1).
  - destruct (countDiffers _ _); cbn.
    + rewrite Hs. now destruct (world x1).
    + destruct (checkLegacyTransactions transactions) as [transactions' [|e|e]]; cbn;
        rewrite ?Hs; try reflexivity; now destruct (world x1).
Qed.

Lemma buildLegacyWalletDataBlock_fulfilled block skip w obj :
  checkCache sha256 (legacyBlocks <$> w) now ("legacy" +:+ s_hash block) = None ->
  snd (buildLegacyWalletDataBlock sha256 defaultTTL db now block skip w)
  = Some (Fulfilled obj) ->
  exists txns,
    snd (getTransactionsByBlock sha256 defaultTTL db now (s_hash block) w)
    = Some (Fulfilled txns)
    /\ Forall (fun t => exists row,
                 row ∈ txns /\ lt_hash t = t_txnHash (x_row row)
                 /\ t_totalInputsAmount (x_row row) <> 0
                 /\ consistent (sumLegacyInputs (lt_inputs t))
                      (sumLegacyOutputs (lt_outputs t)) (recordedTotals row))
         (lb_transactions obj)
    /\ (skip = false ->
        exists hash txPublicKey unlockTime out outs,
          lb_coinbaseTX obj = Some (Coinbase hash txPublicKey unlockTime (out :: outs))).
Proof.
  intros Hmiss. rewrite (buildLegacyWalletDataBlock_outcome _ _ _ Hmiss).
  pose proof (assembleLegacy_run block (mkExec (R:=LegacyBlock) None w)) as [_ Hnext].
  destruct (snd (assembleLegacy sha256 defaultTTL db now block _))
    as [[coinbaseTX transactions]| |]; try discriminate.
  destruct (Hnext _ _ eq_refl) as (txns & Htxns & Hrows).
  destruct coinbaseTX as [|hash txPublicKey unlockTime [|out outs]]; try discriminate.
  destruct (countDiffers _ _); [discriminate|].
  destruct (checkLegacyTransactions transactions) as [transactions' [|e|e]] eqn:Hcheck;
    try discriminate.
  intros [= <-]. exists txns. split; [exact Htxns|].
  apply checkLegacyTransactions_passed in Hcheck as [-> Hpassed].
  split.
  - assert (Hts : forall o : LegacyBlock,
               lb_transactions (if skip then deleteCoinbaseTX o else o) = lb_transactions o)
      by (intros o; now destruct skip).
    rewrite Hts. cbn.
    apply Forall_fmap. rewrite Forall_forall in *. intros t Ht.
    destruct (Hrows t Ht) as (row & Hrow & Hhash & Hnz & Hmeta).
    destruct (checkLegacyTransaction_passed t (Hpassed t Ht))
      as (meta & Hmeta' & Hin & Hout & Hfee).
    assert (Heq : meta = recordedTotals row) by congruence. subst meta.
    exists row. cbn. repeat split; assumption.
  - intros ->. cbn. now eexists _, _, _, _, _.
Qed.

Lemma buildLegacyWalletDataBlock_rejects block skip w coinbaseTX transactions :
  checkCache sha256 (legacyBlocks <$> w) now ("legacy" +:+ s_hash block) = None ->
  snd (assembleLegacy sha256 defaultTTL db now block (mkExec (R:=LegacyBlock) None w))
  = Next (coinbaseTX, transactions) ->
  (exists t meta, t ∈ transactions /\ lt_meta t = Some meta
      /\ ~ (sumLegacyInputs (lt_inputs t) = meta_inputsTotal meta
            /\ sumLegacyOutputs (lt_outputs t) = meta_outputsTotal meta
            /\ sumLegacyInputs (lt_inputs t) - sumLegacyOutputs (lt_outputs t)
               = meta_fee meta)) ->
  exists e,
    snd (buildLegacyWalletDataBlock sha256 defaultTTL db now block skip w)
    = Some (Rejected e)
    /\ ((exists txns row,
           snd (getTransactionsByBlock sha256 defaultTTL db now (s_hash block) w)
           = Some (Fulfilled txns)
           /\ row ∈ txns /\ t_totalInputsAmount (x_row row) = 0) ->
        isDataConsistency e).
Proof.
  intros Hmiss Hassembled (t & meta & Ht & Hmeta & Hbad).
  rewrite (buildLegacyWalletDataBlock_outcome _ _ _ Hmiss).
  pose proof (assembleLegacy_run block (mkExec (R:=LegacyBlock) None w)) as [_ Hnext].
  destruct (assembleLegacy_coinbase block _ _ _ Hassembled) as (txns0 & Htxns0 & Hempty).
  rewrite Hassembled in *.
  destruct (Hnext _ _ eq_refl) as (txns & _ & Hrows).
  destruct coinbaseTX as [|hash txPublicKey unlockTime [|out outs]].
  { eexists. split; [reflexivity|]. intros (txns' & row & Htxns' & Hrow & Hzero).
    exfalso. cbn in Htxns0. rewrite Htxns0 in Htxns'. injection Htxns' as <-.
    pose proof (proj1 Hempty eq_refl) as Hall. rewrite Forall_forall in Hall.
    exact (Hall row Hrow Hzero). }
  { eexists. split; [reflexivity|]. intros _. now eexists _, _. }
  destruct (countDiffers _ _).
  { eexists. split; [reflexivity|]. intros _. now eexists _, _. }
  assert (Hmetas : Forall (fun t => is_Some (lt_meta t)) transactions).
  { eapply Forall_impl; [exact Hrows|]. intros t' (row & _ & _ & _ & ->). eauto. }
  destruct (checkLegacyTransactions_verdict _ Hmetas) as [Hpassed | (e & He & Hdc)].
  - destruct (checkLegacyTransactions transactions) as [transactions' verdict] eqn:Hcheck.
    cbn in Hpassed. subst verdict.
    apply checkLegacyTransactions_passed in Hcheck as [_ Hall].
    rewrite Forall_forall in Hall.
    destruct (checkLegacyTransaction_passed t (Hall t Ht)) as (meta' & Hmeta' & Hc).
    exfalso. apply Hbad. assert (meta' = meta) by congruence. now subst.
  - destruct (checkLegacyTransactions transactions) as [transactions' verdict].
    cbn in He. subst verdict. now exists e.
Qed.

(** A block without a row whose [totalInputsAmount] is 0 leaves
    [obj.coinbaseTX] as the empty object, and the first check, which reads
    [obj.coinbaseTX.outputs.length], raises a [TypeError] whatever the other
    transactions hold. *)
Lemma buildLegacyWalletDataBlock_without_coinbase block skip w transactions :
  checkCache sha256 (legacyBlocks <$> w) now ("legacy" +:+ s_hash block) = None ->
  snd (assembleLegacy sha256 defaultTTL db now block (mkExec (R:=LegacyBlock) None w))
  = Next (EmptyObject, transactions) ->
  snd (buildLegacyWalletDataBlock sha256 defaultTTL db now block skip w)
  = Some (Rejected TypeError).
Proof.
  intros Hmiss Hassembled.
  rewrite (buildLegacyWalletDataBlock_outcome _ _ _ Hmiss). now rewrite Hassembled.
Qed.

End AssemblerFacts.

(** C1 (as amended): when a block is assembled from the store (it is not
    served from its own cache entry) and the assembly resolves, every
    transaction listed in the block agrees with the totals of its row among
    the rows that [getTransactionsByBlock] resolved: the outputs sum to
    [totalOutputsAmount] and, unless [totalInputsAmount] is 0, the inputs
    sum to [totalInputsAmount] and inputs minus outputs equal [fee]; in the
    legacy shape the listed transactions are the rows with a
    [totalInputsAmount] other than 0 and the coinbase transaction, kept
    apart, is only required to have an output.  When the rows grouped for
    the checks hold a transaction that breaks one of these equalities, the
    call rejects and resolves no block; the error is a DataConsistency
    error, in the legacy shape provided that the block has a coinbase row
    (a row whose [totalInputsAmount] is 0).  A transaction whose
    recorded [totalInputsAmount] is 0 passes the loop whatever its inputs
    sum to. *)
Theorem assembled_block_is_consistent :
  forall (sha256 : string -> string) (defaultTTL : Z) (db : Database) (now : Z)
         (w : option Cache) (block : BlockSummary),
    (checkCache sha256 (walletBlocks <$> w) now (s_hash block) = None ->
       (forall obj,
          snd (buildWalletDataBlock sha256 defaultTTL db now block w) = Some (Fulfilled obj) ->
          exists txns,
            snd (getTransactionsByBlock sha256 defaultTTL db now (s_hash block) w)
            = Some (Fulfilled txns)
            /\ Forall (fun t => exists row,
                         row ∈ txns /\ wt_hash t = t_txnHash (x_row row)
                         /\ consistent (sumInputs (wt_inputs t)) (sumOutputs (wt_outputs t))
                              (recordedTotals row))
                 (wb_transactions obj))
       /\ (forall transactions,
          snd (assembleTransactions sha256 defaultTTL db now block
                 (mkExec (R:=WalletBlock) None w)) = Next transactions ->
          (exists t meta, t ∈ transactions /\ wt_meta t = Some meta
              /\ ~ consistent (sumInputs (wt_inputs t)) (sumOutputs (wt_outputs t)) meta) ->
          exists e,
            snd (buildWalletDataBlock sha256 defaultTTL db now block w) = Some (Rejected e)
            /\ isDataConsistency e))
    /\ (forall skip,
       checkCache sha256 (legacyBlocks <$> w) now ("legacy" +:+ s_hash block) = None ->
       (forall obj,
          snd (buildLegacyWalletDataBlock sha256 defaultTTL db now block skip w)
          = Some (Fulfilled obj) ->
          exists txns,
            snd (getTransactionsByBlock sha256 defaultTTL db now (s_hash block) w)
            = Some (Fulfilled txns)
            /\ Forall (fun t => exists row,
                         row ∈ txns /\ lt_hash t = t_txnHash (x_row row)
                         /\ t_totalInputsAmount (x_row row) <> 0
                         /\ consistent (sumLegacyInputs (lt_inputs t))
                              (sumLegacyOutputs (lt_outputs t)) (recordedTotals row))
                 (lb_transactions obj)
            /\ (skip = false ->
                exists hash txPublicKey unlockTime out outs,
                  lb_coinbaseTX obj
                  = Some (Coinbase hash txPublicKey unlockTime (out :: outs))))
       /\ (forall coinbaseTX transactions,
          snd (assembleLegacy sha256 defaultTTL db now block
                 (mkExec (R:=LegacyBlock) None w)) = Next (coinbaseTX, transactions) ->
          (exists t meta, t ∈ transactions /\ lt_meta t = Some meta
              /\ ~ (sumLegacyInputs (lt_inputs t) = meta_inputsTotal meta
                    /\ sumLegacyOutputs (lt_outputs t) = meta_outputsTotal meta
                    /\ sumLegacyInputs (lt_inputs t) - sumLegacyOutputs (lt_outputs t)
                       = meta_fee meta)) ->
          exists e,
            snd (buildLegacyWalletDataBlock sha256 defaultTTL db now block skip w)
            = Some (Rejected e)
            /\ ((exists txns row,
                   snd (getTransactionsByBlock sha256 defaultTTL db now (s_hash block) w)
                   = Some (Fulfilled txns)
                   /\ row ∈ txns /\ t_totalInputsAmount (x_row row) = 0) ->
                isDataConsistency e)))
    /\ (forall t meta,
       wt_meta t = Some meta -> meta_inputsTotal meta = 0 ->
       wt_outputs t <> [] ->
       sumOutputs (wt_outputs t) = meta_outputsTotal meta ->
       checkTransaction t = Passed).
Proof.
  intros sha256 defaultTTL db now w block. split; [|split].
  - intros Hmiss. split.
    + intros obj. now apply buildWalletDataBlock_fulfilled.
    + intros transactions. now apply buildWalletDataBlock_rejects.
  - intros skip Hmiss. split.
    + intros obj. now apply buildLegacyWalletDataBlock_fulfilled.
    + intros coinbaseTX transactions. now apply buildLegacyWalletDataBlock_rejects.
  - intros t meta Hmeta Hzero Hout Hsum. unfold checkTransaction.
    rewrite Hmeta, Hzero, Hsum. cbn.
    destruct (wt_outputs t); [congruence|]. cbn.
    rewrite Bool.andb_false_r, Z.eqb_refl. reflexivity.
Qed.

Lemma assembled_block_is_consistent_witness :
  exists obj txns,
    snd (buildWalletDataBlock (fun s => s) 30 soundBlock 0
           (blockSummary soundBlock (sampleBlock "b0" 0 1000)) None) = Some (Fulfilled obj)
    /\ snd (getTransactionsByBlock (fun s => s) 30 soundBlock 0 "b0" None)
       = Some (Fulfilled txns)
    /\ Forall (fun t => exists row,
                 row ∈ txns /\ wt_hash t = t_txnHash (x_row row)
                 /\ consistent (sumInputs (wt_inputs t)) (sumOutputs (wt_outputs t))
                      (recordedTotals row))
         (wb_transactions obj).
Proof.
  destruct (assembled_block_is_consistent (fun s => s) 30 soundBlock 0 None
              (blockSummary soundBlock (sampleBlock "b0" 0 1000))) as (Hcurrent & _).
  destruct (Hcurrent eq_refl) as (Hfulfilled & _).
  eexists. 
  destruct (Hfulfilled _ ltac:(vm_compute; reflexivity)) as (txns & Htxns & Hall).
  exists txns. split; [vm_compute; reflexivity|]. split; [exact Htxns | exact Hall].
Defined.

(** The claim of C1 fails in the legacy shape: the assembly of a block whose
    coinbase row records 5 while its only output holds 3 resolves, with no
    cache involved. *)
Lemma legacy_coinbase_outputs_unchecked :
  exists obj outs row,
    snd (buildLegacyWalletDataBlock (fun s => s) 30 coinbaseMismatch 0
           (blockSummary coinbaseMismatch (sampleBlock "b0" 0 1000)) false None)
    = Some (Fulfilled obj)
    /\ lb_coinbaseTX obj = Some (Coinbase "cb" "pk" "0" outs)
    /\ row ∈ transactions coinbaseMismatch
    /\ t_txnHash row = "cb"
    /\ sumLegacyOutputs outs = 3
    /\ t_totalOutputsAmount row = 5.
Proof.
  eexists. eexists. exists (sampleTransaction "cb" "b0" 0 0 5).
  split; [vm_compute; reflexivity|].
  split; [reflexivity|]. split; [left|]. repeat split.
Qed.

(** A block that fails the checks is still written to the cache by the link
    that follows them: the first call rejects, and the call one second later
    resolves with the block in which the transfer spends 10, pays 9 and
    records a fee of 2. *)
Lemma rejected_block_is_served_from_cache :
  let block := blockSummary feeMismatch (sampleBlock "b0" 0 1000) in
  let first := buildWalletDataBlock (fun s => s) 30 feeMismatch 0 block (Some emptyCache) in
  let second := buildWalletDataBlock (fun s => s) 30 feeMismatch 1 block (fst first) in
  snd first = Some (Rejected (Err (getError "t1" "Transaction fee does not match")))
  /\ exists obj t,
      snd second = Some (Fulfilled obj)
      /\ t ∈ wb_transactions obj
      /\ wt_hash t = "t1"
      /\ wt_meta t = Some {| meta_inputsTotal := 10; meta_outputsTotal := 9; meta_fee := 2 |}
      /\ sumInputs (wt_inputs t) - sumOutputs (wt_outputs t) = 1.
Proof.
  cbv zeta. split; [vm_compute; reflexivity|].
  eexists. eexists. split; [vm_compute; reflexivity|].
  split; [right; left|]. repeat split.
Qed.

(** In the legacy shape a block without a coinbase row is not refused with
    a DataConsistency error: the block of [poolAndBlock] holds one transfer
    only, and the call rejects with the [TypeError] of
    [obj.coinbaseTX.outputs.length]. *)
Lemma legacy_block_without_coinbase_row :
  snd (buildLegacyWalletDataBlock (fun s => s) 30 poolAndBlock 0
         (blockSummary poolAndBlock (sampleBlock "b0" 0 1000)) false None)
  = Some (Rejected TypeError)
  /\ ~ isDataConsistency TypeError.
Proof.
  split; [vm_compute; reflexivity|]. intros (hash & message & Heq). discriminate.
Qed.

(** ** The block count of the wallet-sync operations *)

Section CountFacts.




Lemma jsInsert_length {X} (cmp : X -> X -> Z) x (l : list X) :
  length (jsInsert cmp x l) = S (length l).
Proof.
  induction l as [|y l IH]; cbn; [reflexivity|].
  destruct (0 <? cmp x y); cbn; [now rewrite IH | reflexivity].
Qed.

Lemma jsSort_length {X} (cmp : X -> X -> Z) (l : list X) :
  length (jsSort cmp l) = length l.
Proof.
  induction l as [|x l IH]; cbn; [reflexivity|].
  rewrite jsInsert_length. now f_equal.
Qed.




End CountFacts.

Section SyncFacts.

Variable sha256 : string -> string.
Variable defaultTTL : Z.
Variable db : Database.
Variable now : Z.








End SyncFacts.




(** ** The random output sampler *)

(** An index that is not among the indices of a list given in full. *)
Ltac fresh_index :=
  let H := fresh "H" in
  intros H; repeat (apply elem_of_cons in H as [H|H]; [discriminate H|]); inversion H.

Section SamplerFacts.

Lemma Random_range (max e : Z) : 0 <= max -> 0 <= Random 0 max e <= max.
Proof.
  intros Hmax. unfold Random.
  pose proof (Z.mod_pos_bound e (max - 0 + 1)). lia.
Qed.

Lemma Random_small (max e : Z) : 0 <= e <= max -> Random 0 max e = e.
Proof. intros He. unfold Random. rewrite Z.mod_small; lia. Qed.

(** The loop only ends with as many indices as it was asked for, all
    different and all between 0 and the maximum. *)
Lemma drawUnique_drawn (max : Z) (dedupedMixin : option Z) (entropy : list Z) :
  0 <= max ->
  forall rnds drawn rest,
    NoDup rnds -> (forall x, x ∈ rnds -> 0 <= x <= max) ->
    drawUnique max dedupedMixin rnds entropy = (Some drawn, rest) ->
    NoDup drawn /\ (forall x, x ∈ drawn -> 0 <= x <= max)
    /\ Some (Z.of_nat (length drawn)) = dedupedMixin.
Proof.
  intros Hmax. induction entropy as [|e entropy IH]; intros rnds drawn rest Hnd Hin; cbn.
  - destruct (decide _) as [Heq|Hne]; [|discriminate]. now intros [= <- <-].
  - destruct (decide (Some (Z.of_nat (length rnds)) = dedupedMixin)) as [Heq|Hne];
      [now intros [= <- <-]|].
    apply IH.
    + destruct (decide (Random 0 max e ∈ rnds)); [assumption|].
      apply NoDup_app. split; [assumption|]. split; [|apply NoDup_singleton].
      intros x Hx Hx'. apply list_elem_of_singleton in Hx'. now subst.
    + intros x Hx. destruct (decide (Random 0 max e ∈ rnds)); [now apply Hin|].
      apply elem_of_app in Hx as [Hx|Hx]; [now apply Hin|].
      apply list_elem_of_singleton in Hx. subst. now apply Random_range.
Qed.

(** The loop ends with as many values as it was asked for. *)
Lemma drawUnique_length (max : Z) (dedupedMixin : option Z) (entropy : list Z) :
  forall rnds drawn rest,
    drawUnique max dedupedMixin rnds entropy = (Some drawn, rest) ->
    Some (Z.of_nat (length drawn)) = dedupedMixin.
Proof.
  induction entropy as [|e entropy IH]; intros rnds drawn rest; cbn -[Random].
  - destruct (decide _) as [Heq|Hne]; [|discriminate]. now intros [= <- <-].
  - destruct (decide (Some (Z.of_nat (length rnds)) = dedupedMixin)) as [Heq|Hne];
      [now intros [= <- <-]|].
    apply IH.
Qed.

(** Indices that are all different and lie between 0 and [max] are at most
    [max + 1]. *)
Lemma distinct_indices_bound (max : Z) (l : list Z) :
  0 <= max -> NoDup l -> (forall x, x ∈ l -> 0 <= x <= max) ->
  Z.of_nat (length l) <= max + 1.
Proof.
  intros Hmax Hnd Hin.
  assert (Hsub : l ⊆+ seqZ 0 (max + 1)).
  { apply NoDup_submseteq; [assumption|]. intros x Hx. apply elem_of_seqZ.
    specialize (Hin x Hx). lia. }
  apply submseteq_length in Hsub. rewrite length_seqZ in Hsub. lia.
Qed.

(** When more indices are asked for than the range holds, the loop does
    not end, however long the random source runs. *)
Lemma drawUnique_starves (max k : Z) (entropy : list Z) :
  0 <= max -> max + 1 < k ->
  fst (drawUnique max (Some k) [] entropy) = None.
Proof.
  intros Hmax Hk.
  destruct (drawUnique max (Some k) [] entropy) as [[drawn|] rest] eqn:Hdraw;
    [|reflexivity].
  apply drawUnique_drawn in Hdraw as (Hnd & Hin & Hlen);
    [|assumption|apply NoDup_nil_2|intros x Hx; inversion Hx].
  pose proof (distinct_indices_bound max drawn Hmax Hnd Hin).
  injection Hlen as Hlen. lia.
Qed.

Lemma drawUnique_done (max k : Z) (rnds entropy : list Z) :
  Z.of_nat (length rnds) = k ->
  drawUnique max (Some k) rnds entropy = (Some rnds, entropy).
Proof.
  intros Hlen. destruct entropy; cbn;
    (destruct (decide (Some (Z.of_nat (length rnds)) = Some k)); [reflexivity | congruence]).
Qed.

Lemma drawUnique_fresh (max k e : Z) (rnds entropy : list Z) :
  0 <= e <= max -> e ∉ rnds -> Z.of_nat (length rnds) <> k ->
  drawUnique max (Some k) rnds (e :: entropy)
  = drawUnique max (Some k) (rnds ++ [e]) entropy.
Proof.
  intros He Hfresh Hlen. cbn -[Random].
  destruct (decide (Some (Z.of_nat (length rnds)) = Some k)); [congruence|].
  rewrite (Random_small max e He).
  destruct (decide (e ∈ rnds)); [contradiction | reflexivity].
Qed.

(** What the loop has drawn comes from what it held and from the values of
    the random source. *)
Lemma drawUnique_source (max : Z) (dedupedMixin : option Z) (entropy : list Z) :
  forall rnds drawn rest,
    drawUnique max dedupedMixin rnds entropy = (Some drawn, rest) ->
    forall x, x ∈ drawn -> x ∈ rnds \/ x ∈ Random 0 max <$> entropy.
Proof.
  induction entropy as [|e entropy IH]; intros rnds drawn rest; cbn -[Random].
  - destruct (decide _); [|discriminate]. intros [= <- <-]. now left.
  - destruct (decide (Some (Z.of_nat (length rnds)) = dedupedMixin));
      [intros [= <- <-]; now left|].
    intros Hdraw x Hx. destruct (IH _ _ _ Hdraw x Hx) as [Hin|Hin].
    + destruct (decide (Random 0 max e ∈ rnds)); [now left|].
      apply elem_of_app in Hin as [Hin|Hin]; [now left|].
      apply list_elem_of_singleton in Hin. subst. right. left.
    + right. now right.
Qed.

(** The loop retries until it holds as many different values as it was
    asked for: it ends as soon as the values it held and those of the random
    source hold that many. *)
Lemma drawUnique_completes (max k : Z) (entropy : list Z) :
  forall rnds l,
    NoDup rnds -> Z.of_nat (length rnds) <= k ->
    NoDup l -> Z.of_nat (length l) = k ->
    (forall x, x ∈ l -> x ∈ rnds \/ x ∈ Random 0 max <$> entropy) ->
    exists drawn rest, drawUnique max (Some k) rnds entropy = (Some drawn, rest).
Proof.
  induction entropy as [|e entropy IH]; intros rnds l Hnd Hlen Hl Hk Hsub.
  - assert (Hle : (length l <= length rnds)%nat).
    { apply submseteq_length, NoDup_submseteq; [assumption|].
      intros x Hx. destruct (Hsub x Hx) as [Hin|Hin]; [assumption | inversion Hin]. }
    exists rnds, []. apply drawUnique_done. lia.
  - destruct (decide (Z.of_nat (length rnds) = k)) as [Heq|Hne].
    { exists rnds, (e :: entropy). now apply drawUnique_done. }
    cbn -[Random].
    destruct (decide (Some (Z.of_nat (length rnds)) = Some k)); [congruence|].
    apply (IH _ l); try assumption.
    + destruct (decide (Random 0 max e ∈ rnds)); [assumption|].
      apply NoDup_app. split; [assumption|]. split; [|apply NoDup_singleton].
      intros x Hx Hx'. apply list_elem_of_singleton in Hx'. now subst.
    + destruct (decide (Random 0 max e ∈ rnds)); [lia|].
      rewrite length_app. cbn. lia.
    + intros x Hx. destruct (Hsub x Hx) as [Hin|Hin].
      * left. destruct (decide (Random 0 max e ∈ rnds)); [assumption|].
        apply elem_of_app. now left.
      * apply elem_of_cons in Hin as [-> | Hin]; [|now right].
        left. destruct (decide (Random 0 max e ∈ rnds)); [assumption|].
        apply elem_of_app. right. left.
Qed.

Lemma sampleRows_refused mixin mixinCounts results entropy e :
  sampleRows mixin mixinCounts results entropy = Refused e ->
  e = InsufficientMixins
  /\ exists result, result ∈ results /\ m_globalIndex result < mixin.
Proof.
  revert entropy. induction results as [|result rest IH]; intros entropy; cbn;
    [discriminate|].
  destruct (Z.ltb_spec (m_globalIndex result) mixin) as [Hlt|Hge].
  - intros [= <-]. split; [reflexivity|]. exists result. split; [left | assumption].
  - destruct (drawUnique _ _ _ _) as [[rnds|] entropy']; [|discriminate].
    destruct (sampleRows mixin mixinCounts rest entropy') as [vs|e'|] eqn:Hrest;
      try discriminate.
    intros [= <-]. destruct (IH _ Hrest) as (He & r & Hr & Hlt).
    split; [assumption|]. exists r. split; [now right | assumption].
Qed.

Lemma jsInsert_Permutation {X} (cmp : X -> X -> Z) x (l : list X) :
  jsInsert cmp x l ≡ₚ x :: l.
Proof.
  induction l as [|y l IH]; cbn; [reflexivity|].
  destruct (0 <? cmp x y); [|reflexivity].
  rewrite IH. apply Permutation_swap.
Qed.

Lemma jsSort_Permutation {X} (cmp : X -> X -> Z) (l : list X) : jsSort cmp l ≡ₚ l.
Proof.
  induction l as [|x l IH]; cbn; [reflexivity|].
  rewrite jsInsert_Permutation. now f_equiv.
Qed.

Lemma dedupe_subset (mixin : Z) (amounts : list Z) :
  forall x, x ∈ fst (dedupe mixin amounts) -> x ∈ amounts.
Proof.
  unfold dedupe.
  assert (Hgen : forall l acc x,
             x ∈ fst (foldl (fun (acc : list Z * gmap Z Z) amount =>
                 if decide (amount ∈ fst acc)
                 then (fst acc, alter (fun count => count + mixin) amount (snd acc))
                 else (fst acc ++ [amount], <[amount := mixin]> (snd acc))) acc l) ->
             x ∈ fst acc \/ x ∈ l).
  { induction l as [|a l IH]; intros acc x; cbn; [now left|].
    intros Hx. apply IH in Hx as [Hx|Hx]; [|right; now right].
    destruct (decide (a ∈ fst acc)); cbn in Hx; [now left|].
    apply elem_of_app in Hx as [Hx|Hx]; [now left|].
    apply list_elem_of_singleton in Hx. subst. right. left. }
  intros x Hx. apply Hgen in Hx as [Hx|Hx]; [inversion Hx | assumption].
Qed.

Lemma getRandomOutputsForAmounts_refused db amounts mixin entropy :
  getRandomOutputsForAmounts db amounts mixin entropy = Refused InsufficientMixins ->
  exists result,
    result ∈ transaction_outputs_index_maximums db
    /\ m_amount result ∈ amounts
    /\ m_globalIndex result < default 0 mixin + 1.
Proof.
  unfold getRandomOutputsForAmounts.
  pose proof (dedupe_subset (default 0 mixin + 1) amounts) as Hsub.
  destruct (dedupe (default 0 mixin + 1) amounts) as [dedupedAmounts mixinCounts].
  cbn in Hsub.
  destruct dedupedAmounts as [|a deduped]; [discriminate|].
  destruct (negb _); [discriminate|].
  destruct (sampleRows _ _ _ entropy) as [randomValues|e|] eqn:Hrows; try discriminate.
  - destruct randomValues; [discriminate|]. destruct (groupRows _ _ _ _); discriminate.
  - intros [= ->]. apply sampleRows_refused in Hrows as (_ & result & Hin & Hlt).
    apply list_elem_of_filter in Hin as [Hamount Hin].
    exists result. split; [assumption|]. split; [now apply Hsub | assumption].
Qed.

(** The loop over the maxima refuses when it reaches a row below the count:
    the rows before it were not refused and their drawing loops ended. *)
Lemma sampleRows_reaches mixin mixinCounts results entropy :
  sampleRows mixin mixinCounts results entropy = Refused InsufficientMixins
  <-> exists pre result post randomValues,
        results = pre ++ result :: post
        /\ m_globalIndex result < mixin
        /\ sampleRows mixin mixinCounts pre entropy = Drawn randomValues.
Proof.
  revert entropy. induction results as [|r rest IH]; intros entropy.
  - split; [discriminate|]. intros (pre & result & post & vs & Hsplit & _).
    now destruct pre.
  - cbn. destruct (Z.ltb_spec (m_globalIndex r) mixin) as [Hlt|Hge].
    + split; [|reflexivity]. intros _. now exists [], r, rest, [].
    + destruct (drawUnique (m_globalIndex r) (mixinCounts !! m_amount r) [] entropy)
        as [[rnds|] entropy'] eqn:Hdraw.
      * split.
        -- destruct (sampleRows mixin mixinCounts rest entropy') as [vs|e|] eqn:Hrest;
             try discriminate.
           intros [= ->]. apply IH in Hrest as (pre & result & post & vs & -> & Hlt & Hpre).
           exists (r :: pre), result, post. eexists. split; [reflexivity|].
           split; [assumption|]. cbn.
           destruct (Z.ltb_spec (m_globalIndex r) mixin); [lia|].
           rewrite Hdraw, Hpre. reflexivity.
        -- intros (pre & result & post & vs & Hsplit & Hlt & Hpre).
           destruct pre as [|r' pre]; cbn in Hsplit; injection Hsplit as <- ->; [lia|].
           cbn in Hpre. destruct (Z.ltb_spec (m_globalIndex r) mixin); [discriminate|].
           rewrite Hdraw in Hpre.
           destruct (sampleRows mixin mixinCounts pre entropy') as [vs'|e|] eqn:Hpre';
             try discriminate.
           assert (Hrest : sampleRows mixin mixinCounts (pre ++ result :: post) entropy'
                           = Refused InsufficientMixins)
             by (apply IH; now exists pre, result, post, vs').
           now rewrite Hrest.
      * split; [discriminate|].
        intros (pre & result & post & vs & Hsplit & Hlt & Hpre).
        destruct pre as [|r' pre]; cbn in Hsplit; injection Hsplit as <- ->; [lia|].
        cbn in Hpre. destruct (Z.ltb_spec (m_globalIndex r) mixin); [discriminate|].
        rewrite Hdraw in Hpre. discriminate.
Qed.

(** With a row below the count the loop over the maxima gives no values:
    it refuses, or a drawing loop before that row has not ended. *)
Lemma sampleRows_below mixin mixinCounts results entropy result :
  result ∈ results -> m_globalIndex result < mixin ->
  sampleRows mixin mixinCounts results entropy = Refused InsufficientMixins
  \/ sampleRows mixin mixinCounts results entropy = Starved.
Proof.
  revert entropy. induction results as [|r rest IH]; intros entropy Hin Hlt;
    [inversion Hin|]. cbn.
  destruct (Z.ltb_spec (m_globalIndex r) mixin) as [|Hge]; [now left|].
  apply elem_of_cons in Hin as [-> | Hin]; [lia|].
  destruct (drawUnique _ _ _ _) as [[rnds|] entropy']; [|now right].
  destruct (IH entropy' Hin Hlt) as [-> | ->]; [now left | now right].
Qed.

Lemma dedupe_nil (mixin : Z) (amounts : list Z) :
  fst (dedupe mixin amounts) = [] <-> amounts = [].
Proof.
  unfold dedupe.
  assert (Hgen : forall l (acc : list Z * gmap Z Z),
             fst acc <> [] ->
             fst (foldl (fun (acc : list Z * gmap Z Z) amount =>
                 if decide (amount ∈ fst acc)
                 then (fst acc, alter (fun count => count + mixin) amount (snd acc))
                 else (fst acc ++ [amount], <[amount := mixin]> (snd acc))) acc l) <> []).
  { induction l as [|a l IH]; intros acc Hacc; cbn; [assumption|].
    apply IH. destruct (decide (a ∈ fst acc)); cbn; [assumption|].
    now destruct (fst acc). }
  destruct amounts as [|a amounts]; [easy|]. split; [|intros [=]].
  intros Hnil. exfalso. revert Hnil. cbn. apply Hgen.
  destruct (decide (a ∈ [])) as [Hin|_]; [inversion Hin|]. cbn. discriminate.
Qed.

Lemma getRandomOutputsForAmounts_insufficient db amounts mixin entropy :
  let mixin' := default 0 mixin + 1 in
  let results :=
    filter (fun r => m_amount r ∈ fst (dedupe mixin' amounts))
           (transaction_outputs_index_maximums db) in
  amounts <> [] -> length results = length (fst (dedupe mixin' amounts)) ->
  forall outcome,
    sampleRows mixin' (snd (dedupe mixin' amounts)) results entropy = outcome ->
    (outcome = Refused InsufficientMixins
     -> getRandomOutputsForAmounts db amounts mixin entropy = Refused InsufficientMixins)
    /\ (outcome = Starved -> getRandomOutputsForAmounts db amounts mixin entropy = Starved).
Proof.
  intros mixin' results Hne Hlen outcome Hrows. unfold getRandomOutputsForAmounts.
  fold mixin'. subst results.
  pose proof (dedupe_nil mixin' amounts) as Hnil.
  destruct (dedupe mixin' amounts) as [dedupedAmounts mixinCounts]. cbn [fst snd] in *.
  destruct dedupedAmounts as [|a deduped]; [now destruct (Hne (proj1 Hnil eq_refl))|].
  rewrite Hlen, Nat.eqb_refl. cbn [negb]. rewrite Hrows.
  split; intros ->; reflexivity.
Qed.

Lemma getRandomOutputsForAmounts_refused_iff db amounts mixin entropy :
  let mixin' := default 0 mixin + 1 in
  let results :=
    filter (fun r => m_amount r ∈ fst (dedupe mixin' amounts))
           (transaction_outputs_index_maximums db) in
  getRandomOutputsForAmounts db amounts mixin entropy = Refused InsufficientMixins
  <-> amounts <> [] /\ length results = length (fst (dedupe mixin' amounts))
      /\ sampleRows mixin' (snd (dedupe mixin' amounts)) results entropy
         = Refused InsufficientMixins.
Proof.
  intros mixin' results. split.
  - unfold getRandomOutputsForAmounts. fold mixin'. subst results.
    pose proof (dedupe_nil mixin' amounts) as Hnil.
    destruct (dedupe mixin' amounts) as [dedupedAmounts mixinCounts]. cbn [fst snd] in *.
    destruct dedupedAmounts as [|a deduped]; [discriminate|].
    match goal with
    | |- context [(?a =? ?b)%nat] => destruct (Nat.eqb_spec a b) as [Hlen|Hlen]
    end; [|discriminate]. cbn [negb].
    destruct (sampleRows _ _ _ entropy) as [randomValues|e|] eqn:Hrows; try discriminate.
    + destruct randomValues; [discriminate|]. destruct (groupRows _ _ _ _); discriminate.
    + intros [= ->]. split; [|split; [assumption | reflexivity]].
      intros ->. discriminate (proj2 Hnil eq_refl).
  - intros (Hne & Hlen & Hrows).
    now apply (getRandomOutputsForAmounts_insufficient db amounts mixin entropy Hne Hlen
                 _ Hrows).
Qed.

End SamplerFacts.

(** C6 (as amended): the sampler adds 1 to the requested mixin count before
    it looks at the maxima, and it takes the maxima one row after the other.
    The step for an amount refuses with InsufficientMixins exactly when the
    greatest known global index of that amount is less than the requested
    count plus 1; the operation refuses with InsufficientMixins only if that
    holds for one of the requested amounts, and never when every maximum is
    at least the requested count plus 1.  The operation refuses with
    InsufficientMixins exactly when it reaches such a row: the request is
    not empty, the store returned as many maxima as there are different
    amounts, and the drawing loops of the rows before that row have ended.
    With such a row among the maxima the operation never completes: it
    refuses with InsufficientMixins, or a drawing loop of an earlier row
    has not ended. *)
Theorem insufficient_mixins_threshold :
  forall (db : Database) (amounts : list Z) (mixin : option Z) (entropy : list Z),
    let requested := default 0 mixin + 1 in
    let dedupedAmounts := fst (dedupe requested amounts) in
    let counts := snd (dedupe requested amounts) in
    let results :=
      filter (fun r => m_amount r ∈ dedupedAmounts)
             (transaction_outputs_index_maximums db) in
    (forall mixinCounts result rest,
        m_globalIndex result < default 0 mixin + 1 ->
        sampleRows (default 0 mixin + 1) mixinCounts (result :: rest) entropy
        = Refused InsufficientMixins)
    /\ (forall mixinCounts result,
        default 0 mixin + 1 <= m_globalIndex result ->
        sampleRows (default 0 mixin + 1) mixinCounts [result] entropy
        <> Refused InsufficientMixins)
    /\ (getRandomOutputsForAmounts db amounts mixin entropy = Refused InsufficientMixins ->
        exists result,
          result ∈ transaction_outputs_index_maximums db
          /\ m_amount result ∈ amounts
          /\ m_globalIndex result < default 0 mixin + 1)
    /\ ((forall result,
           result ∈ transaction_outputs_index_maximums db ->
           m_amount result ∈ amounts ->
           default 0 mixin + 1 <= m_globalIndex result) ->
        getRandomOutputsForAmounts db amounts mixin entropy <> Refused InsufficientMixins)
    /\ (getRandomOutputsForAmounts db amounts mixin entropy = Refused InsufficientMixins
        <-> amounts <> [] /\ length results = length dedupedAmounts
            /\ exists pre result post randomValues,
                 results = pre ++ result :: post
                 /\ m_globalIndex result < requested
                 /\ sampleRows requested counts pre entropy = Drawn randomValues)
    /\ (amounts <> [] -> length results = length dedupedAmounts ->
        forall result,
          result ∈ results -> m_globalIndex result < requested ->
          getRandomOutputsForAmounts db amounts mixin entropy = Refused InsufficientMixins
          \/ getRandomOutputsForAmounts db amounts mixin entropy = Starved).
Proof.
  intros db amounts mixin entropy requested dedupedAmounts counts results.
  split; [|split; [|split; [|split; [|split]]]].
  - intros mixinCounts result rest Hlt. cbn.
    destruct (Z.ltb_spec (m_globalIndex result) (default 0 mixin + 1)); [reflexivity | lia].
  - intros mixinCounts result Hge. cbn.
    destruct (Z.ltb_spec (m_globalIndex result) (default 0 mixin + 1)); [lia|].
    destruct (drawUnique _ _ _ _) as [[rnds|] entropy']; discriminate.
  - apply getRandomOutputsForAmounts_refused.
  - intros Hall Hrefused.
    apply getRandomOutputsForAmounts_refused in Hrefused as (result & Hin & Hamount & Hlt).
    specialize (Hall result Hin Hamount). lia.
  - rewrite getRandomOutputsForAmounts_refused_iff.
    fold requested dedupedAmounts. fold results. fold counts.
    rewrite sampleRows_reaches. reflexivity.
  - intros Hne Hlen result Hin Hlt.
    destruct (getRandomOutputsForAmounts_insufficient db amounts mixin entropy Hne Hlen
                _ eq_refl) as [Hrefused Hstarved].
    destruct (sampleRows_below requested counts results entropy result Hin Hlt)
      as [Hrows|Hrows]; [left; now apply Hrefused | right; now apply Hstarved].
Qed.

Lemma insufficient_mixins_threshold_witness :
  getRandomOutputsForAmounts (outputsOfSeven 6) [7] (Some 2) [0; 1; 2]
  <> Refused InsufficientMixins
  /\ getRandomOutputsForAmounts sevenAndNine [7; 9] (Some 2) [4; 4; 0; 2]
     = Refused InsufficientMixins.
Proof.
  split.
  - destruct (insufficient_mixins_threshold (outputsOfSeven 6) [7] (Some 2) [0; 1; 2])
      as (_ & _ & _ & Hnever & _).
    apply Hnever. intros result Hin _.
    apply list_elem_of_singleton in Hin. subst result. cbn. lia.
  - destruct (insufficient_mixins_threshold sevenAndNine [7; 9] (Some 2) [4; 4; 0; 2])
      as (_ & _ & _ & _ & Hreaches & _).
    apply Hreaches. split; [discriminate|]. split; [vm_compute; reflexivity|].
    exists [{| m_amount := 7; m_globalIndex := 5 |}],
           {| m_amount := 9; m_globalIndex := 1 |}, [].
    eexists. split; [vm_compute; reflexivity|]. split; [cbn; lia|].
    vm_compute. reflexivity.
Defined.

(** The claim of C6 fails where the maximum equals the requested count: with
    three outputs of amount 7 (greatest global index 2) and a requested
    mixin count of 2 the operation refuses with InsufficientMixins. *)
Lemma insufficient_mixins_at_equal_maximum :
  m_globalIndex <$> transaction_outputs_index_maximums (outputsOfSeven 3) = [2]
  /\ getRandomOutputsForAmounts (outputsOfSeven 3) [7] (Some 2) [0; 1; 2]
     = Refused InsufficientMixins.
Proof. split; vm_compute; reflexivity. Qed.

Section GroupFacts.

Variables (mixin A : Z).
Hypothesis HA : A <> -1.

Lemma groupRows_first response r rest :
  or_amount r = A ->
  groupRows mixin response {| g_amount := -1; g_outs := None |} (r :: rest)
  = groupRows mixin response {| g_amount := A; g_outs := Some [outOf r] |} rest.
Proof.
  intros Hr. cbn. rewrite Hr.
  destruct (Z.eqb_spec A (-1)); [contradiction|]. reflexivity.
Qed.

Lemma groupRows_push response outs r rest :
  or_amount r = A -> Z.of_nat (length outs) <> mixin ->
  groupRows mixin response {| g_amount := A; g_outs := Some outs |} (r :: rest)
  = groupRows mixin response {| g_amount := A; g_outs := Some (outs ++ [outOf r]) |} rest.
Proof.
  intros Hr Hlen. cbn. rewrite Hr, Z.eqb_refl. cbn.
  destruct (Z.eqb_spec (Z.of_nat (length outs)) mixin); [contradiction|]. reflexivity.
Qed.

Lemma groupRows_full response outs r rest :
  or_amount r = A -> Z.of_nat (length outs) = mixin ->
  groupRows mixin response {| g_amount := A; g_outs := Some outs |} (r :: rest)
  = groupRows mixin (response ++ [{| g_amount := A; g_outs := Some (sortOuts outs) |}])
      {| g_amount := A; g_outs := Some [outOf r] |} rest.
Proof.
  intros Hr Hlen. cbn -[sortOuts]. rewrite Hr, Z.eqb_refl. cbn -[sortOuts].
  rewrite Hlen, Z.eqb_refl.
  destruct (Z.eqb_spec A (-1)); [contradiction|]. reflexivity.
Qed.

End GroupFacts.

Section SameAmountTwice.

Variable db : Database.
Variables (A max : Z).
Hypothesis HA : A <> -1.

(** The global index numbers the outputs of an amount: no index twice, and
    every index up to the maximum is there. *)
Hypothesis Hdistinct :
  NoDup (or_globalIndex <$> filter (fun r => or_amount r = A) (transaction_outputs db)).
Hypothesis Hpresent :
  forall i, 0 <= i <= max ->
    i ∈ or_globalIndex <$> filter (fun r => or_amount r = A) (transaction_outputs db).

Lemma groupRows_six (r1 r2 r3 r4 r5 r6 : OutputRecord) :
  Forall (fun r => or_amount r = A) [r1; r2; r3; r4; r5; r6] ->
  groupRows 3 [] {| g_amount := -1; g_outs := None |} [r1; r2; r3; r4; r5; r6]
  = Some [{| g_amount := A; g_outs := Some (sortOuts (outOf <$> [r1; r2; r3])) |};
          {| g_amount := A; g_outs := Some (outOf <$> [r4; r5; r6]) |}].
Proof.
  intros Hall.
  repeat (apply Forall_cons in Hall as [? Hall]).
  rewrite (groupRows_first 3 A) by assumption.
  rewrite (groupRows_push 3 A) by (assumption || (cbn; lia)).
  rewrite (groupRows_push 3 A) by (assumption || (cbn; lia)).
  rewrite (groupRows_full 3 A) by (assumption || (cbn; lia)).
  rewrite (groupRows_push 3 A) by (assumption || (cbn; lia)).
  rewrite (groupRows_push 3 A) by (assumption || (cbn; lia)).
  reflexivity.
Qed.

Lemma dedupe_twice (m : Z) :
  fst (dedupe m [A; A]) = [A] /\ snd (dedupe m [A; A]) !! A = Some (m + m).
Proof.
  unfold dedupe. cbn.
  destruct (decide (A ∈ [])) as [Hin|_]; [inversion Hin|]. cbn.
  destruct (decide (A ∈ [A])) as [_|Hnin]; [|exfalso; apply Hnin; left]. cbn.
  split; [reflexivity|]. rewrite lookup_alter_eq, lookup_insert_eq. reflexivity.
Qed.

(** The rows that the last statement selects for the drawn indices. *)
Lemma selected_rows (rnds : list Z) :
  NoDup rnds -> (forall x, x ∈ rnds -> 0 <= x <= max) ->
  let selected :=
    orderAsc or_amount
      (filter (fun r => (or_amount r, or_globalIndex r)
                          ∈ ((fun rand => (A, rand)) <$> rnds) ++ [])
              (transaction_outputs db)) in
  Forall (fun r => or_amount r = A) selected
  /\ or_globalIndex <$> selected ≡ₚ rnds.
Proof.
  intros Hnd Hin selected.
  assert (Hperm : selected ≡ₚ filter (fun r => or_globalIndex r ∈ rnds)
                               (filter (fun r => or_amount r = A) (transaction_outputs db))).
  { unfold selected, orderAsc. rewrite sortRows_Permutation.
    rewrite list_filter_filter.
    erewrite list_filter_iff; [reflexivity|].
    intros r. cbn. rewrite app_nil_r, list_elem_of_fmap. split.
    - intros (rand & [= -> ->] & Hrand). now split.
    - intros [Hidx Hamount]. exists (or_globalIndex r). now rewrite Hamount. }
  split.
  - rewrite Hperm. apply Forall_forall. intros r Hr.
    apply list_elem_of_filter in Hr as [_ Hr].
    now apply list_elem_of_filter in Hr as [Hr _].
  - rewrite Hperm. apply NoDup_Permutation; [|assumption|].
    + eapply sublist_NoDup; [exact Hdistinct|]. apply fmap_sublist, sublist_filter.
    + intros i. rewrite list_elem_of_fmap. split.
      * intros (r & -> & Hr). now apply list_elem_of_filter in Hr as [Hr _].
      * intros Hi. destruct (proj1 (list_elem_of_fmap _ _ _) (Hpresent i (Hin i Hi)))
          as (r & -> & Hr).
        exists r. split; [reflexivity|]. apply list_elem_of_filter. now split.
Qed.

End SameAmountTwice.

(** The operation for the same amount twice and a requested count of 2, in
    a store with one maximum for the amount. *)
Lemma sample_unfold db A max entropy :
  filter (fun r => m_amount r ∈ [A]) (transaction_outputs_index_maximums db)
    = [{| m_amount := A; m_globalIndex := max |}] ->
  getRandomOutputsForAmounts db [A; A] (Some 2) entropy =
  if max <? 3 then Refused InsufficientMixins
  else match drawUnique max (Some 6) [] entropy with
       | (None, _) => Starved
       | (Some rnds, _) =>
           match groupRows 3 [] {| g_amount := -1; g_outs := None |}
                   (orderAsc or_amount
                      (filter (fun r => (or_amount r, or_globalIndex r)
                                          ∈ ((fun rand => (A, rand)) <$> rnds) ++ [])
                              (transaction_outputs db))) with
           | Some response => Drawn response
           | None => Refused TypeError
           end
       end.
Proof.
  intros Hrow. unfold getRandomOutputsForAmounts.
  change (default 0 (Some 2) + 1) with 3.
  destruct (dedupe_twice A 3) as [Hd Hc].
  destruct (dedupe 3 [A; A]) as [deduped counts]. cbn in Hd, Hc. subst deduped.
  cbv beta iota zeta. rewrite Hrow. cbn [length Nat.eqb negb sampleRows m_globalIndex m_amount].
  rewrite Hc. change (3 + 3) with 6.
  destruct (max <? 3); [reflexivity|].
  destruct (drawUnique max (Some 6) [] entropy) as [[rnds|] rest] eqn:Hdraw;
    [|reflexivity].
  apply drawUnique_length in Hdraw. now destruct rnds.
Qed.

(** C5 (as amended): the sampler adds 1 to the requested count, so for the
    same amount twice with mixin count 2 it asks for 6 indices.  The amount
    is not -1 (the mark of the first group in the grouping loop) and has one
    row of maxima.  With a greatest global index below 3 (three outputs or
    fewer) the operation refuses with InsufficientMixins.  In a store whose
    outputs of the amount carry every global index up to the maximum once,
    whenever the operation completes it returns two groups for the amount
    with 3 outputs each, whose 6 global indices are all different and lie
    between 0 and the maximum.  The drawing loop draws again when it meets an index it already
    holds: with a maximum of at least 3 the operation completes exactly when
    the indices drawn from the random source hold six different ones, as
    they do with a maximum of at least 5 (six outputs) when the source
    yields 0 to 5. *)
Theorem sample_same_amount_twice :
  forall (db : Database) (A max : Z) (entropy : list Z),
    A <> -1 ->
    filter (fun r => m_amount r ∈ [A]) (transaction_outputs_index_maximums db)
      = [{| m_amount := A; m_globalIndex := max |}] ->
    (max < 3 ->
     getRandomOutputsForAmounts db [A; A] (Some 2) entropy = Refused InsufficientMixins)
    /\ (NoDup (or_globalIndex <$> filter (fun r => or_amount r = A) (transaction_outputs db)) ->
        (forall i, 0 <= i <= max ->
           i ∈ or_globalIndex <$> filter (fun r => or_amount r = A) (transaction_outputs db)) ->
        (forall response,
           getRandomOutputsForAmounts db [A; A] (Some 2) entropy = Drawn response ->
           exists outs1 outs2,
             response = [{| g_amount := A; g_outs := Some outs1 |};
                         {| g_amount := A; g_outs := Some outs2 |}]
             /\ length outs1 = 3%nat /\ length outs2 = 3%nat
             /\ NoDup (global_amount_index <$> (outs1 ++ outs2))
             /\ (forall o, o ∈ outs1 ++ outs2 -> 0 <= global_amount_index o <= max))
        /\ (3 <= max ->
            ((exists response,
                getRandomOutputsForAmounts db [A; A] (Some 2) entropy = Drawn response)
             <-> exists six,
                   NoDup six /\ length six = 6%nat
                   /\ forall i, i ∈ six -> i ∈ Random 0 max <$> entropy))
        /\ (5 <= max ->
            exists response,
              getRandomOutputsForAmounts db [A; A] (Some 2) [0; 1; 2; 3; 4; 5]
              = Drawn response)).
Proof.
  intros db A max entropy HA Hrow. split.
  { intros Hmax. rewrite (sample_unfold _ _ _ _ Hrow).
    destruct (Z.ltb_spec max 3); [reflexivity | lia]. }
  intros Hdistinct Hpresent.
  assert (Hshape : forall rnds,
             NoDup rnds -> (forall x, x ∈ rnds -> 0 <= x <= max) ->
             length rnds = 6%nat ->
             exists outs1 outs2,
               groupRows 3 [] {| g_amount := -1; g_outs := None |}
                 (orderAsc or_amount
                    (filter (fun r => (or_amount r, or_globalIndex r)
                                        ∈ ((fun rand => (A, rand)) <$> rnds) ++ [])
                            (transaction_outputs db)))
               = Some [{| g_amount := A; g_outs := Some outs1 |};
                       {| g_amount := A; g_outs := Some outs2 |}]
               /\ length outs1 = 3%nat /\ length outs2 = 3%nat
               /\ NoDup (global_amount_index <$> (outs1 ++ outs2))
               /\ (forall o, o ∈ outs1 ++ outs2 -> 0 <= global_amount_index o <= max)).
  { intros rnds Hnd Hin Hlen.
    destruct (selected_rows db A max Hdistinct Hpresent rnds Hnd Hin) as [Hall Hperm].
    set (selected := orderAsc or_amount _) in *.
    assert (Hsix : length selected = 6%nat).
    { rewrite <- Hlen, <- (Permutation_length Hperm). now rewrite length_fmap. }
    destruct selected as [|r1 [|r2 [|r3 [|r4 [|r5 [|r6 [|r7 rest]]]]]]]; try discriminate.
    rewrite (groupRows_six A HA _ _ _ _ _ _ Hall).
    eexists _, _. split; [reflexivity|].
    split; [unfold sortOuts; now rewrite jsSort_length|]. split; [reflexivity|].
    assert (Hidx : global_amount_index <$>
                     (sortOuts (outOf <$> [r1; r2; r3]) ++ (outOf <$> [r4; r5; r6]))
                   ≡ₚ rnds).
    { rewrite <- Hperm. unfold sortOuts. rewrite jsSort_Permutation. reflexivity. }
    split.
    - rewrite Hidx. exact Hnd.
    - intros o Ho. apply Hin. rewrite <- Hidx. now apply list_elem_of_fmap_2. }
  split; [|split].
  - intros response. rewrite (sample_unfold _ _ _ _ Hrow).
    destruct (Z.ltb_spec max 3) as [Hlt|Hge]; [discriminate|].
    destruct (drawUnique max (Some 6) [] entropy) as [[rnds|] rest] eqn:Hdraw;
      [|discriminate].
    apply drawUnique_drawn in Hdraw as (Hnd & Hin & Hlen);
      [|lia|apply NoDup_nil_2|intros x Hx; inversion Hx].
    destruct (Hshape rnds Hnd Hin) as (outs1 & outs2 & Hgroups & Hrest);
      [injection Hlen as Hlen; lia|].
    rewrite Hgroups. intros [= <-]. now exists outs1, outs2.
  - intros Hmax. rewrite (sample_unfold _ _ _ _ Hrow).
    destruct (Z.ltb_spec max 3) as [Hlt|Hge]; [lia|]. split.
    + intros [response Hresponse].
      destruct (drawUnique max (Some 6) [] entropy) as [[rnds|] rest] eqn:Hdraw;
        [|discriminate].
      pose proof (drawUnique_source _ _ _ _ _ _ Hdraw) as Hsource.
      apply drawUnique_drawn in Hdraw as (Hnd & Hin & Hlen);
        [|lia|apply NoDup_nil_2|intros x Hx; inversion Hx].
      exists rnds. split; [assumption|]. split; [injection Hlen as Hlen; lia|].
      intros i Hi. destruct (Hsource i Hi) as [Hnil|Hdrawn]; [inversion Hnil | assumption].
    + intros (six & Hsix & Hlen & Hsource).
      destruct (drawUnique_completes max 6 entropy [] six) as (rnds & rest & Hdraw);
        [apply NoDup_nil_2 | cbn; lia | assumption | lia | intros x Hx; right; auto |].
      rewrite Hdraw.
      apply drawUnique_drawn in Hdraw as (Hnd & Hin & Hrnds);
        [|lia|apply NoDup_nil_2|intros x Hx; inversion Hx].
      destruct (Hshape rnds Hnd Hin) as (outs1 & outs2 & Hgroups & _);
        [injection Hrnds as Hrnds; lia|].
      rewrite Hgroups. eauto.
  - intros Hmax. rewrite (sample_unfold _ _ _ _ Hrow).
    destruct (Z.ltb_spec max 3) as [Hlt|Hge]; [lia|].
    assert (Hdraw : drawUnique max (Some 6) [] [0; 1; 2; 3; 4; 5]
                    = (Some [0; 1; 2; 3; 4; 5], [])).
    { do 6 (rewrite drawUnique_fresh;
            [cbn [app] | lia | fresh_index | cbn [length]; lia]).
      apply drawUnique_done. reflexivity. }
    rewrite Hdraw.
    destruct (Hshape [0; 1; 2; 3; 4; 5]) as (outs1 & outs2 & Hgroups & _).
    + repeat (apply NoDup_cons; split; [cbv; intros Hx; repeat (apply elem_of_cons in Hx as [Hx|Hx]; [discriminate|]); inversion Hx|]).
      apply NoDup_nil_2.
    + intros x Hx. repeat (apply elem_of_cons in Hx as [-> | Hx]; [lia|]). inversion Hx.
    + reflexivity.
    + rewrite Hgroups. eauto.
Qed.

Lemma sample_same_amount_twice_witness :
  exists outs1 outs2,
    getRandomOutputsForAmounts (outputsOfSeven 6) [7; 7] (Some 2) [5; 3; 3; 1; 0; 4; 2; 9]
    = Drawn [{| g_amount := 7; g_outs := Some outs1 |};
             {| g_amount := 7; g_outs := Some outs2 |}]
    /\ length outs1 = 3%nat /\ length outs2 = 3%nat
    /\ NoDup (global_amount_index <$> (outs1 ++ outs2))
    /\ (forall o, o ∈ outs1 ++ outs2 -> 0 <= global_amount_index o <= 5).
Proof.
  destruct (sample_same_amount_twice (outputsOfSeven 6) 7 5 [5; 3; 3; 1; 0; 4; 2; 9])
    as (_ & Hdrawn); [discriminate | reflexivity |].
  destruct Hdrawn as (Hgroups & Hcompletes & _).
  - refine (bool_decide_unpack _ _). vm_compute. exact I.
  - intros i Hi.
    assert (Hcases : i = 0 \/ i = 1 \/ i = 2 \/ i = 3 \/ i = 4 \/ i = 5) by lia.
    destruct Hcases as [-> | [-> | [-> | [-> | [-> | ->]]]]];
      refine (bool_decide_unpack _ _); vm_compute; exact I.
  - destruct (proj2 (Hcompletes ltac:(lia))) as [response Hresponse].
    { exists [5; 3; 1; 0; 4; 2].
      split; [refine (bool_decide_unpack _ _); vm_compute; exact I|].
      split; [reflexivity|].
      intros i Hi.
      repeat (apply elem_of_cons in Hi as [-> | Hi];
              [refine (bool_decide_unpack _ _); vm_compute; exact I|]).
      inversion Hi. }
    destruct (Hgroups response Hresponse) as (outs1 & outs2 & -> & Hrest).
    exists outs1, outs2. split; [exact Hresponse | exact Hrest].
Defined.

(** The claim of C5 fails: for the same amount twice and mixin count 2 the
    sampler returns 6 global indices when six outputs exist (the six indices
    0 to 5, three in each group, in whatever order the rows of the amount
    come), and with exactly four outputs this run of the random source ends
    without a result. *)
Lemma sample_same_amount_twice_returns_six :
  (exists outs1 outs2,
     getRandomOutputsForAmounts (outputsOfSeven 6) [7; 7] (Some 2) [5; 3; 3; 1; 0; 4; 2; 9]
     = Drawn [{| g_amount := 7; g_outs := Some outs1 |};
              {| g_amount := 7; g_outs := Some outs2 |}]
     /\ length outs1 = 3%nat /\ length outs2 = 3%nat
     /\ global_amount_index <$> (outs1 ++ outs2) ≡ₚ [0; 1; 2; 3; 4; 5])
  /\ getRandomOutputsForAmounts (outputsOfSeven 4) [7; 7] (Some 2) [5; 3; 3; 1; 0; 4; 2; 9]
     = Starved.
Proof.
  split; [|vm_compute; reflexivity].
  eexists _, _. split; [vm_compute; reflexivity|].
  split; [reflexivity|]. split; [reflexivity|].
  apply NoDup_Permutation.
  - refine (bool_decide_unpack _ _). vm_compute. exact I.
  - refine (bool_decide_unpack _ _). vm_compute. exact I.
  - intros i. split; intros Hi;
      repeat (apply elem_of_cons in Hi as [-> | Hi];
              [refine (bool_decide_unpack _ _); vm_compute; exact I|]);
      inversion Hi.
Qed.

(** With exactly four outputs (greatest global index 3) the check lets the
    request through and the loop then asks for 6 different indices among 4:
    it ends for no run of the random source. *)
Lemma sample_with_four_outputs_never_completes (entropy : list Z) :
  getRandomOutputsForAmounts (outputsOfSeven 4) [7; 7] (Some 2) entropy = Starved.
Proof.
  rewrite (sample_unfold (outputsOfSeven 4) 7 3 entropy eq_refl).
  change (3 <? 3) with false. cbv iota.
  pose proof (drawUnique_starves 3 6 entropy ltac:(lia) ltac:(lia)) as Hnone.
  destruct (drawUnique 3 (Some 6) [] entropy) as [[rnds|] rest]; [discriminate|reflexivity].
Qed.

(** ** The request/reply bridge *)

Section BridgeFacts.

Import Rabbit.

Lemma settlePromise_other id id' s (m : gmap string (Settled string)) :
  id' <> id -> settlePromise id' s m !! id = m !! id.
Proof.
  intros Hne. unfold settlePromise.
  destruct (m !! id'); [reflexivity|]. now rewrite lookup_insert_ne.
Qed.

Lemma settlePromise_settled id id' s s' (m : gmap string (Settled string)) :
  m !! id = Some s -> settlePromise id' s' m !! id = Some s.
Proof.
  intros Hm. unfold settlePromise.
  destruct (m !! id') eqn:Hid'; [assumption|].
  rewrite lookup_insert_ne; [assumption|]. congruence.
Qed.

(** The timers that fire reject the pending promises they were armed for
    and leave the others alone. *)
Lemma fire_settled id s (due : list Timer) (m : gmap string (Settled string)) :
  m !! id = Some s ->
  foldl (fun m timer => settlePromise (timerFor timer) (Rejected Timeout) m) m due !! id
  = Some s.
Proof.
  revert m. induction due as [|timer due IH]; intros m Hm; cbn; [assumption|].
  apply IH. now apply settlePromise_settled.
Qed.

Lemma fire_pending id (due : list Timer) (m : gmap string (Settled string)) :
  m !! id = None ->
  foldl (fun m timer => settlePromise (timerFor timer) (Rejected Timeout) m) m due !! id
  = if decide (id ∈ timerFor <$> due) then Some (Rejected Timeout) else None.
Proof.
  revert m. induction due as [|timer due IH]; intros m Hm; cbn.
  - rewrite Hm.
    match goal with |- context [decide ?P] => destruct (decide P) as [Hin|_] end;
      [inversion Hin | reflexivity].
  - destruct (decide (timerFor timer = id)) as [Heq|Hne].
    + rewrite (fire_settled id (Rejected Timeout)).
      * match goal with |- context [decide ?P] => destruct (decide P) as [_|Hnin] end;
          [reflexivity|].
        exfalso. apply Hnin. rewrite Heq. left.
      * unfold settlePromise. rewrite Heq, Hm. apply lookup_insert_eq.
    + rewrite IH by (rewrite settlePromise_other; [assumption | exact Hne]).
      destruct (decide (id ∈ timerFor <$> due)) as [Hin|Hnin];
        destruct (decide (id ∈ timerFor timer :: (timerFor <$> due))) as [Hin'|Hnin'];
        try reflexivity.
      * exfalso. apply Hnin'. now right.
      * exfalso. apply elem_of_cons in Hin' as [Heq|Hin']; congruence.
Qed.

Variable id : string.
Variable queue : string.
Variable deadline : Z.

Lemma step_keeps (b : Bridge) (e : Event) :
  unrelated id e -> pendingOrTimedOut id queue deadline b -> pendingOrTimedOut id queue deadline (step b e).
Proof.
  intros He (Hconsumer & Htimers & Hstate).
  destruct e as [q p timeout rid | i message | t]; cbn in He.
  - (* another call *)
    unfold pendingOrTimedOut. cbn. split; [apply elem_of_app; now left|]. split.
    + intros t Ht Hid. apply elem_of_app in Ht as [Ht|Ht]; [now apply Htimers|].
      apply list_elem_of_singleton in Ht. subst t. cbn in Hid. congruence.
    + destruct Hstate as [(Hp & Hc & Ht) | (Hp & Hc & Ht)]; [left | right].
      * repeat split; try assumption. apply elem_of_app. now left.
      * repeat split; try assumption. intros t' Ht'.
        apply elem_of_app in Ht' as [Ht'|Ht']; [now apply Ht|].
        apply list_elem_of_singleton in Ht'. subst t'. exact He.
  - (* a message for someone else *)
    unfold pendingOrTimedOut, step, deliver.
    destruct (consumers b !! i) as [c|]; [|now repeat split].
    destruct (decide (correlationId message = requestId c)) as [Heq|Hne]; cbn;
      [|now repeat split].
    assert (Hother : requestId c <> id) by congruence.
    split; [assumption|]. split.
    + intros t Ht. apply list_elem_of_filter in Ht as [_ Ht]. now apply Htimers.
    + destruct Hstate as [(Hp & Hc & Ht) | (Hp & Hc & Ht)]; [left | right].
      * rewrite settlePromise_other by assumption. repeat split; try assumption.
        apply list_elem_of_filter. split; [cbn; congruence | assumption].
      * rewrite settlePromise_other by assumption. repeat split; try assumption.
        intros t' Ht'. apply list_elem_of_filter in Ht' as [_ Ht']. now apply Ht.
  - (* time passes *)
    unfold pendingOrTimedOut, step, advance. cbn.
    set (t' := Z.max (clock b) t).
    split; [assumption|]. split.
    + intros x Hx. apply list_elem_of_filter in Hx as [_ Hx]. now apply Htimers.
    + destruct Hstate as [(Hp & Hc & Ht) | (Hp & Hc & Ht)].
      * rewrite (fire_pending id _ _ Hp).
        destruct (Z.le_gt_cases deadline t') as [Hdue|Hearly].
        -- right.
           match goal with |- context [decide ?P] => destruct (decide P) as [_|Hnin] end.
           ++ split; [reflexivity|]. split; [assumption|].
              intros x Hx Hid. apply list_elem_of_filter in Hx as [Hlate Hx].
              rewrite (Htimers x Hx Hid) in Hlate. contradiction.
           ++ exfalso. apply Hnin.
              apply (list_elem_of_fmap_2 timerFor _ {| fireAt := deadline; timerFor := id |}).
              apply list_elem_of_filter. split; [exact Hdue | assumption].
        -- left.
           match goal with |- context [decide ?P] => destruct (decide P) as [Hin|_] end.
           ++ exfalso. apply list_elem_of_fmap in Hin as (x & Hid & Hx).
              apply list_elem_of_filter in Hx as [Hdue Hx].
              rewrite (Htimers x Hx (eq_sym Hid)) in Hdue. lia.
           ++ split; [reflexivity|]. split; [assumption|].
              apply list_elem_of_filter. split; [cbn; lia | assumption].
      * right. rewrite (fire_settled id _ _ _ Hp). split; [reflexivity|].
        split; [unfold t'; lia|].
        intros x Hx. apply list_elem_of_filter in Hx as [_ Hx]. now apply Ht.
Qed.

Lemma run_keeps (events : list Event) (b : Bridge) :
  Forall (unrelated id) events -> pendingOrTimedOut id queue deadline b -> pendingOrTimedOut id queue deadline (run b events).
Proof.
  intros Hevents. revert b.
  induction Hevents as [|e events He _ IH]; intros b Hb; cbn; [assumption|].
  apply IH. now apply step_keeps.
Qed.

Lemma pendingOrTimedOut_elim (b : Bridge) :
  pendingOrTimedOut id queue deadline b ->
  (clock b < deadline -> promises b !! id = None)
  /\ (deadline <= clock b ->
      promises b !! id = Some (Rejected Timeout)
      /\ forall t, t ∈ timers b -> timerFor t <> id)
  /\ {| consumerQueue := queue; requestId := id |} ∈ consumers b.
Proof.
  intros (Hconsumer & _ & [(Hp & Hc & _) | (Hp & Hc & Ht)]).
  - split; [auto|]. split; [lia | assumption].
  - split; [lia|]. split; [auto | assumption].
Qed.

Lemma pendingOrTimedOut_intro (b : Bridge) :
  {| consumerQueue := queue; requestId := id |} ∈ consumers b ->
  (forall t, t ∈ timers b -> timerFor t = id -> fireAt t = deadline) ->
  promises b !! id = None -> clock b < deadline ->
  {| fireAt := deadline; timerFor := id |} ∈ timers b ->
  pendingOrTimedOut id queue deadline b.
Proof. intros. split; [assumption|]. split; [assumption|]. left. now repeat split. Qed.

End BridgeFacts.

(** C4 (as amended): for a call [requestReply(queue, payload, timeout)]
    whose identifier is fresh and for which no message with that identifier
    is ever delivered, the promise is pending until [timeout + 500]
    milliseconds after the call (5000 stands for a timeout that is absent)
    and is rejected with the Timeout error from then on; once the timer has
    fired no timer of the call is left, but the consumer that the call
    registered on the reply queue stays registered: nothing cancels it. *)
Theorem request_without_reply_times_out :
  forall (b : Rabbit.Bridge) (queue payload : string) (timeout : option Z) (id : string)
         (events : list Rabbit.Event),
    let window := match timeout with
                  | Some t => if t =? 0 then 5000 else t
                  | None => 5000
                  end in
    let final := Rabbit.run (Rabbit.requestReply b queue payload timeout id) events in
    0 <= window ->
    Rabbit.promises b !! id = None ->
    (forall t, t ∈ Rabbit.timers b -> Rabbit.timerFor t <> id) ->
    Forall (Rabbit.unrelated id) events ->
    (Rabbit.clock final < Rabbit.clock b + (window + 500) ->
     Rabbit.promises final !! id = None)
    /\ (Rabbit.clock b + (window + 500) <= Rabbit.clock final ->
        Rabbit.promises final !! id = Some (Rejected Rabbit.Timeout)
        /\ forall t, t ∈ Rabbit.timers final -> Rabbit.timerFor t <> id)
    /\ {| Rabbit.consumerQueue := Rabbit.replyQueue b; Rabbit.requestId := id |}
         ∈ Rabbit.consumers final.
Proof.
  intros b queue payload timeout id events window final Hwindow Hfresh Htimers Hevents.
  apply (pendingOrTimedOut_elim id (Rabbit.replyQueue b) (Rabbit.clock b + (window + 500))).
  apply run_keeps; [assumption|].
  apply pendingOrTimedOut_intro; cbn.
  - apply elem_of_app. right. left.
  - intros t Ht Hid. apply elem_of_app in Ht as [Ht|Ht].
    + now destruct (Htimers t Ht).
    + apply list_elem_of_singleton in Ht. now subst t.
  - assumption.
  - fold window. lia.
  - apply elem_of_app. right. left.
Qed.

Lemma request_without_reply_times_out_witness :
  let final :=
    Rabbit.run (Rabbit.requestReply (Rabbit.connected "reply") "work" "payload"
                  (Some 1000) "r1")
      [Rabbit.Advance 700;
       Rabbit.Deliver 0 {| Rabbit.correlationId := "r0"; Rabbit.content := "late" |};
       Rabbit.Advance 1500] in
  Rabbit.promises final !! "r1" = Some (Rejected Rabbit.Timeout)
  /\ {| Rabbit.consumerQueue := "reply"; Rabbit.requestId := "r1" |} ∈ Rabbit.consumers final.
Proof.
  cbv zeta.
  destruct (request_without_reply_times_out (Rabbit.connected "reply") "work" "payload"
              (Some 1000) "r1"
              [Rabbit.Advance 700;
               Rabbit.Deliver 0 {| Rabbit.correlationId := "r0"; Rabbit.content := "late" |};
               Rabbit.Advance 1500])
    as (_ & Hlate & Hconsumer).
  - cbn. lia.
  - reflexivity.
  - intros t Ht. inversion Ht.
  - repeat constructor; cbn; discriminate.
  - split; [|exact Hconsumer].
    apply Hlate. vm_compute. discriminate.
Defined.

(** The claim of C4 fails: for [requestReply(q, payload, 1000)] without a
    reply the promise is still pending after 1499 milliseconds, it is
    rejected at 1500, and afterwards the consumer of the call is still
    registered on the reply queue. *)
Lemma consumer_stays_after_timeout :
  let called := Rabbit.requestReply (Rabbit.connected "reply") "work" "payload"
                  (Some 1000) "r1" in
  Rabbit.promises (Rabbit.advance called 1499) !! "r1" = None
  /\ Rabbit.promises (Rabbit.advance called 1500) !! "r1" = Some (Rejected Rabbit.Timeout)
  /\ Rabbit.consumers (Rabbit.advance called 1500)
     = [{| Rabbit.consumerQueue := "reply"; Rabbit.requestId := "r1" |}].
Proof. cbv zeta. repeat split; vm_compute; reflexivity. Qed.

(** * Further properties of the code *)

(** ** The cache helpers: what is written can be read until it expires *)

Section RoundTrip.

Variable sha256 : string -> string.
Variable defaultTTL : Z.
Context {A : Type} `{JsData A}.

(** The entries after [setCache] of a value that [checkCache] accepts. *)
Lemma setCache_then_checkCache (client : gmap string (A * Z)) (now later ttl : Z)
    (key : string) (value : A) :
  falsy value = false -> isEmptyArray value = false -> keyCount value <> 0%nat ->
  let written := setCache sha256 defaultTTL (Some client) now key value ttl in
  let life := if ttl =? 0 then defaultTTL else ttl in
  snd written = value
  /\ (later < now + life -> checkCache sha256 (fst written) later key = Some value)
  /\ (now + life <= later -> checkCache sha256 (fst written) later key = None)
  /\ (forall other, sha256 other <> sha256 key ->
        checkCache sha256 (fst written) later other
        = checkCache sha256 (Some client) later other).
Proof.
  intros Hf He Hk written life.
  assert (Hw : written
               = (Some (<[sha256 key := (value, now + life)]> client), value)).
  { unfold written, setCache, RedisCache_set. now rewrite Hf. }
  rewrite Hw. cbn [fst snd]. split; [reflexivity|].
  apply Nat.eqb_neq in Hk.
  split; [|split].
  - intros Hlater. unfold checkCache, RedisCache_get. rewrite lookup_insert_eq.
    destruct (Z.ltb_spec later (now + life)); [|lia].
    now rewrite Hf, He, Hk.
  - intros Hlater. unfold checkCache, RedisCache_get. rewrite lookup_insert_eq.
    destruct (Z.ltb_spec later (now + life)); [lia | reflexivity].
  - intros other Hother. unfold checkCache, RedisCache_get.
    rewrite lookup_insert_ne by congruence. reflexivity.
Qed.

End RoundTrip.

(** X1: an array that is not empty, or an object with at least one key,
    that [setCache] has written under a key (as its JSON text) is what
    [checkCache] returns for that key until [ttl] seconds have passed
    ([defaultTTL] seconds when [ttl] is 0) and is a miss from then on; keys
    with another digest read as before, and [setCache] resolves with the
    value it was given. *)
Theorem setCache_checkCache_round_trip :
  forall (sha256 : string -> string) (defaultTTL : Z) (X : Type)
         (now later ttl : Z) (key : string),
    let life := if ttl =? 0 then defaultTTL else ttl in
    (forall (client : gmap string (list X * Z)) (value : list X),
        value <> [] ->
        let written := setCache sha256 defaultTTL (Some client) now key value ttl in
        snd written = value
        /\ (later < now + life -> checkCache sha256 (fst written) later key = Some value)
        /\ (now + life <= later -> checkCache sha256 (fst written) later key = None)
        /\ (forall other, sha256 other <> sha256 key ->
              checkCache sha256 (fst written) later other
              = checkCache sha256 (Some client) later other))
    /\ (forall (client : gmap string (gmap string X * Z)) (value : gmap string X),
        value <> ∅ ->
        let written := setCache sha256 defaultTTL (Some client) now key value ttl in
        snd written = value
        /\ (later < now + life -> checkCache sha256 (fst written) later key = Some value)
        /\ (now + life <= later -> checkCache sha256 (fst written) later key = None)
        /\ (forall other, sha256 other <> sha256 key ->
              checkCache sha256 (fst written) later other
              = checkCache sha256 (Some client) later other)).
Proof.
  intros sha256 defaultTTL X now later ttl key life. split.
  - intros client value Hvalue.
    apply setCache_then_checkCache; [reflexivity | now destruct value |].
    destruct value; [congruence | discriminate].
  - intros client value Hvalue.
    apply setCache_then_checkCache; [reflexivity | reflexivity |].
    cbn. now rewrite map_size_empty_iff.
Qed.

Lemma setCache_checkCache_round_trip_witness :
  checkCache (fun s => s)
    (fst (setCache (fun s => s) 30 (Some (∅ : gmap string (list Z * Z))) 0 "k" [7] 0))
    29 "k" = Some [7]
  /\ checkCache (fun s => s)
       (fst (setCache (fun s => s) 30 (Some (∅ : gmap string (list Z * Z))) 0 "k" [7] 0))
       30 "k" = None.
Proof.
  destruct (setCache_checkCache_round_trip (fun s => s) 30 Z 0 29 0 "k") as (Harray & _).
  destruct (Harray ∅ [7]) as (_ & Hhit & _); [discriminate|].
  destruct (setCache_checkCache_round_trip (fun s => s) 30 Z 0 30 0 "k") as (Harray' & _).
  destruct (Harray' ∅ [7]) as (_ & _ & Hmiss & _); [discriminate|].
  split; [apply Hhit; cbn; lia | apply Hmiss; cbn; lia].
Defined.

(** ** Block headers: errors and the entry a call leaves behind *)

Section HeaderOutcomes.

Variable sha256 : string -> string.
Variable defaultTTL : Z.
Variable db : Database.
Variable now : Z.

(** The header that [getLastBlockHeader] computes from the store. *)
Lemma getLastBlockHeader_run w :
  getLastBlockHeader sha256 defaultTTL db now w =
  let cached := checkCache sha256 (headers <$> w) now "getLastBlockHeader" in
  match firstn 1 (orderDesc b_height (blocks db)) with
  | [] =>
      (w, Some (match cached with
                | Some c => Fulfilled c
                | None => Rejected (Err "No blocks found in backend storage")
                end))
  | b :: _ =>
      let obj := {| h_block := b; h_depth := 0;
                    h_transactionCount := countTransactions db (b_hash b) |} in
      (match w with
       | Some c =>
           Some (putV headersV
                   (<[sha256 "getLastBlockHeader" := (obj, now + 5)]> (headers c)) c)
       | None => None
       end,
       Some (Fulfilled (default obj cached)))
  end.
Proof.
  unfold getLastBlockHeader. run_chain.
  destruct (checkCache sha256 (headers <$> w) now "getLastBlockHeader") as [c|]; cbn;
    (destruct (firstn 1 (orderDesc b_height (blocks db))) as [|b rest]; cbn;
     [reflexivity | now destruct w]).
Qed.

Lemma firstn1_filter_nil {X} (P : X -> Prop) `{forall x, Decision (P x)} (l : list X) :
  firstn 1 (filter P l) = [] <-> forall x, x ∈ l -> ~ P x.
Proof.
  split.
  - intros Hnil x Hx HP.
    assert (Hin : x ∈ filter P l) by (apply list_elem_of_filter; now split).
    destruct (filter P l); [inversion Hin | discriminate].
  - intros Hnone. destruct (filter P l) as [|y rest] eqn:Hf; [reflexivity|].
    assert (Hy : y ∈ filter P l) by (rewrite Hf; left).
    apply list_elem_of_filter in Hy as [Hy1 Hy2]. now destruct (Hnone y Hy2).
Qed.

Lemma getBlockHeaderByHash_run w blockHash :
  checkCache sha256 (headers <$> w) now ("getBlockHeaderByHash" +:+ blockHash) = None ->
  snd (getBlockHeaderByHash sha256 defaultTTL db now blockHash w) =
  match snd (getLastBlockHeader sha256 defaultTTL db now w) with
  | Some (Fulfilled top) =>
      match firstn 1 (filter (fun b => b_hash b = blockHash) (blocks db)) with
      | [] => Some (Rejected (Err "Requested block not found"))
      | b :: _ =>
          Some (Fulfilled {| h_block := b;
                             h_depth := b_height (h_block top) - b_height b;
                             h_transactionCount := countTransactions db (b_hash b) |})
      end
  | Some (Rejected e) => Some (Rejected e)
  | None => None
  end.
Proof.
  intros Hc. unfold getBlockHeaderByHash. run_chain. rewrite Hc. cbn.
  destruct (getLastBlockHeader sha256 defaultTTL db now w) as [w1 [[top|e]|]]; cbn;
    try reflexivity.
  destruct (firstn 1 _); [reflexivity|]. now destruct w1.
Qed.

Lemma getBlockHeaderByHeight_run w height :
  checkCache sha256 (headers <$> w) now ("getBlockHeaderByHeight" +:+ toString10 height)
  = None ->
  snd (getBlockHeaderByHeight sha256 defaultTTL db now height w) =
  match snd (getLastBlockHeader sha256 defaultTTL db now w) with
  | Some (Fulfilled top) =>
      match firstn 1 (filter (fun b => b_height b = height) (blocks db)) with
      | [] => Some (Rejected (Err "Requested block not found"))
      | b :: _ =>
          Some (Fulfilled {| h_block := b;
                             h_depth := b_height (h_block top) - b_height b;
                             h_transactionCount := countTransactions db (b_hash b) |})
      end
  | Some (Rejected e) => Some (Rejected e)
  | None => None
  end.
Proof.
  intros Hc. unfold getBlockHeaderByHeight. run_chain. rewrite Hc. cbn.
  destruct (getLastBlockHeader sha256 defaultTTL db now w) as [w1 [[top|e]|]]; cbn;
    try reflexivity.
  destruct (firstn 1 _); [reflexivity|]. now destruct w1.
Qed.

End HeaderOutcomes.

(** X2: when [getLastBlockHeader] is not served from the cache, it rejects
    with 'No blocks found in backend storage' if the store has no block
    and otherwise resolves a block of greatest height with depth 0 and the
    number of its transactions. *)
Theorem getLastBlockHeader_top_or_not_found :
  forall (sha256 : string -> string) (defaultTTL : Z) (db : Database) (now : Z)
         (w : option Cache),
    checkCache sha256 (headers <$> w) now "getLastBlockHeader" = None ->
    (blocks db = [] ->
     snd (getLastBlockHeader sha256 defaultTTL db now w)
     = Some (Rejected (Err "No blocks found in backend storage")))
    /\ (blocks db <> [] ->
        exists top,
          snd (getLastBlockHeader sha256 defaultTTL db now w) = Some (Fulfilled top)
          /\ h_block top ∈ blocks db
          /\ (forall b, b ∈ blocks db -> b_height b <= b_height (h_block top))
          /\ h_depth top = 0
          /\ h_transactionCount top
             = Z.of_nat (length (filter (fun t => t_blockHash t = b_hash (h_block top))
                                        (transactions db)))).
Proof.
  intros sha256 defaultTTL db now w Hmiss.
  rewrite getLastBlockHeader_run, Hmiss. cbv zeta.
  destruct (orderDesc b_height (blocks db)) as [|b rest] eqn:Hs; cbn.
  - apply orderDesc_nil in Hs. split; [reflexivity | congruence].
  - split.
    + intros Hnil. rewrite Hnil in Hs. discriminate.
    + intros _. eexists. split; [reflexivity|]. cbn.
      apply orderDesc_head in Hs as [Hin Hmax]. repeat split; assumption.
Qed.

Lemma getLastBlockHeader_top_or_not_found_witness :
  snd (getLastBlockHeader (fun s => s) 30 (blocksOnly []) 0 None)
  = Some (Rejected (Err "No blocks found in backend storage")).
Proof.
  apply (getLastBlockHeader_top_or_not_found (fun s => s) 30 (blocksOnly []) 0 None);
    reflexivity.
Defined.

(** X3: with a Redis backend and a store that is not empty, every call of
    [getLastBlockHeader] leaves the header it computes from the store in
    the entry for five seconds, also when the call itself is answered from
    the cache: the value a hit returns is the one the call before it
    computed. *)
Theorem getLastBlockHeader_rewrites_entry :
  forall (sha256 : string -> string) (defaultTTL : Z) (db : Database) (now later : Z)
         (c : Cache),
    blocks db <> [] ->
    later < now + 5 ->
    exists fresh,
      checkCache sha256
        (headers <$> fst (getLastBlockHeader sha256 defaultTTL db now (Some c)))
        later "getLastBlockHeader" = Some fresh
      /\ h_block fresh ∈ blocks db
      /\ (forall b, b ∈ blocks db -> b_height b <= b_height (h_block fresh))
      /\ h_depth fresh = 0
      /\ (forall cached,
            checkCache sha256 (Some (headers c)) now "getLastBlockHeader" = Some cached ->
            snd (getLastBlockHeader sha256 defaultTTL db now (Some c))
            = Some (Fulfilled cached))
      /\ (forall db',
            snd (getLastBlockHeader sha256 defaultTTL db' later
                   (fst (getLastBlockHeader sha256 defaultTTL db now (Some c))))
            = Some (Fulfilled fresh)).
Proof.
  intros sha256 defaultTTL db now later c Hne Hlater.
  rewrite getLastBlockHeader_run. cbv zeta.
  destruct (orderDesc b_height (blocks db)) as [|b rest] eqn:Hs; cbn [firstn].
  { apply orderDesc_nil in Hs. contradiction. }
  cbn [fst snd].
  set (obj := {| h_block := b; h_depth := 0;
                 h_transactionCount := countTransactions db (b_hash b) |}).
  assert (Hentry : checkCache sha256
            (headers <$> Some (putV headersV
               (<[sha256 "getLastBlockHeader" := (obj, now + 5)]> (headers c)) c))
            later "getLastBlockHeader" = Some obj).
  { cbn. unfold RedisCache_get. rewrite lookup_insert_eq.
    destruct (Z.ltb_spec later (now + 5)); [reflexivity | lia]. }
  exists obj. split; [exact Hentry|].
  apply orderDesc_head in Hs as [Hin Hmax].
  split; [exact Hin|]. split; [exact Hmax|]. split; [reflexivity|]. split.
  - intros cached Hc. cbn [fmap option_fmap option_map] in *. now rewrite Hc.
  - intros db'. now apply getLastBlockHeader_hit.
Qed.

Lemma getLastBlockHeader_rewrites_entry_witness :
  exists fresh,
    snd (getLastBlockHeader (fun s => s) 30 chain3 4
           (fst (getLastBlockHeader (fun s => s) 30 chain2 0 (Some emptyCache))))
    = Some (Fulfilled fresh)
    /\ b_height (h_block fresh) = 1.
Proof.
  destruct (getLastBlockHeader_rewrites_entry (fun s => s) 30 chain2 0 4 emptyCache)
    as (fresh & Hentry & _ & _ & _ & _ & Hnext); [discriminate | lia |].
  exists fresh. split; [apply Hnext|].
  vm_compute in Hentry. injection Hentry as <-. reflexivity.
Defined.

(** X4: when [getBlockHeaderByHash] or [getBlockHeaderByHeight] is not
    served from its cache entry, it rejects with the error of
    [getLastBlockHeader] if that rejects, rejects with 'Requested block not
    found' if no block of the store has the hash (the height), and
    otherwise resolves a block that has it. *)
Theorem header_lookup_not_found :
  forall (sha256 : string -> string) (defaultTTL : Z) (db : Database) (now : Z)
         (w : option Cache),
    (forall blockHash,
        checkCache sha256 (headers <$> w) now ("getBlockHeaderByHash" +:+ blockHash) = None ->
        (forall e,
            snd (getLastBlockHeader sha256 defaultTTL db now w) = Some (Rejected e) ->
            snd (getBlockHeaderByHash sha256 defaultTTL db now blockHash w)
            = Some (Rejected e))
        /\ (forall top,
            snd (getLastBlockHeader sha256 defaultTTL db now w) = Some (Fulfilled top) ->
            ((forall b, b ∈ blocks db -> b_hash b <> blockHash) ->
             snd (getBlockHeaderByHash sha256 defaultTTL db now blockHash w)
             = Some (Rejected (Err "Requested block not found")))
            /\ ((exists b, b ∈ blocks db /\ b_hash b = blockHash) ->
                exists obj,
                  snd (getBlockHeaderByHash sha256 defaultTTL db now blockHash w)
                  = Some (Fulfilled obj)
                  /\ h_block obj ∈ blocks db /\ b_hash (h_block obj) = blockHash)))
    /\ (forall height,
        checkCache sha256 (headers <$> w) now
          ("getBlockHeaderByHeight" +:+ toString10 height) = None ->
        (forall e,
            snd (getLastBlockHeader sha256 defaultTTL db now w) = Some (Rejected e) ->
            snd (getBlockHeaderByHeight sha256 defaultTTL db now height w)
            = Some (Rejected e))
        /\ (forall top,
            snd (getLastBlockHeader sha256 defaultTTL db now w) = Some (Fulfilled top) ->
            ((forall b, b ∈ blocks db -> b_height b <> height) ->
             snd (getBlockHeaderByHeight sha256 defaultTTL db now height w)
             = Some (Rejected (Err "Requested block not found")))
            /\ ((exists b, b ∈ blocks db /\ b_height b = height) ->
                exists obj,
                  snd (getBlockHeaderByHeight sha256 defaultTTL db now height w)
                  = Some (Fulfilled obj)
                  /\ h_block obj ∈ blocks db /\ b_height (h_block obj) = height))).
Proof.
  intros sha256 defaultTTL db now w. split.
  - intros blockHash Hmiss. rewrite (getBlockHeaderByHash_run _ _ _ _ _ _ Hmiss).
    split; [intros e ->; reflexivity|]. intros top ->. split.
    + intros Hnone.
      rewrite (proj2 (firstn1_filter_nil (fun b => b_hash b = blockHash) (blocks db)));
        [reflexivity | exact Hnone].
    + intros (b & Hb & Hh).
      destruct (filter (fun b => b_hash b = blockHash) (blocks db)) as [|b1 rest] eqn:Hf.
      * assert (Hin : b ∈ filter (fun b => b_hash b = blockHash) (blocks db))
          by (apply list_elem_of_filter; now split).
        rewrite Hf in Hin. inversion Hin.
      * assert (Hin : b1 ∈ filter (fun b => b_hash b = blockHash) (blocks db))
          by (rewrite Hf; left).
        apply list_elem_of_filter in Hin as [Hh1 Hb1].
        eexists. split; [reflexivity|]. now split.
  - intros height Hmiss. rewrite (getBlockHeaderByHeight_run _ _ _ _ _ _ Hmiss).
    split; [intros e ->; reflexivity|]. intros top ->. split.
    + intros Hnone.
      rewrite (proj2 (firstn1_filter_nil (fun b => b_height b = height) (blocks db)));
        [reflexivity | exact Hnone].
    + intros (b & Hb & Hh).
      destruct (filter (fun b => b_height b = height) (blocks db)) as [|b1 rest] eqn:Hf.
      * assert (Hin : b ∈ filter (fun b => b_height b = height) (blocks db))
          by (apply list_elem_of_filter; now split).
        rewrite Hf in Hin. inversion Hin.
      * assert (Hin : b1 ∈ filter (fun b => b_height b = height) (blocks db))
          by (rewrite Hf; left).
        apply list_elem_of_filter in Hin as [Hh1 Hb1].
        eexists. split; [reflexivity|]. now split.
Qed.

Lemma header_lookup_not_found_witness :
  snd (getBlockHeaderByHash (fun s => s) 30 chain2 0 "zz" None)
  = Some (Rejected (Err "Requested block not found"))
  /\ snd (getBlockHeaderByHeight (fun s => s) 30 (blocksOnly []) 0 7 None)
     = Some (Rejected (Err "No blocks found in backend storage")).
Proof.
  destruct (header_lookup_not_found (fun s => s) 30 chain2 0 None) as [Hhash _].
  destruct (header_lookup_not_found (fun s => s) 30 (blocksOnly []) 0 None) as [_ Hheight].
  split.
  - destruct (Hhash "zz" eq_refl) as [_ Htop].
    destruct (Htop {| h_block := sampleBlock "bb" 1 1030; h_depth := 0;
                      h_transactionCount := 0 |}) as [Hnone _];
      [vm_compute; reflexivity|].
    apply Hnone. intros b Hb.
    repeat (apply elem_of_cons in Hb as [-> | Hb]); [discriminate | discriminate | inversion Hb].
  - destruct (Hheight 7 eq_refl) as [Hrej _]. apply Hrej. vm_compute. reflexivity.
Defined.

(** X5: [getBlockHeight] is never answered from its own cache entry, because
    the number it stores reads back as a miss: it resolves the height of
    the header that [getBlockHeaderByHash] resolves for the hash in the
    same state, and rejects with the error of that operation. *)
Theorem getBlockHeight_follows_header :
  forall (sha256 : string -> string) (defaultTTL : Z) (db : Database) (now : Z)
         (w : option Cache) (hash : string),
    snd (getBlockHeight sha256 defaultTTL db now hash w) =
    match snd (getBlockHeaderByHash sha256 defaultTTL db now hash w) with
    | Some (Fulfilled block) => Some (Fulfilled (b_height (h_block block)))
    | Some (Rejected e) => Some (Rejected e)
    | None => None
    end.
Proof.
  intros sha256 defaultTTL db now w hash.
  unfold getBlockHeight. run_chain. rewrite checkCache_number. cbn.
  destruct (getBlockHeaderByHash sha256 defaultTTL db now hash w) as [w1 [[block|e]|]];
    cbn; try reflexivity.
  destruct w1 as [c|]; cbn; [|reflexivity].
  now destruct (b_height (h_block block) =? 0).
Qed.

(** ** Operations that keep their own entries *)

(** Unfolds the links of a chain over a [Store]. *)
Ltac run_store :=
  unfold newPromise, thenable, catch, bind, store_checkCache, store_setCache, whenCached,
    await, resolve, reject, throw, ret, settle, setCache, RedisCache_set;
  cbn -[checkCache].

Section SharedEntryFacts.

Variable sha256 : string -> string.
Variable defaultTTL : Z.

Lemma getTransactionPool_world db now (client : gmap string (CountOrPool * Z)) :
  fst (getTransactionPool sha256 defaultTTL db now (Some client))
  = Some (<[sha256 "getBlockCount" := (Pool (transaction_pool db), now + 5)]> client).
Proof.
  unfold getTransactionPool. run_store.
  now destruct (checkCache sha256 (Some client) now "getBlockCount").
Qed.

Lemma getBlockCount_world db now (client : gmap string (CountOrPool * Z)) :
  blocks db <> [] ->
  fst (getBlockCount sha256 defaultTTL db now (Some client))
  = Some (<[sha256 "getBlockCount" := (Count (Z.of_nat (length (blocks db))), now + 5)]>
            client).
Proof.
  intros Hne. unfold getBlockCount. run_store.
  assert (Hcnt : (Z.of_nat (length (blocks db)) =? 0) = false).
  { apply Z.eqb_neq. destruct (blocks db); [congruence | cbn; lia]. }
  rewrite Hcnt.
  now destruct (checkCache sha256 (Some client) now "getBlockCount").
Qed.

Lemma getBlockCount_hit db now w cached :
  checkCache sha256 w now "getBlockCount" = Some cached ->
  snd (getBlockCount sha256 defaultTTL db now w) = Some (Fulfilled cached).
Proof.
  intros Hc. unfold getBlockCount. run_store.
  destruct w as [client|]; [|discriminate]. cbn in *. rewrite Hc. cbn.
  now destruct (Z.of_nat (length (blocks db)) =? 0).
Qed.

Lemma getTransactionPool_miss db now w :
  checkCache sha256 w now "getBlockCount" = None ->
  snd (getTransactionPool sha256 defaultTTL db now w)
  = Some (Fulfilled (Pool (transaction_pool db))).
Proof.
  intros Hc. unfold getTransactionPool. run_store.
  destruct w as [client|]; cbn in *; [|reflexivity]. now rewrite Hc.
Qed.

End SharedEntryFacts.

(** X6: [getBlockCount] and [getTransactionPool] keep their results under
    the same key.  With a Redis backend, a call of [getBlockCount] within
    five seconds of a call of [getTransactionPool] that found transactions
    resolves those pool rows instead of a count.  The count that
    [getBlockCount] stores is a number and reads back as a miss, so it never
    disturbs [getTransactionPool]; without a backend [getBlockCount]
    resolves the number of blocks. *)
Theorem getBlockCount_entry_shared_with_pool :
  forall (sha256 : string -> string) (defaultTTL : Z) (db db' : Database) (now later : Z)
         (client : gmap string (CountOrPool * Z)),
    (transaction_pool db <> [] -> later < now + 5 ->
     snd (getBlockCount sha256 defaultTTL db' later
            (fst (getTransactionPool sha256 defaultTTL db now (Some client))))
     = Some (Fulfilled (Pool (transaction_pool db))))
    /\ (blocks db <> [] ->
        snd (getTransactionPool sha256 defaultTTL db' later
               (fst (getBlockCount sha256 defaultTTL db now (Some client))))
        = Some (Fulfilled (Pool (transaction_pool db'))))
    /\ snd (getBlockCount sha256 defaultTTL db now None)
       = Some (Fulfilled (Count (Z.of_nat (length (blocks db))))).
Proof.
  intros sha256 defaultTTL db db' now later client. split; [|split].
  - intros Hpool Hlater. apply getBlockCount_hit.
    rewrite getTransactionPool_world. unfold checkCache, RedisCache_get.
    rewrite lookup_insert_eq.
    destruct (Z.ltb_spec later (now + 5)); [|lia]. cbn.
    destruct (transaction_pool db); [congruence | reflexivity].
  - intros Hblocks. apply getTransactionPool_miss.
    rewrite (getBlockCount_world _ _ _ _ _ Hblocks). unfold checkCache, RedisCache_get.
    rewrite lookup_insert_eq.
    destruct (later <? now + 5); [|reflexivity]. cbn.
    now destruct (Z.of_nat (length (blocks db)) =? 0).
  - reflexivity.
Qed.

Lemma getBlockCount_entry_shared_with_pool_witness :
  snd (getBlockCount (fun s => s) 30 chain3 4
         (fst (getTransactionPool (fun s => s) 30 poolAndBlock 0 (Some ∅))))
  = Some (Fulfilled (Pool ["aa"; "bb"]))
  /\ snd (getTransactionPool (fun s => s) 30 poolAndBlock 4
            (fst (getBlockCount (fun s => s) 30 chain3 0 (Some ∅))))
     = Some (Fulfilled (Pool ["aa"; "bb"])).
Proof.
  split.
  - apply (getBlockCount_entry_shared_with_pool (fun s => s) 30 poolAndBlock chain3 0 4 ∅);
      [discriminate | lia].
  - apply (getBlockCount_entry_shared_with_pool (fun s => s) 30 chain3 poolAndBlock 0 4 ∅).
    discriminate.
Defined.

Section BlockListFacts.

Variable sha256 : string -> string.
Variable defaultTTL : Z.

#[local] Instance keyGe_trans' {X} (key : X -> Z) : Transitive (keyGe key).
Proof. unfold keyGe. intros a b c ? ?. lia. Qed.

#[local] Instance keyGe_total' {X} (key : X -> Z) : Total (keyGe key).
Proof. unfold keyGe. intros a b. lia. Qed.

#[local] Instance keyLe_trans' {X} (key : X -> Z) : Transitive (keyLe key).
Proof. unfold keyLe. intros a b c ? ?. lia. Qed.

#[local] Instance keyLe_total' {X} (key : X -> Z) : Total (keyLe key).
Proof. unfold keyLe. intros a b. lia. Qed.

Lemma orderDesc_sorted {X} (key : X -> Z) (l : list X) :
  StronglySorted (fun a b => key b <= key a) (orderDesc key l).
Proof. apply (StronglySorted_sortRows (keyGe key)). Qed.

Lemma orderAsc_sorted {X} (key : X -> Z) (l : list X) :
  StronglySorted (fun a b => key a <= key b) (orderAsc key l).
Proof. apply (StronglySorted_sortRows (keyLe key)). Qed.

Lemma orderAsc_perm {X} (key : X -> Z) (l : list X) : orderAsc key l ≡ₚ l.
Proof. apply sortRows_Permutation. Qed.

(** One block for each height: the heights from [lo] to [hi] hold at most
    [hi - lo + 1] blocks. *)
Lemma between_length (l : list BlockRow) (lo hi : Z) :
  NoDup (b_height <$> l) ->
  (length (filter (fun b => (lo <= b_height b /\ b_height b <= hi)%Z) l)
   <= Z.to_nat (hi - lo + 1))%nat.
Proof.
  intros Hnodup.
  set (rows := filter (fun b => lo <= b_height b /\ b_height b <= hi) l).
  assert (Hsub : NoDup (b_height <$> rows)).
  { eapply sublist_NoDup; [exact Hnodup|]. apply fmap_sublist, sublist_filter. }
  assert (Hin : forall h, h ∈ b_height <$> rows -> h ∈ seqZ lo (hi - lo + 1)).
  { intros h Hh. apply list_elem_of_fmap in Hh as (b & -> & Hb).
    apply list_elem_of_filter in Hb as [[Hlo Hhi] _]. apply elem_of_seqZ. lia. }
  pose proof (submseteq_length _ _ (NoDup_submseteq _ _ Hsub Hin)) as Hlen.
  rewrite length_fmap, length_seqZ in Hlen. exact Hlen.
Qed.

Lemma getBlocks_run db now height count (w : option (gmap string (list BlockListing * Z))) :
  let cnt := match count with
             | Some n => if n =? 0 then 30 else n
             | None => 30
             end in
  let cacheName := "getBlocks" +:+ toString10 height +:+ toString10 cnt in
  let rows := blocksBetween db (height - (cnt - 1)) height in
  getBlocks sha256 defaultTTL db now height count w
  = (match w with
     | Some client => Some (<[sha256 cacheName := (rows, now + 5)]> client)
     | None => None
     end,
     Some (Fulfilled (default rows (checkCache sha256 w now cacheName)))).
Proof.
  cbv zeta. unfold getBlocks, blocksBetween. run_store.
  destruct w as [client|]; cbn -[checkCache]; [|reflexivity].
  match goal with |- context [checkCache ?s ?c ?n ?k] => destruct (checkCache s c n k) end;
    reflexivity.
Qed.

End BlockListFacts.

(** X7: when [getBlocks(height, count)] is not served from the cache it
    resolves the blocks whose height lies between [height - (cnt - 1)] and
    [height], where [cnt] is [count], or 30 when [count] is absent or 0;
    the rows come highest first, and when no two blocks share a height
    there are at most [cnt] of them. *)
Theorem getBlocks_window :
  forall (sha256 : string -> string) (defaultTTL : Z) (db : Database) (now : Z)
         (w : option (gmap string (list BlockListing * Z))) (height : Z)
         (count : option Z),
    let cnt := match count with
               | Some n => if n =? 0 then 30 else n
               | None => 30
               end in
    checkCache sha256 w now ("getBlocks" +:+ toString10 height +:+ toString10 cnt) = None ->
    exists rows,
      snd (getBlocks sha256 defaultTTL db now height count w) = Some (Fulfilled rows)
      /\ (forall r, r ∈ rows <->
            exists b, b ∈ blocks db /\ height - (cnt - 1) <= b_height b <= height
                      /\ r = blockListing db b)
      /\ StronglySorted (fun a b => bl_height b <= bl_height a) rows
      /\ (NoDup (b_height <$> blocks db) -> (length rows <= Z.to_nat cnt)%nat).
Proof.
  intros sha256 defaultTTL db now w height count cnt Hmiss.
  pose proof (getBlocks_run sha256 defaultTTL db now height count w) as Hrun.
  cbv zeta in Hrun. fold cnt in Hrun. rewrite Hrun, Hmiss. cbn [snd default].
  eexists. split; [reflexivity|]. unfold blocksBetween. split; [|split].
  - intros r. rewrite list_elem_of_fmap. split.
    + intros (b & -> & Hb). rewrite orderDesc_perm in Hb.
      apply list_elem_of_filter in Hb as [Hrange Hb]. now exists b.
    + intros (b & Hb & Hrange & ->). exists b. split; [reflexivity|].
      rewrite orderDesc_perm. apply list_elem_of_filter. now split.
  - apply (StronglySorted_fmap _ (fun a b => b_height b <= b_height a)); [auto|].
    apply orderDesc_sorted.
  - intros Hnodup. rewrite length_fmap.
    rewrite (Permutation_length (orderDesc_perm b_height _)).
    etransitivity; [apply between_length; exact Hnodup|]. lia.
Qed.

Lemma getBlocks_window_witness :
  exists rows,
    snd (getBlocks (fun s => s) 30 chain3 0 2 (Some 2) None) = Some (Fulfilled rows)
    /\ bl_height <$> rows = [2; 1].
Proof.
  destruct (getBlocks_window (fun s => s) 30 chain3 0 None 2 (Some 2) eq_refl)
    as (rows & Hrows & _).
  exists rows. split; [exact Hrows|].
  vm_compute in Hrows. injection Hrows as <-. reflexivity.
Defined.

(** X8: the key of [getBlocks] is the text 'getBlocks' followed by the
    digits of the height and of the count, so two calls whose digits read
    the same in a row share one entry.  With a Redis backend, a call for
    such a pair within five seconds of a call that found blocks resolves
    the blocks of the first call, which lie in the window of the first
    call. *)
Theorem getBlocks_key_collision :
  forall (sha256 : string -> string) (defaultTTL : Z) (db db' : Database) (now later : Z)
         (client : gmap string (list BlockListing * Z)) (height1 height2 : Z)
         (count1 count2 : option Z),
    let cnt count := match count with
                     | Some n => if n =? 0 then 30 else n
                     | None => 30
                     end in
    toString10 height1 +:+ toString10 (cnt count1)
    = toString10 height2 +:+ toString10 (cnt count2) ->
    later < now + 5 ->
    (exists b, b ∈ blocks db
               /\ height1 - (cnt count1 - 1) <= b_height b <= height1) ->
    exists rows,
      snd (getBlocks sha256 defaultTTL db' later height2 count2
             (fst (getBlocks sha256 defaultTTL db now height1 count1 (Some client))))
      = Some (Fulfilled rows)
      /\ rows <> []
      /\ forall r, r ∈ rows ->
           exists b, b ∈ blocks db
                     /\ height1 - (cnt count1 - 1) <= b_height b <= height1
                     /\ r = blockListing db b.
Proof.
  intros sha256 defaultTTL db db' now later client height1 height2 count1 count2 cnt
         Hkey Hlater (b0 & Hb0 & Hrange0).
  pose proof (getBlocks_run sha256 defaultTTL db now height1 count1 (Some client)) as Hrun1.
  cbv zeta in Hrun1. fold (cnt count1) in Hrun1. rewrite Hrun1. cbn [fst].
  pose proof (getBlocks_run sha256 defaultTTL db' later height2 count2) as Hrun2.
  cbv zeta in Hrun2. fold (cnt count2) in Hrun2. rewrite Hrun2. cbn [snd].
  set (rows := blocksBetween db (height1 - (cnt count1 - 1)) height1).
  assert (Hin : forall r, r ∈ rows <->
            exists b, b ∈ blocks db /\ height1 - (cnt count1 - 1) <= b_height b <= height1
                      /\ r = blockListing db b).
  { intros r. unfold rows, blocksBetween. rewrite list_elem_of_fmap. split.
    - intros (b & -> & Hb). rewrite orderDesc_perm in Hb.
      apply list_elem_of_filter in Hb as [Hrange Hb]. now exists b.
    - intros (b & Hb & Hrange & ->). exists b. split; [reflexivity|].
      rewrite orderDesc_perm. apply list_elem_of_filter. now split. }
  assert (Hne : rows <> []).
  { intros Hnil. assert (Hr : blockListing db b0 ∈ rows) by (apply Hin; now exists b0).
    rewrite Hnil in Hr. inversion Hr. }
  exists rows. split; [|split; [exact Hne | intros r Hr; now apply Hin]].
  rewrite <- Hkey. unfold checkCache, RedisCache_get. rewrite lookup_insert_eq.
  destruct (Z.ltb_spec later (now + 5)); [|lia]. cbn.
  destruct rows; [congruence | reflexivity].
Qed.

Lemma getBlocks_key_collision_witness :
  exists rows,
    snd (getBlocks (fun s => s) 30 (blocksOnly []) 3 12 (Some 3)
           (fst (getBlocks (fun s => s) 30 chain3 0 1 (Some 23) (Some ∅))))
    = Some (Fulfilled rows)
    /\ bl_height <$> rows = [1; 0].
Proof.
  destruct (getBlocks_key_collision (fun s => s) 30 chain3 (blocksOnly []) 0 3 ∅ 1 12
              (Some 23) (Some 3)) as (rows & Hrows & _).
  - reflexivity.
  - lia.
  - exists (sampleBlock "aa" 0 1000). split; [left | cbn; lia].
  - exists rows. split; [exact Hrows|].
    vm_compute in Hrows. injection Hrows as <-. reflexivity.
Defined.

Section AmountKeyFacts.

Variable sha256 : string -> string.
Variable defaultTTL : Z.
Variable db : Database.
Variable now : Z.

(** The rows that the statement of [getAmountKeys] selects. *)
Lemma getAmountKeys_run amount i globalIndexes
    (w : option (gmap string (list AmountKey * Z))) :
  checkCache sha256 w now
    ("getAmountKeys" +:+ toString10 amount +:+ stringifyNumbers (i :: globalIndexes)) = None ->
  let rows :=
    amountKey <$> orderAsc or_globalIndex
      (filter (fun r => or_amount r = amount /\ or_globalIndex r ∈ i :: globalIndexes)
              (transaction_outputs db)) in
  snd (getAmountKeys sha256 defaultTTL db now amount (i :: globalIndexes) w)
  = if (length rows =? length (i :: globalIndexes))%nat
    then Some (Fulfilled rows)
    else Some (Rejected (Err ("Data consistency error, could not provide all keys "
                              +:+ "for supplied globalIndexes"))).
Proof.
  intros Hmiss. cbv zeta. unfold getAmountKeys.
  remember ("getAmountKeys" +:+ toString10 amount +:+ stringifyNumbers (i :: globalIndexes))
    as cacheName eqn:Hname.
  assert (Hw : (fun m : gmap string (list AmountKey * Z) => m) <$> w = w) by now destruct w.
  run_store. rewrite Hw, Hmiss. cbn -[checkCache].
  match goal with
  | |- context [(?a =? ?b)%nat] => destruct (a =? b)%nat
  end; cbn -[checkCache]; [|reflexivity].
  now destruct w.
Qed.

(** Rows that differ in nothing that [key] sees are one row, when [key]
    takes each value once. *)
Lemma NoDup_fmap_inj_on {X K} (key : X -> K) (l : list X) (x y : X) :
  NoDup (key <$> l) -> x ∈ l -> y ∈ l -> key x = key y -> x = y.
Proof.
  induction l as [|a l IH]; cbn; intros Hnd Hx Hy Heq; [inversion Hx|].
  apply NoDup_cons in Hnd as [Hna Hnd].
  apply elem_of_cons in Hx as [-> | Hx]; apply elem_of_cons in Hy as [-> | Hy].
  - reflexivity.
  - exfalso. apply Hna. rewrite Heq. now apply list_elem_of_fmap_2.
  - exfalso. apply Hna. rewrite <- Heq. now apply list_elem_of_fmap_2.
  - now apply IH.
Qed.

(** The indexes of the outputs of one amount are all different when the
    store holds one output for each pair of an amount and an index. *)
Lemma selected_indexes_NoDup amount (wanted : list Z) :
  NoDup ((fun r => (or_amount r, or_globalIndex r)) <$> transaction_outputs db) ->
  NoDup (or_globalIndex <$>
           filter (fun r => or_amount r = amount /\ or_globalIndex r ∈ wanted)
                  (transaction_outputs db)).
Proof.
  intros Hnd.
  set (selected := filter _ (transaction_outputs db)).
  assert (Hsub : sublist selected (transaction_outputs db)) by apply sublist_filter.
  assert (Hnd' : NoDup ((fun r => (or_amount r, or_globalIndex r)) <$> selected)).
  { eapply sublist_NoDup; [exact Hnd|]. now apply fmap_sublist. }
  apply NoDup_fmap_2_strong; [|eapply NoDup_fmap_1; exact Hnd'].
  intros x y Hx Hy Heq.
  apply (NoDup_fmap_inj_on (fun r => (or_amount r, or_globalIndex r)) selected);
    try assumption.
  apply list_elem_of_filter in Hx as [[Hx _] _].
  apply list_elem_of_filter in Hy as [[Hy _] _]. congruence.
Qed.

End AmountKeyFacts.

(** X9: [getAmountKeys(amount, globalIndexes)], when it is not served from
    the cache and the store holds one output for each pair of an amount and
    an index, answers all or nothing.  If the requested indexes are all
    different and each is the index of an output of the amount, it resolves
    one row for each of them, in ascending order of the index, each with
    the key of the stored output.  If an index is missing, or is given
    twice, it rejects with the data-consistency error; with no index at all
    the statement is malformed and the store's error is the rejection. *)
Theorem getAmountKeys_all_or_nothing :
  forall (sha256 : string -> string) (defaultTTL : Z) (db : Database) (now : Z)
         (w : option (gmap string (list AmountKey * Z))) (amount : Z)
         (globalIndexes : list Z),
    checkCache sha256 w now
      ("getAmountKeys" +:+ toString10 amount +:+ stringifyNumbers globalIndexes) = None ->
    NoDup ((fun r => (or_amount r, or_globalIndex r)) <$> transaction_outputs db) ->
    let present i :=
      exists r, r ∈ transaction_outputs db /\ or_amount r = amount
                /\ or_globalIndex r = i in
    (globalIndexes = [] ->
     snd (getAmountKeys sha256 defaultTTL db now amount globalIndexes w)
     = Some (Rejected QueryError))
    /\ (globalIndexes <> [] -> NoDup globalIndexes ->
        (forall i, i ∈ globalIndexes -> present i) ->
        exists rows,
          snd (getAmountKeys sha256 defaultTTL db now amount globalIndexes w)
          = Some (Fulfilled rows)
          /\ ak_globalIndex <$> rows ≡ₚ globalIndexes
          /\ StronglySorted (fun a b => ak_globalIndex a <= ak_globalIndex b) rows
          /\ forall row, row ∈ rows ->
               exists r, r ∈ transaction_outputs db /\ or_amount r = amount
                         /\ or_globalIndex r = ak_globalIndex row
                         /\ or_key r = ak_key row)
    /\ (globalIndexes <> [] ->
        ~ (NoDup globalIndexes /\ forall i, i ∈ globalIndexes -> present i) ->
        snd (getAmountKeys sha256 defaultTTL db now amount globalIndexes w)
        = Some (Rejected (Err ("Data consistency error, could not provide all keys "
                               +:+ "for supplied globalIndexes")))).
Proof.
  intros sha256 defaultTTL db now w amount globalIndexes Hmiss Hunique present.
  split.
  { intros ->. unfold getAmountKeys.
    assert (Hw : (fun m : gmap string (list AmountKey * Z) => m) <$> w = w)
      by now destruct w.
    run_store. cbn in Hmiss. rewrite Hw, Hmiss. reflexivity. }
  destruct globalIndexes as [|i0 rest]; [split; congruence|].
  rewrite (getAmountKeys_run sha256 defaultTTL db now amount i0 rest w Hmiss).
  set (wanted := i0 :: rest) in *.
  set (selected := filter (fun r => or_amount r = amount /\ or_globalIndex r ∈ wanted)
                          (transaction_outputs db)).
  pose proof (selected_indexes_NoDup db amount wanted Hunique) as Hnd. fold selected in Hnd.
  assert (Hsub : forall i, i ∈ or_globalIndex <$> selected -> i ∈ wanted).
  { intros i Hi. apply list_elem_of_fmap in Hi as (r & -> & Hr).
    now apply list_elem_of_filter in Hr as [[_ Hr] _]. }
  assert (Hsel : forall i, i ∈ or_globalIndex <$> selected <-> i ∈ wanted /\ present i).
  { intros i. split.
    - intros Hi. split; [now apply Hsub|].
      apply list_elem_of_fmap in Hi as (r & -> & Hr).
      apply list_elem_of_filter in Hr as [[Ha _] Hr]. now exists r.
    - intros (Hi & r & Hr & Ha & <-). apply list_elem_of_fmap_2.
      apply list_elem_of_filter. now split. }
  assert (Hlen : length (amountKey <$> orderAsc or_globalIndex selected) = length selected).
  { now rewrite length_fmap, (Permutation_length (orderAsc_perm or_globalIndex selected)). }
  rewrite Hlen. split.
  - intros _ Hwanted Hpresent.
    assert (Hperm : or_globalIndex <$> selected ≡ₚ wanted).
    { apply NoDup_Permutation; [assumption | assumption |].
      intros i. rewrite Hsel. split; [tauto|]. intros Hi. split; [assumption|].
      now apply Hpresent. }
    rewrite <- (length_fmap or_globalIndex selected), (Permutation_length Hperm),
      Nat.eqb_refl.
    eexists. split; [reflexivity|]. split; [|split].
    + rewrite <- list_fmap_compose.
      change (ak_globalIndex ∘ amountKey) with or_globalIndex.
      now rewrite (orderAsc_perm or_globalIndex selected).
    + apply (StronglySorted_fmap _ (fun a b => or_globalIndex a <= or_globalIndex b));
        [auto|].
      apply orderAsc_sorted.
    + intros row Hrow. apply list_elem_of_fmap in Hrow as (r & -> & Hr).
      rewrite (orderAsc_perm or_globalIndex selected) in Hr.
      apply list_elem_of_filter in Hr as [[Ha _] Hr]. now exists r.
  - intros _ Hnot.
    destruct (Nat.eqb_spec (length selected) (length wanted)) as [Heq|Hne];
      [|reflexivity].
    exfalso. apply Hnot.
    assert (Hperm : or_globalIndex <$> selected ≡ₚ wanted).
    { apply submseteq_length_Permutation.
      - now apply NoDup_submseteq.
      - rewrite length_fmap. lia. }
    split.
    + now rewrite <- Hperm.
    + intros i Hi. rewrite <- Hperm in Hi. now apply Hsel in Hi as [_ Hi].
Qed.

Lemma getAmountKeys_all_or_nothing_witness :
  (exists rows,
      snd (getAmountKeys (fun s => s) 30 (outputsOfSeven 5) 0 7 [3; 1] None)
      = Some (Fulfilled rows)
      /\ ak_globalIndex <$> rows = [1; 3])
  /\ snd (getAmountKeys (fun s => s) 30 (outputsOfSeven 5) 0 7 [3; 3] None)
     = Some (Rejected (Err ("Data consistency error, could not provide all keys "
                            +:+ "for supplied globalIndexes"))).
Proof.
  assert (Hunique : NoDup ((fun r => (or_amount r, or_globalIndex r))
                             <$> transaction_outputs (outputsOfSeven 5))).
  { refine (bool_decide_unpack _ _). vm_compute. exact I. }
  split.
  - destruct (getAmountKeys_all_or_nothing (fun s => s) 30 (outputsOfSeven 5) 0 None 7
                [3; 1] eq_refl Hunique) as (_ & Hall & _).
    destruct Hall as (rows & Hrows & _).
    + discriminate.
    + refine (bool_decide_unpack _ _). vm_compute. exact I.
    + intros i Hi.
      repeat (apply elem_of_cons in Hi as [-> | Hi]); [| |inversion Hi].
      * eexists. split; [vm_compute; do 3 right; left | split; reflexivity].
      * eexists. split; [vm_compute; right; left | split; reflexivity].
    + exists rows. split; [exact Hrows|].
      vm_compute in Hrows. injection Hrows as <-. reflexivity.
  - destruct (getAmountKeys_all_or_nothing (fun s => s) 30 (outputsOfSeven 5) 0 None 7
                [3; 3] eq_refl Hunique) as (_ & _ & Hnone).
    apply Hnone; [discriminate|].
    intros [Hnd _]. apply NoDup_cons in Hnd as [Hnin _]. apply Hnin. left.
Defined.

Section BlockDetailFacts.

Variable sha256 : string -> string.
Variable defaultTTL : Z.
Variable db : Database.
Variable now : Z.

(** How [getBlock] settles when it is not served from its cache entry. *)
Lemma getBlock_run (w : option (Cache * gmap string (BlockDetail * Z))) hash :
  checkCache sha256 (snd <$> w) now ("getBlock" +:+ hash) = None ->
  snd (getBlock sha256 defaultTTL db now hash w) =
  match getLastBlockHeader sha256 defaultTTL db now (fst <$> w) with
  | (w1, Some (Fulfilled top)) =>
      match snd (getBlockHeaderByHash sha256 defaultTTL db now hash w1) with
      | Some (Fulfilled block) =>
          Some (Fulfilled
            {| d_header :=
                 {| h_block := h_block block;
                    h_depth := b_height (h_block top) - b_height (h_block block);
                    h_transactionCount := h_transactionCount block |};
               d_transactions :=
                 blockTransaction <$> filter (fun t => t_blockHash t = hash)
                                             (transactions db) |})
      | Some (Rejected e) => Some (Rejected e)
      | None => None
      end
  | (_, Some (Rejected e)) => Some (Rejected e)
  | (_, None) => None
  end.
Proof.
  intros Hmiss. unfold getBlock.
  remember ("getBlock" +:+ hash) as cacheName eqn:Hname.
  run_store. unfold onCache. cbn in Hmiss. rewrite Hmiss. cbn -[checkCache].
  rewrite getLastBlockHeader_run. cbv zeta.
  destruct (firstn 1 (orderDesc b_height (blocks db))) as [|b rest]; cbn -[checkCache].
  - destruct (checkCache sha256 (headers <$> (fst <$> w)) now "getLastBlockHeader")
      as [top|]; cbn -[checkCache]; [|now destruct w as [[c e]|]].
    destruct w as [[c e]|]; cbn -[checkCache];
      (destruct (getBlockHeaderByHash _ _ _ _ _ _) as [w2 [[block|err]|]];
       cbn -[checkCache]; try reflexivity; now destruct w2).
  - destruct w as [[c e]|]; cbn -[checkCache];
      (destruct (getBlockHeaderByHash _ _ _ _ _ _) as [w2 [[block|err]|]];
       cbn -[checkCache]; try reflexivity; now destruct w2).
Qed.

End BlockDetailFacts.

(** X10: when [getBlock(hash)] is not served from its own cache entry and
    resolves, the header it returns is the one that [getBlockHeaderByHash]
    resolves, except for [depth]: that is written again as the height of
    the top header that [getLastBlockHeader] resolved at the start of the
    call minus the height of the block, whatever depth the header carried
    (a header served from the header cache carries the depth of the time
    it was stored).  The transactions are the rows of the block in the
    store.  A rejection of either header operation is the rejection of
    [getBlock]. *)
Theorem getBlock_writes_depth_again :
  forall (sha256 : string -> string) (defaultTTL : Z) (db : Database) (now : Z)
         (w : option (Cache * gmap string (BlockDetail * Z))) (hash : string),
    checkCache sha256 (snd <$> w) now ("getBlock" +:+ hash) = None ->
    let first := getLastBlockHeader sha256 defaultTTL db now (fst <$> w) in
    let second := getBlockHeaderByHash sha256 defaultTTL db now hash (fst first) in
    (forall r,
        snd (getBlock sha256 defaultTTL db now hash w) = Some (Fulfilled r) ->
        exists top block,
          snd first = Some (Fulfilled top) /\ snd second = Some (Fulfilled block)
          /\ h_block (d_header r) = h_block block
          /\ h_transactionCount (d_header r) = h_transactionCount block
          /\ h_depth (d_header r) = b_height (h_block top) - b_height (h_block block)
          /\ d_transactions r
             = blockTransaction <$> filter (fun t => t_blockHash t = hash)
                                           (transactions db))
    /\ (forall e, snd first = Some (Rejected e) ->
                  snd (getBlock sha256 defaultTTL db now hash w) = Some (Rejected e))
    /\ (forall top e,
          snd first = Some (Fulfilled top) -> snd second = Some (Rejected e) ->
          snd (getBlock sha256 defaultTTL db now hash w) = Some (Rejected e)).
Proof.
  intros sha256 defaultTTL db now w hash Hmiss first second.
  rewrite (getBlock_run _ _ _ _ _ _ Hmiss). unfold second, first.
  destruct (getLastBlockHeader sha256 defaultTTL db now (fst <$> w)) as [w1 [[top|e]|]];
    cbn [fst snd].
  - destruct (snd (getBlockHeaderByHash sha256 defaultTTL db now hash w1))
      as [[block|e]|]; (split; [|split]); try discriminate; try congruence.
    intros r [= <-]. now exists top, block.
  - split; [discriminate|]. split; [congruence | discriminate].
  - split; [discriminate|]. split; discriminate.
Qed.

Lemma getBlock_writes_depth_again_witness :
  let stored := fst (getBlockHeaderByHash (fun s => s) 30 chain2 0 "aa" (Some emptyCache)) in
  exists header detail,
    snd (getBlockHeaderByHash (fun s => s) 30 chain3 6 "aa" stored)
    = Some (Fulfilled header)
    /\ snd (getBlock (fun s => s) 30 chain3 6 "aa" ((fun c => (c, ∅)) <$> stored))
       = Some (Fulfilled detail)
    /\ h_depth header = 1 /\ h_depth (d_header detail) = 2.
Proof.
  cbv zeta.
  set (stored := fst (getBlockHeaderByHash (fun s => s) 30 chain2 0 "aa" (Some emptyCache))).
  destruct (getBlock_writes_depth_again (fun s => s) 30 chain3 6
              ((fun c => (c, ∅)) <$> stored) "aa") as (Hok & _).
  { vm_compute. reflexivity. }
  eexists. eexists. split; [vm_compute; reflexivity|]. split; [vm_compute; reflexivity|].
  split; [reflexivity|].
  match goal with
  | |- h_depth (d_header ?detail) = 2 =>
      destruct (Hok detail) as (top & block & Htop & Hblock & _ & _ & Hdepth & _);
        [vm_compute; reflexivity|]
  end.
  vm_compute in Htop, Hblock. injection Htop as <-. injection Hblock as <-.
  rewrite Hdepth. reflexivity.
Defined.

Section PreflightFacts.

Variable sha256 : string -> string.
Variable defaultTTL : Z.
Variable db : Database.
Variable now : Z.

(** The rows of the block statement of the preflight, before [LIMIT]. *)
Lemma preflight_run startHeight startTimestamp checkpoints skip w :
  snd (legacyGetWalletSyncDataPreflight sha256 defaultTTL db now startHeight startTimestamp
         checkpoints skip w) =
  match getLastBlockHeader sha256 defaultTTL db now w with
  | (w1, Some (Fulfilled block)) =>
      match snd (findCurrentSyncHeight sha256 defaultTTL db now checkpoints startHeight
                   startTimestamp w1) with
      | Some (Fulfilled syncHeight) =>
          let top := b_height (h_block block) in
          let blockCount := Z.min 100 (top - syncHeight + 1) in
          if blockCount <? 0 then Some (Rejected QueryError)
          else
            Some (Fulfilled
              {| pf_topBlock := {| top_height := top; top_hash := b_hash (h_block block) |};
                 pf_networkHeight := 0;
                 pf_height := syncHeight;
                 pf_blockCount := blockCount;
                 pf_blockHashes :=
                   s_hash <$> firstn (Z.to_nat blockCount)
                     (orderAsc s_height
                        (filter (fun s => skip = true -> moreThanCoinbase s = true)
                           (blockSummary db <$>
                              filter (fun b => syncHeight <= b_height b
                                               /\ b_height b <= top) (blocks db)))) |})
      | Some (Rejected e) => Some (Rejected e)
      | None => None
      end
  | (_, Some (Rejected e)) => Some (Rejected e)
  | (_, None) => None
  end.
Proof.
  unfold legacyGetWalletSyncDataPreflight, thenable, bind, await, ret, throw. cbn.
  destruct (getLastBlockHeader sha256 defaultTTL db now w) as [w1 [[block|e]|]];
    cbn; try reflexivity.
  destruct (findCurrentSyncHeight sha256 defaultTTL db now checkpoints startHeight
              startTimestamp w1) as [w2 [[syncHeight|e]|]];
    cbn; try reflexivity.
  assert (Hmin : (if 100 <? b_height (h_block block) - syncHeight + 1 then 100
                  else b_height (h_block block) - syncHeight + 1)
                 = Z.min 100 (b_height (h_block block) - syncHeight + 1)).
  { destruct (Z.ltb_spec 100 (b_height (h_block block) - syncHeight + 1)); lia. }
  rewrite !Hmin.
  now destruct (Z.min 100 (b_height (h_block block) - syncHeight + 1) <? 0).
Qed.

End PreflightFacts.

(** X11: the preflight of the legacy wallet sync reports, when it resolves,
    the top header that [getLastBlockHeader] resolved, [networkHeight] 0,
    the resume height of [findCurrentSyncHeight] as [height], and as
    [blockCount] the number of heights from the resume height to the top,
    but never more than 100 and never less than 0; it lists at most
    [blockCount] hashes, each the hash of a stored block whose height lies
    between the resume height and the top.  When the resume height is more
    than one above the top, the count is negative, the store refuses the
    statement and the preflight rejects. *)
Theorem preflight_block_count :
  forall (sha256 : string -> string) (defaultTTL : Z) (db : Database) (now : Z)
         (w : option Cache) (startHeight startTimestamp : option Z)
         (checkpoints : list string) (skip : bool),
    let preflight :=
      snd (legacyGetWalletSyncDataPreflight sha256 defaultTTL db now startHeight
             startTimestamp checkpoints skip w) in
    let first := getLastBlockHeader sha256 defaultTTL db now w in
    let second := findCurrentSyncHeight sha256 defaultTTL db now checkpoints startHeight
                    startTimestamp (fst first) in
    (forall r,
        preflight = Some (Fulfilled r) ->
        (exists top,
            snd first = Some (Fulfilled top)
            /\ top_height (pf_topBlock r) = b_height (h_block top)
            /\ top_hash (pf_topBlock r) = b_hash (h_block top))
        /\ snd second = Some (Fulfilled (pf_height r))
        /\ pf_networkHeight r = 0
        /\ pf_blockCount r = Z.min 100 (top_height (pf_topBlock r) - pf_height r + 1)
        /\ 0 <= pf_blockCount r <= 100
        /\ (length (pf_blockHashes r) <= Z.to_nat (pf_blockCount r))%nat
        /\ forall h, h ∈ pf_blockHashes r ->
             exists b, b ∈ blocks db /\ b_hash b = h
                       /\ pf_height r <= b_height b <= top_height (pf_topBlock r))
    /\ (forall top syncHeight,
          snd first = Some (Fulfilled top) ->
          snd second = Some (Fulfilled syncHeight) ->
          b_height (h_block top) + 1 < syncHeight ->
          preflight = Some (Rejected QueryError)).
Proof.
  intros sha256 defaultTTL db now w startHeight startTimestamp checkpoints skip
         preflight first second.
  unfold preflight, second, first. rewrite preflight_run.
  destruct (getLastBlockHeader sha256 defaultTTL db now w) as [w1 [[top|e]|]];
    cbn [fst snd]; [|split; [discriminate | intros; discriminate]..].
  destruct (snd (findCurrentSyncHeight sha256 defaultTTL db now checkpoints startHeight
                   startTimestamp w1)) as [[syncHeight|e]|];
    [|split; [discriminate | intros; discriminate]..].
  cbv zeta. split.
  - intros r.
    destruct (Z.ltb_spec (Z.min 100 (b_height (h_block top) - syncHeight + 1)) 0)
      as [Hneg|Hpos]; [discriminate|].
    intros [= <-]. cbn.
    split; [now exists top|]. split; [reflexivity|]. split; [reflexivity|].
    split; [reflexivity|]. split; [lia|]. split.
    + rewrite length_fmap, length_take. lia.
    + intros h Hh. apply list_elem_of_fmap in Hh as (s & -> & Hs).
      apply elem_of_take in Hs as (i & Hs & _). apply list_elem_of_lookup_2 in Hs.
      rewrite (orderAsc_perm s_height) in Hs.
      apply list_elem_of_filter in Hs as [_ Hs].
      apply list_elem_of_fmap in Hs as (b & -> & Hb).
      apply list_elem_of_filter in Hb as [Hrange Hb]. now exists b.
  - intros top' syncHeight' [= <-] [= <-] Hbeyond.
    destruct (Z.ltb_spec (Z.min 100 (b_height (h_block top) - syncHeight + 1)) 0);
      [reflexivity | lia].
Qed.

Lemma preflight_block_count_witness :
  (exists r,
      snd (legacyGetWalletSyncDataPreflight (fun s => s) 30 chain3 0 (Some 1) None [] false
             None) = Some (Fulfilled r)
      /\ pf_blockCount r = 2 /\ pf_blockHashes r = ["bb"; "cc"])
  /\ snd (legacyGetWalletSyncDataPreflight (fun s => s) 30 chain3 0 (Some 4) None [] false
            None) = Some (Rejected QueryError).
Proof.
  destruct (preflight_block_count (fun s => s) 30 chain3 0 None (Some 1) None [] false)
    as [Hok _].
  destruct (preflight_block_count (fun s => s) 30 chain3 0 None (Some 4) None [] false)
    as [_ Hbeyond].
  split.
  - eexists. split; [vm_compute; reflexivity|].
    match goal with
    | |- pf_blockCount ?r = 2 /\ _ =>
        destruct (Hok r) as (_ & _ & _ & Hcount & _); [vm_compute; reflexivity|]
    end.
    split; [rewrite Hcount|]; reflexivity.
  - apply (Hbeyond {| h_block := sampleBlock "cc" 2 1060; h_depth := 0;
                      h_transactionCount := 0 |} 4);
      [vm_compute; reflexivity | vm_compute; reflexivity | cbn; lia].
Defined.

(** ** The sync height resolver: bounds and monotonicity *)

Section ResumeFacts.

Variable db : Database.

Lemma greatest_is_Some (l : list Z) x : x ∈ l -> exists m, greatest l = Some m /\ x <= m.
Proof.
  intros Hx. destruct l as [|a l]; [inversion Hx|].
  destruct (fold_max_spec a l) as [_ Hmax]. cbn. eexists. split; [reflexivity|].
  now apply Hmax.
Qed.

Lemma greatest_mono (l l' : list Z) m :
  (forall x, x ∈ l -> x ∈ l') -> greatest l = Some m ->
  exists m', greatest l' = Some m' /\ m <= m'.
Proof.
  intros Hsub Hm. apply greatest_spec in Hm as [Hin _].
  apply greatest_is_Some. now apply Hsub.
Qed.








End ResumeFacts.



(** ** The block assembler: what a resolved block looks like, and what is
    cached *)

Section AssemblerOutcomes.

Variable sha256 : string -> string.
Variable defaultTTL : Z.
Variable db : Database.
Variable now : Z.

Lemma getTransactionsByBlock_steady blockHash :
  steady (getTransactionsByBlock sha256 defaultTTL db now blockHash).
Proof.
  intros w. unfold getTransactionsByBlock. run_chain.
  destruct (checkCache sha256 (transactionRows <$> w) now _) as [cached|]; cbn;
    (destruct (txnRow <$> filter _ (transactions db)) as [|row rows]; cbn;
     [split; [eauto | reflexivity]
     | destruct w; cbn; (split; [eauto|]); split; intros [? ?]; eauto; discriminate]).
Qed.

Lemma getTransactionInputs_steady hash :
  steady (getTransactionInputs sha256 defaultTTL db now hash (Some false)).
Proof.
  intros w. unfold getTransactionInputs. run_chain.
  destruct (checkCache sha256 (inputRows <$> w) now _) as [cached|]; cbn;
    (destruct (orderBy inputRecordLeb _) as [|row rows]; cbn;
     [split; [eauto | reflexivity]
     | destruct w; cbn; (split; [eauto|]); split; intros [? ?]; eauto; discriminate]).
Qed.

Lemma getTransactionOutputs_steady hash :
  steady (getTransactionOutputs sha256 defaultTTL db now (Some hash) (Some false)).
Proof.
  intros w. unfold getTransactionOutputs. run_chain.
  destruct (checkCache sha256 (outputRows <$> w) now _) as [cached|]; cbn;
    (destruct (orderAsc or_outputIndex _) as [|row rows]; cbn;
     [split; [eauto | reflexivity]
     | destruct w; cbn; (split; [eauto|]); split; intros [? ?]; eauto; discriminate]).
Qed.

Lemma all_steady {A} (ps : list (Promise (option Cache) A)) :
  Forall steady ps -> steady (all ps).
Proof.
  unfold all. induction 1 as [|p ps Hp _ IH]; intros w; cbn.
  - split; [eauto | reflexivity].
  - destruct (Hp w) as [[a Ha] Hw]. destruct (p w) as [w1 o]. cbn in *. subst o.
    destruct (IH w1) as [[l Hl] Hw1]. destruct (runAll ps w1) as [w2 os]. cbn in *.
    rewrite Hl. split; [eauto | now rewrite Hw].
Qed.

Lemma pushRows_thrown {Row V R} (txnHash : Row -> option string) (push : Row -> V -> V)
    rows (m : list (string * V)) (x : Exec (option Cache) R) e :
  snd (pushRows txnHash push rows m x) = Thrown e -> e = TypeError.
Proof.
  revert m. induction rows as [|row rows IH]; intros m; cbn; [discriminate|].
  destruct (objAlter (push row) _ m) as [m1|]; [apply IH|].
  now intros [= <-].
Qed.

Lemma pushRows_not_hung {Row V R} (txnHash : Row -> option string) (push : Row -> V -> V)
    rows (m : list (string * V)) (x : Exec (option Cache) R) :
  snd (pushRows txnHash push rows m x) <> Hung.
Proof.
  revert m. induction rows as [|row rows IH]; intros m; cbn; [discriminate|].
  destruct (objAlter (push row) _ m) as [m1|]; [apply IH | discriminate].
Qed.

Lemma pushRows_world {Row V R} (txnHash : Row -> option string) (push : Row -> V -> V)
    rows (m : list (string * V)) (x : Exec (option Cache) R) :
  fst (pushRows txnHash push rows m x) = x.
Proof.
  revert m. induction rows as [|row rows IH]; intros m; cbn; [reflexivity|].
  destruct (objAlter (push row) _ m) as [m1|]; [apply IH | reflexivity].
Qed.

(** The fetch links keep the backend, and the only error they throw is the
    [TypeError] of a row that names no transaction of the map. *)
Lemma assembleTransactions_keeps {R} block (x : Exec (option Cache) R) :
  (is_Some (world x) <->
   is_Some (world (fst (assembleTransactions sha256 defaultTTL db now block x))))
  /\ (forall e, snd (assembleTransactions sha256 defaultTTL db now block x) = Thrown e ->
                e = TypeError)
  /\ snd (assembleTransactions sha256 defaultTTL db now block x) <> Hung.
Proof.
  unfold assembleTransactions, bind, await, ret.
  destruct (getTransactionsByBlock_steady (s_hash block) (world x)) as [[txns Htxns] Hw1].
  destruct (getTransactionsByBlock sha256 defaultTTL db now (s_hash block) (world x))
    as [w1 o1]. cbn in Htxns, Hw1. subst o1. cbn.
  set (transactionMap := foldl _ [] txns).
  match goal with
  | |- context [all ?ps ?w] =>
      let Hst := fresh "Hst" in
      assert (Hst : steady (all ps))
        by (apply all_steady, Forall_fmap, Forall_forall; intros h _;
            apply getTransactionInputs_steady);
      destruct (Hst w) as [[results Hres] Hw2]; destruct (all ps w) as [w2 o2]
  end.
  cbn in Hres, Hw2. subst o2. cbn.
  pose proof (pushRows_world i_txnHash pushInput (concat results) transactionMap
                (mkExec (R:=R) (settled x) w2)) as Hx1.
  pose proof (pushRows_thrown i_txnHash pushInput (concat results) transactionMap
                (mkExec (R:=R) (settled x) w2)) as He1.
  destruct (pushRows i_txnHash pushInput (concat results) transactionMap _)
    as [x1 [m1|e1|]] eqn:Hpush; cbn in *; subst x1.
  - match goal with
    | |- context [all ?ps ?w] =>
        let Hst := fresh "Hst" in
        assert (Hst : steady (all ps))
          by (apply all_steady, Forall_fmap, Forall_forall; intros h _;
              apply getTransactionOutputs_steady);
        destruct (Hst w) as [[results2 Hres2] Hw3]; destruct (all ps w) as [w3 o3]
    end.
    cbn in Hres2, Hw3. subst o3. cbn.
    pose proof (pushRows_world o_txnHash pushOutput (concat results2) m1
                  (mkExec (R:=R) (settled x) w3)) as Hx2.
    pose proof (pushRows_thrown o_txnHash pushOutput (concat results2) m1
                  (mkExec (R:=R) (settled x) w3)) as He2.
    destruct (pushRows o_txnHash pushOutput (concat results2) m1 _)
      as [x2 [m2|e2|]] eqn:Hpush2; cbn in *; subst x2; cbn.
    + split; [now rewrite Hw1, Hw2|]. split; [discriminate | discriminate].
    + split; [now rewrite Hw1, Hw2|]. split; [intros e [= <-]; now apply He2 | discriminate].
    + exfalso. apply (pushRows_not_hung (R:=R) o_txnHash pushOutput (concat results2) m1
                        (mkExec (settled x) w3)). now rewrite Hpush2.
  - split; [now rewrite Hw1|]. split; [intros e [= <-]; now apply He1 | discriminate].
  - exfalso. apply (pushRows_not_hung (R:=R) i_txnHash pushInput (concat results)
                      transactionMap (mkExec (settled x) w2)). now rewrite Hpush.
Qed.

Lemma checkTransactions_raised (txns : list WalletTransaction) e :
  snd (checkTransactions txns) = Raised e -> e = TypeError.
Proof.
  induction txns as [|t rest IH]; cbn; [discriminate|].
  destruct (checkTransaction t) as [|e'|e'] eqn:Ht; cbn.
  - destruct (checkTransactions rest) as [rest' verdict]. exact IH.
  - discriminate.
  - intros [= <-]. unfold checkTransaction in Ht.
    repeat match type of Ht with
           | (if ?c then _ else _) = _ => destruct c
           | match ?m with Some _ => _ | None => _ end = _ => destruct m
           end; congruence.
Qed.

Lemma checkTransaction_not_empty (t : WalletTransaction) :
  checkTransaction t = Passed -> wt_inputs t <> [] \/ wt_outputs t <> [].
Proof.
  unfold checkTransaction.
  destruct (wt_inputs t) as [|i inputs]; destruct (wt_outputs t) as [|o outputs]; cbn;
    try discriminate; intros _; [right | left | left]; discriminate.
Qed.

(** A hit settles the promise with the cached block, whatever the rest of
    the chain does. *)
Lemma buildWalletDataBlock_hit block w cached :
  checkCache sha256 (walletBlocks <$> w) now (s_hash block) = Some cached ->
  snd (buildWalletDataBlock sha256 defaultTTL db now block w) = Some (Fulfilled cached).
Proof.
  intros Hc. unfold buildWalletDataBlock. run_chain. rewrite Hc. cbn.
  pose proof (assembleTransactions_run sha256 defaultTTL db now block
                (mkExec (Some (Fulfilled cached)) w)) as [Hs _].
  destruct (assembleTransactions sha256 defaultTTL db now block _)
    as [x1 [transactions| |]]; cbn in *; rewrite ?Hs; try reflexivity.
  unfold checkWalletBlock. run_chain.
  destruct (countDiffers _ _); cbn.
  - rewrite !Hs. cbn. destruct (world x1); cbn; rewrite ?Hs; reflexivity.
  - destruct (checkTransactions transactions) as [transactions' [|e|e]]; cbn;
      rewrite ?Hs; cbn; try reflexivity; destruct (world x1); cbn; rewrite ?Hs;
      reflexivity.
Qed.

(** What the chain writes to the cache when the assembled block reaches
    the link that stores it. *)
Lemma buildWalletDataBlock_caches block c transactions :
  checkCache sha256 (Some (walletBlocks c)) now (s_hash block) = None ->
  snd (assembleTransactions sha256 defaultTTL db now block
         (mkExec (R:=WalletBlock) None (Some c))) = Next transactions ->
  (countDiffers (s_txnCount block) (length transactions) = true
   \/ forall e, snd (checkTransactions transactions) <> Raised e) ->
  exists c1 kept,
    fst (buildWalletDataBlock sha256 defaultTTL db now block (Some c)) = Some c1
    /\ walletBlocks c1 !! sha256 (s_hash block)
       = Some ({| wb_blockHash := s_hash block; wb_height := s_height block;
                  wb_timestamp := s_timestamp block; wb_transactions := kept |},
               now + 60 * 60 * 24).
Proof.
  intros Hmiss Hassembled Hstored. unfold buildWalletDataBlock. run_chain.
  change (checkCache sha256 (Some (walletBlocks c)) now (s_hash block)) with
    (checkCache sha256 (walletBlocks <$> Some c) now (s_hash block)) in Hmiss.
  cbn in Hmiss |- *. rewrite Hmiss. cbn.
  destruct (assembleTransactions_keeps block (mkExec (R:=WalletBlock) None (Some c)))
    as (Hkeeps & _ & _).
  destruct (assembleTransactions_run sha256 defaultTTL db now block
              (mkExec (R:=WalletBlock) None (Some c))) as [Hsettled _].
  destruct (assembleTransactions sha256 defaultTTL db now block _) as [[s1 w1] l1].
  cbn in Hassembled, Hkeeps, Hsettled. subst l1 s1. cbn.
  destruct (proj1 Hkeeps) as [c1 ->]; [eauto|].
  unfold checkWalletBlock. run_chain.
  destruct (countDiffers _ _); cbn.
  - eexists _, _. split; [reflexivity|]. cbn. apply lookup_insert_eq.
  - destruct Hstored as [Hcount | Hraised]; [discriminate|].
    destruct (checkTransactions transactions) as [transactions' [|e|e]]; cbn;
      [| |now destruct (Hraised e)];
      eexists _, _; (split; [reflexivity|]); cbn; apply lookup_insert_eq.
Qed.

End AssemblerOutcomes.

(** X13: a block that [buildWalletDataBlock] resolves without a cache hit
    carries the hash, height and timestamp of the block row; it lists as
    many transactions as the block row counts (so a block without any
    transaction row, whose count is [NULL], is never resolved), and each
    listed transaction has lost its [meta] and has at least one input or
    output. *)
Theorem resolved_block_shape :
  forall (sha256 : string -> string) (defaultTTL : Z) (db : Database) (now : Z)
         (block : BlockSummary) (w : option Cache) (obj : WalletBlock),
    checkCache sha256 (walletBlocks <$> w) now (s_hash block) = None ->
    snd (buildWalletDataBlock sha256 defaultTTL db now block w) = Some (Fulfilled obj) ->
    wb_blockHash obj = s_hash block /\ wb_height obj = s_height block
    /\ wb_timestamp obj = s_timestamp block
    /\ s_txnCount block = Some (Z.of_nat (length (wb_transactions obj)))
    /\ Forall (fun t => wt_meta t = None /\ (wt_inputs t <> [] \/ wt_outputs t <> []))
         (wb_transactions obj).
Proof.
  intros sha256 defaultTTL db now block w obj Hmiss.
  rewrite (buildWalletDataBlock_outcome _ _ _ _ _ _ Hmiss).
  destruct (snd (assembleTransactions sha256 defaultTTL db now block _))
    as [transactions| |]; try discriminate.
  destruct (countDiffers _ _) eqn:Hcount; [discriminate|].
  destruct (checkTransactions transactions) as [transactions' [|e|e]] eqn:Hcheck;
    try discriminate.
  intros [= <-]. cbn.
  apply checkTransactions_passed in Hcheck as [-> Hpassed].
  repeat split.
  - rewrite length_fmap. unfold countDiffers in Hcount.
    destruct (s_txnCount block) as [n|]; [|discriminate].
    apply negb_false_iff, Z.eqb_eq in Hcount. now subst n.
  - apply Forall_fmap. eapply Forall_impl; [exact Hpassed|].
    intros t Ht. cbn. split; [reflexivity|]. now apply checkTransaction_not_empty.
Qed.

Lemma resolved_block_shape_witness :
  exists obj,
    snd (buildWalletDataBlock (fun s => s) 30 oneTransfer 0
           {| s_hash := "b0"; s_height := 0; s_timestamp := 1000; s_txnCount := Some 1 |}
           None) = Some (Fulfilled obj)
    /\ length (wb_transactions obj) = 1%nat.
Proof.
  eexists. split; [vm_compute; reflexivity|].
  match goal with
  | |- length (wb_transactions ?obj) = _ =>
      destruct (resolved_block_shape (fun s => s) 30 oneTransfer 0
                  {| s_hash := "b0"; s_height := 0; s_timestamp := 1000;
                     s_txnCount := Some 1 |} None obj)
        as (_ & _ & _ & Hcount & _); [reflexivity | vm_compute; reflexivity |]
  end.
  apply Nat2Z.inj. symmetry. exact (f_equal (default 0) Hcount).
Defined.

(** X14: with a Redis backend, a block that [buildWalletDataBlock] rejects
    for a data-consistency error has been written to the cache all the
    same: the same call, made again within 24 hours, resolves a block for
    that hash, whatever the store holds by then. *)
Theorem rejected_block_is_cached :
  forall (sha256 : string -> string) (defaultTTL : Z) (db db' : Database) (now later : Z)
         (block : BlockSummary) (c : Cache) (e : Error),
    checkCache sha256 (Some (walletBlocks c)) now (s_hash block) = None ->
    snd (buildWalletDataBlock sha256 defaultTTL db now block (Some c)) = Some (Rejected e) ->
    isDataConsistency e ->
    later < now + 60 * 60 * 24 ->
    exists obj,
      snd (buildWalletDataBlock sha256 defaultTTL db' later block
             (fst (buildWalletDataBlock sha256 defaultTTL db now block (Some c))))
      = Some (Fulfilled obj)
      /\ wb_blockHash obj = s_hash block /\ wb_height obj = s_height block
      /\ wb_timestamp obj = s_timestamp block.
Proof.
  intros sha256 defaultTTL db db' now later block c e Hmiss Hrejected Hdc Hlater.
  assert (Hmiss' : checkCache sha256 (walletBlocks <$> Some c) now (s_hash block) = None)
    by exact Hmiss.
  rewrite (buildWalletDataBlock_outcome _ _ _ _ _ _ Hmiss') in Hrejected.
  destruct (assembleTransactions_keeps sha256 defaultTTL db now block
              (mkExec (R:=WalletBlock) None (Some c))) as (_ & Hthrown & _).
  destruct (snd (assembleTransactions sha256 defaultTTL db now block _))
    as [transactions|e'|] eqn:Hassembled; [| |discriminate].
  - assert (Hstored : countDiffers (s_txnCount block) (length transactions) = true
                      \/ forall e, snd (checkTransactions transactions) <> Raised e).
    { destruct (countDiffers _ _); [now left | right].
      pose proof (checkTransactions_raised transactions) as Hr.
      destruct (checkTransactions transactions) as [transactions' verdict].
      cbn in *. intros e' ->. injection Hrejected as <-.
      rewrite (Hr e' eq_refl) in Hdc. destruct Hdc as (hash & message & Hdc).
      discriminate. }
    destruct (buildWalletDataBlock_caches _ _ _ _ _ _ _ Hmiss Hassembled Hstored)
      as (c1 & kept & Hworld & Hentry).
    rewrite Hworld. eexists. split.
    + apply buildWalletDataBlock_hit. cbn. unfold RedisCache_get. rewrite Hentry.
      destruct (Z.ltb_spec later (now + 60 * 60 * 24)); [reflexivity | lia].
    + cbn. repeat split.
  - injection Hrejected as ->. rewrite (Hthrown e eq_refl) in Hdc.
    destruct Hdc as (hash & message & Hdc). discriminate.
Qed.

Lemma rejected_block_is_cached_witness :
  let block := {| s_hash := "b0"; s_height := 0; s_timestamp := 1000;
                  s_txnCount := Some 2 |} in
  exists obj,
    snd (buildWalletDataBlock (fun s => s) 30 (blocksOnly []) 1 block
           (fst (buildWalletDataBlock (fun s => s) 30 feeMismatch 0 block
                   (Some emptyCache))))
    = Some (Fulfilled obj)
    /\ wb_blockHash obj = "b0".
Proof.
  cbv zeta.
  destruct (rejected_block_is_cached (fun s => s) 30 feeMismatch (blocksOnly []) 0 1
              {| s_hash := "b0"; s_height := 0; s_timestamp := 1000; s_txnCount := Some 2 |}
              emptyCache (Err (getError "t1" "Transaction fee does not match")))
    as (obj & Hobj & Hhash & _).
  - reflexivity.
  - vm_compute. reflexivity.
  - now exists "t1", "Transaction fee does not match".
  - lia.
  - exists obj. split; [exact Hobj | exact Hhash].
Defined.

(** ** The random output sampler: what a completed call returns *)

Section SamplerOutcomes.

(** [mixinCounts] after the first loop: each requested amount is counted
    [mixin] times for each of its occurrences. *)
Lemma dedupe_counts (mixin : Z) (amounts : list Z) :
  (forall a, a ∈ fst (dedupe mixin amounts) <-> a ∈ amounts)
  /\ forall a, a ∈ amounts ->
       snd (dedupe mixin amounts) !! a
       = Some (mixin * Z.of_nat (length (filter (fun x => x = a) amounts))).
Proof.
  unfold dedupe.
  set (step := fun (acc : list Z * gmap Z Z) amount =>
                 if decide (amount ∈ fst acc)
                 then (fst acc, alter (fun count => count + mixin) amount (snd acc))
                 else (fst acc ++ [amount], <[amount := mixin]> (snd acc))).
  assert (Hgen : forall l seen acc,
             (forall a, a ∈ fst acc <-> a ∈ seen) ->
             (forall a, a ∈ seen ->
                snd acc !! a
                = Some (mixin * Z.of_nat (length (filter (fun x => x = a) seen)))) ->
             (forall a, a ∈ fst (foldl step acc l) <-> a ∈ seen ++ l)
             /\ forall a, a ∈ seen ++ l ->
                  snd (foldl step acc l) !! a
                  = Some (mixin * Z.of_nat (length (filter (fun x => x = a) (seen ++ l))))).
  { induction l as [|x l IH]; intros seen acc Hfst Hsnd.
    - rewrite app_nil_r. now split.
    - cbn [foldl]. replace (seen ++ x :: l) with ((seen ++ [x]) ++ l)
        by now rewrite <- app_assoc.
      apply IH.
      + intros a. unfold step. destruct (decide (x ∈ fst acc)) as [Hin|Hnin]; cbn.
        * rewrite Hfst, elem_of_app, list_elem_of_singleton. split; [tauto|].
          intros [Ha | ->]; [assumption | now apply Hfst].
        * rewrite !elem_of_app, Hfst. tauto.
      + intros a Ha. rewrite filter_app, length_app. unfold step.
        destruct (decide (x ∈ fst acc)) as [Hin|Hnin]; cbn [snd].
        * apply Hfst in Hin. destruct (decide (a = x)) as [->|Hne].
          -- rewrite lookup_alter_eq, (Hsnd x Hin).
             rewrite filter_cons_True by reflexivity. cbn. f_equal. lia.
          -- rewrite lookup_alter_ne by congruence.
             rewrite filter_cons_False by congruence. cbn.
             apply elem_of_app in Ha as [Ha|Ha];
               [|apply list_elem_of_singleton in Ha; congruence].
             rewrite (Hsnd a Ha). f_equal. lia.
        * destruct (decide (a = x)) as [->|Hne].
          -- rewrite lookup_insert_eq. rewrite filter_cons_True by reflexivity. cbn.
             assert (Hzero : filter (fun y => y = x) seen = []).
             { destruct (filter (fun y => y = x) seen) as [|y ys] eqn:Hf; [reflexivity|].
               assert (Hy : y ∈ filter (fun y => y = x) seen) by (rewrite Hf; left).
               apply list_elem_of_filter in Hy as [-> Hy]. now apply Hfst in Hy. }
             rewrite Hzero. cbn. f_equal. lia.
          -- rewrite lookup_insert_ne by congruence.
             rewrite filter_cons_False by congruence. cbn.
             apply elem_of_app in Ha as [Ha|Ha];
               [|apply list_elem_of_singleton in Ha; congruence].
             rewrite (Hsnd a Ha). f_equal. lia. }
  apply (Hgen amounts [] ([], ∅)).
  - intros a. cbn. reflexivity.
  - intros a Ha. inversion Ha.
Qed.

(** What a completed drawing loop has produced. *)
Lemma sampleRows_drawn mixin mixinCounts results entropy randomValues :
  0 <= mixin ->
  sampleRows mixin mixinCounts results entropy = Drawn randomValues ->
  (forall result, result ∈ results ->
     mixin <= m_globalIndex result
     /\ exists k, mixinCounts !! m_amount result = Some k
                  /\ 0 <= k <= m_globalIndex result + 1)
  /\ forall a i, (a, i) ∈ randomValues ->
       exists result, result ∈ results /\ m_amount result = a
                      /\ 0 <= i <= m_globalIndex result.
Proof.
  intros Hmixin. revert entropy randomValues.
  induction results as [|result rest IH]; intros entropy randomValues; cbn.
  - intros [= <-]. split; [intros r Hr; inversion Hr | intros a i Hi; inversion Hi].
  - destruct (Z.ltb_spec (m_globalIndex result) mixin) as [Hlt|Hge]; [discriminate|].
    destruct (drawUnique (m_globalIndex result) (mixinCounts !! m_amount result) [] entropy)
      as [[rnds|] entropy'] eqn:Hdraw; [|discriminate].
    destruct (sampleRows mixin mixinCounts rest entropy') as [values| |] eqn:Hrest;
      try discriminate.
    intros [= <-].
    apply drawUnique_drawn in Hdraw as (Hnd & Hin & Hlen);
      [|lia | apply NoDup_nil_2 | intros x Hx; inversion Hx].
    destruct (IH _ _ Hrest) as [IH1 IH2]. split.
    + intros r Hr. apply elem_of_cons in Hr as [-> | Hr]; [|now apply IH1].
      split; [assumption|]. exists (Z.of_nat (length rnds)). split; [now symmetry|].
      pose proof (distinct_indices_bound (m_globalIndex result) rnds ltac:(lia) Hnd Hin).
      lia.
    + intros a i Hi. apply elem_of_app in Hi as [Hi|Hi].
      * apply list_elem_of_fmap in Hi as (x & [= -> ->] & Hx).
        exists result. split; [left|]. split; [reflexivity | now apply Hin].
      * destruct (IH2 a i Hi) as (r & Hr & Ha & Hi'). exists r.
        split; [now right | now split].
Qed.

Lemma groupOk_sorted mixin rows g :
  groupOk mixin rows g ->
  groupOk mixin rows {| g_amount := g_amount g; g_outs := sortOuts <$> g_outs g |}.
Proof.
  intros Hg outs. cbn. destruct (g_outs g) as [outs0|] eqn:Houts; [|discriminate].
  intros [= <-]. destruct (Hg outs0 Houts) as [Hlen Hin]. unfold sortOuts. split.
  - now rewrite jsSort_length.
  - intros o Ho. rewrite jsSort_Permutation in Ho. now apply Hin.
Qed.

Lemma groupRows_ok mixin rows :
  1 <= mixin ->
  forall results response curObject grouped,
    (forall r, r ∈ results -> r ∈ rows) ->
    Forall (groupOk mixin rows) response -> groupOk mixin rows curObject ->
    groupRows mixin response curObject results = Some grouped ->
    Forall (groupOk mixin rows) grouped.
Proof.
  intros Hmixin. induction results as [|result rest IH];
    intros response cur grouped Hrows Hresponse Hcur; cbn.
  - intros [= <-]. apply Forall_app. split; [assumption | now constructor].
  - assert (Hresult : result ∈ rows) by (apply Hrows; left).
    assert (Hrest : forall r, r ∈ rest -> r ∈ rows) by (intros r Hr; apply Hrows; now right).
    assert (Hnew : groupOk mixin rows
                     (pushOut {| g_amount := or_amount result; g_outs := Some [] |} result)).
    { intros outs [= <-]. cbn. split; [lia|].
      intros o Ho. apply list_elem_of_singleton in Ho. subst o. now exists result. }
    assert (Hresponse' : Forall (groupOk mixin rows)
              (if negb (g_amount cur =? -1)
               then response ++ [{| g_amount := g_amount cur;
                                    g_outs := sortOuts <$> g_outs cur |}]
               else response)).
    { destruct (negb _); [|assumption].
      apply Forall_app. split; [assumption|]. constructor; [|constructor].
      now apply groupOk_sorted. }
    destruct (Z.eqb_spec (or_amount result) (g_amount cur)) as [Heq|Hne]; cbn.
    + destruct (g_outs cur) as [outs|] eqn:Houts; cbn; [|discriminate].
      destruct (Z.eqb_spec (Z.of_nat (length outs)) mixin) as [Hfull|Hroom].
      * now apply IH.
      * apply IH; try assumption.
        intros outs' [= <-]. cbn. rewrite Houts. cbn.
        destruct (Hcur outs Houts) as [Hlen Hin]. split.
        -- rewrite length_app. cbn. lia.
        -- intros o Ho. apply elem_of_app in Ho as [Ho|Ho]; [now apply Hin|].
           apply list_elem_of_singleton in Ho. subst o. now exists result.
    + now apply IH.
Qed.

End SamplerOutcomes.

(** X15: when [getRandomOutputsForAmounts] is asked for a mixin count that
    is not negative and completes, then for every requested amount the
    greatest known index is at least the count plus 1, and the amount has
    room for all the distinct indices the loop had to draw: (count + 1)
    times the number of times the amount is requested is at most the
    greatest index plus 1.  A request that needs more distinct indices than
    an amount has therefore never completes, however long the random
    source runs. *)
Theorem sampler_completes_only_with_enough_indices :
  forall (db : Database) (amounts : list Z) (mixin : option Z) (entropy : list Z)
         (response : list OutputGroup),
    0 <= default 0 mixin ->
    getRandomOutputsForAmounts db amounts mixin entropy = Drawn response ->
    forall r, r ∈ transaction_outputs_index_maximums db -> m_amount r ∈ amounts ->
      default 0 mixin + 1 <= m_globalIndex r
      /\ (default 0 mixin + 1)
           * Z.of_nat (length (filter (fun a => a = m_amount r) amounts))
         <= m_globalIndex r + 1.
Proof.
  intros db amounts mixin entropy response Hmixin.
  unfold getRandomOutputsForAmounts.
  destruct (dedupe_counts (default 0 mixin + 1) amounts) as [Hfst Hsnd].
  destruct (dedupe (default 0 mixin + 1) amounts) as [dedupedAmounts mixinCounts].
  cbn [fst snd] in Hfst, Hsnd.
  destruct dedupedAmounts as [|a0 deduped]; [discriminate|].
  destruct (negb _); [discriminate|].
  destruct (sampleRows _ _ _ entropy) as [randomValues|e|] eqn:Hrows; try discriminate.
  intros _ r Hr Ha.
  apply sampleRows_drawn in Hrows as [Hroom _]; [|lia].
  destruct (Hroom r) as (Hge & k & Hk & Hrange).
  { apply list_elem_of_filter. split; [now apply Hfst | assumption]. }
  rewrite (Hsnd _ Ha) in Hk. injection Hk as <-. split; [assumption | lia].
Qed.

Lemma sampler_completes_only_with_enough_indices_witness :
  3 * Z.of_nat (length (filter (fun a => a = 7) [7])) <= 3 + 1.
Proof.
  destruct (sampler_completes_only_with_enough_indices (outputsOfSeven 4) [7] (Some 2)
              [0; 1; 2]
              [{| g_amount := 7;
                  g_outs := Some [{| global_amount_index := 0; out_key := "key0" |};
                                  {| global_amount_index := 1; out_key := "key1" |};
                                  {| global_amount_index := 2; out_key := "key2" |}] |}]
              ltac:(cbn; lia) ltac:(vm_compute; reflexivity)
              {| m_amount := 7; m_globalIndex := 3 |})
    as [_ Hroom]; [left | left |].
  exact Hroom.
Defined.

(** X16: when [getRandomOutputsForAmounts] is asked for a mixin count that
    is not negative and completes, no group of the response holds more
    than the count plus 1 outputs, and every output of a group is built
    from a stored output of the amount of the group: the amount is one of
    those requested, and the index lies between 0 and the greatest index
    known for the amount. *)
Theorem sampled_outputs_are_stored_outputs :
  forall (db : Database) (amounts : list Z) (mixin : option Z) (entropy : list Z)
         (response : list OutputGroup),
    0 <= default 0 mixin ->
    getRandomOutputsForAmounts db amounts mixin entropy = Drawn response ->
    forall g outs, g ∈ response -> g_outs g = Some outs ->
      Z.of_nat (length outs) <= default 0 mixin + 1
      /\ forall o, o ∈ outs ->
           g_amount g ∈ amounts
           /\ (exists r, r ∈ transaction_outputs db /\ or_amount r = g_amount g
                         /\ or_globalIndex r = global_amount_index o
                         /\ or_key r = out_key o)
           /\ exists m, m ∈ transaction_outputs_index_maximums db
                        /\ m_amount m = g_amount g
                        /\ 0 <= global_amount_index o <= m_globalIndex m.
Proof.
  intros db amounts mixin entropy response Hmixin.
  unfold getRandomOutputsForAmounts.
  destruct (dedupe_counts (default 0 mixin + 1) amounts) as [Hfst _].
  destruct (dedupe (default 0 mixin + 1) amounts) as [dedupedAmounts mixinCounts].
  cbn [fst] in Hfst.
  destruct dedupedAmounts as [|a0 deduped]; [discriminate|].
  destruct (negb _); [discriminate|].
  destruct (sampleRows _ _ _ entropy) as [randomValues|e|] eqn:Hrows; try discriminate.
  destruct randomValues as [|v vs] eqn:Hvs; [discriminate|].
  cbv iota. rewrite <- Hvs in *. clear Hvs.
  apply sampleRows_drawn in Hrows as [_ Hvalues]; [|lia].
  set (rows := orderAsc or_amount
                 (filter (fun r => (or_amount r, or_globalIndex r) ∈ randomValues)
                         (transaction_outputs db))).
  destruct (groupRows _ [] _ rows) as [grouped|] eqn:Hgroup; [|discriminate].
  intros [= <-] g outs Hg Houts.
  apply (groupRows_ok (default 0 mixin + 1) rows) in Hgroup;
    [|lia | auto | constructor | intros outs' [=]].
  rewrite Forall_forall in Hgroup. destruct (Hgroup g Hg outs Houts) as [Hlen Hin].
  split; [assumption|]. intros o Ho.
  destruct (Hin o Ho) as (r & Hr & Hamount & <-).
  unfold rows in Hr. rewrite (orderAsc_perm or_amount) in Hr.
  apply list_elem_of_filter in Hr as [Hpair Hr].
  destruct (Hvalues _ _ Hpair) as (m & Hm & Hma & Hrange).
  apply list_elem_of_filter in Hm as [Hm1 Hm2].
  split; [|split].
  - rewrite <- Hamount, <- Hma. now apply Hfst.
  - now exists r.
  - exists m. split; [assumption|]. split; [congruence | exact Hrange].
Qed.

Lemma sampled_outputs_are_stored_outputs_witness :
  exists m, m ∈ transaction_outputs_index_maximums (outputsOfSeven 4)
            /\ m_amount m = 7 /\ 0 <= 2 <= m_globalIndex m.
Proof.
  destruct (sampled_outputs_are_stored_outputs (outputsOfSeven 4) [7] (Some 2) [0; 1; 2]
              [{| g_amount := 7;
                  g_outs := Some [{| global_amount_index := 0; out_key := "key0" |};
                                  {| global_amount_index := 1; out_key := "key1" |};
                                  {| global_amount_index := 2; out_key := "key2" |}] |}]
              ltac:(cbn; lia) ltac:(vm_compute; reflexivity)
              _ _ ltac:(left) eq_refl) as [_ Hin].
  destruct (Hin {| global_amount_index := 2; out_key := "key2" |}
              ltac:(right; right; left)) as (_ & _ & Hm).
  exact Hm.
Defined.

(** ** The request/reply bridge: replies and consumers *)

Section BridgeOutcomes.

Import Rabbit.

(** No event removes a consumer or renames the reply queue. *)
Lemma consumers_run (events : list Event) (b : Bridge) :
  consumers (run b events) = consumers b ++ registeredBy (replyQueue b) events
  /\ replyQueue (run b events) = replyQueue b.
Proof.
  revert b. induction events as [|e events IH]; intros b; cbn.
  - now rewrite app_nil_r.
  - destruct (IH (step b e)) as [Hc Hq]. fold (run (step b e) events).
    rewrite Hc, Hq.
    destruct e as [q p timeout rid | i message | t]; cbn.
    + now rewrite <- app_assoc.
    + unfold deliver. destruct (consumers b !! i) as [c|]; [|now split].
      destruct (decide _); now split.
    + now split.
Qed.

(** A settled promise stays as it is. *)
Lemma step_settled (b : Bridge) (e : Event) id s :
  promises b !! id = Some s -> promises (step b e) !! id = Some s.
Proof.
  intros Hs. destruct e as [q p timeout rid | i message | t]; cbn.
  - assumption.
  - unfold deliver. destruct (consumers b !! i) as [c|]; [|assumption].
    destruct (decide _); cbn; [|assumption]. now apply settlePromise_settled.
  - now apply fire_settled.
Qed.

Lemma run_settled (events : list Event) (b : Bridge) id s :
  promises b !! id = Some s -> promises (run b events) !! id = Some s.
Proof.
  revert b. induction events as [|e events IH]; intros b Hs; cbn; [assumption|].
  apply IH. now apply step_settled.
Qed.

End BridgeOutcomes.

(** X17: a call of [requestReply] whose identifier is fresh publishes a
    request that carries the identifier and the name of the reply queue.
    When the reply that a worker sends for it with [reply] reaches the
    consumer of the call before the timer fires, the promise is fulfilled
    with the content of the reply, the message is acknowledged, the timer
    of the call is cleared, and nothing that happens later changes the
    promise.  When the reply reaches the consumer after the timer has
    fired, it is acknowledged all the same and the promise stays rejected
    with the Timeout error. *)
Theorem reply_settles_the_call_in_time_only :
  forall (b : Rabbit.Bridge) (queue payload : string) (timeout : option Z) (id : string)
         (events later : list Rabbit.Event) (answer : string),
    let window := match timeout with
                  | Some t => if t =? 0 then 5000 else t
                  | None => 5000
                  end in
    let deadline := Rabbit.clock b + (window + 500) in
    let called := Rabbit.requestReply b queue payload timeout id in
    let request := {| Rabbit.p_queue := queue; Rabbit.p_payload := payload;
                      Rabbit.p_correlationId := id;
                      Rabbit.p_replyTo := Rabbit.replyQueue b;
                      Rabbit.p_expiration := window |} in
    let waiting := Rabbit.run called events in
    let delivered :=
      Rabbit.deliver waiting (length (Rabbit.consumers b)) (Rabbit_reply request answer) in
    0 <= window ->
    Rabbit.promises b !! id = None ->
    (forall t, t ∈ Rabbit.timers b -> Rabbit.timerFor t <> id) ->
    Forall (Rabbit.unrelated id) events ->
    last (Rabbit.published called) = Some request
    /\ Rabbit_reply request answer ∈ Rabbit.acked delivered
    /\ (Rabbit.clock waiting < deadline ->
        Rabbit.promises delivered !! id = Some (Fulfilled answer)
        /\ (forall t, t ∈ Rabbit.timers delivered -> Rabbit.timerFor t <> id)
        /\ Rabbit.promises (Rabbit.run delivered later) !! id = Some (Fulfilled answer))
    /\ (deadline <= Rabbit.clock waiting ->
        Rabbit.promises (Rabbit.run delivered later) !! id
        = Some (Rejected Rabbit.Timeout)).
Proof.
  intros b queue payload timeout id events later answer window deadline called request
         waiting delivered Hwindow Hfresh Htimers Hevents.
  split.
  { unfold called, Rabbit.requestReply. cbn. fold window. apply last_snoc. }
  assert (Hinv : Rabbit.pendingOrTimedOut id (Rabbit.replyQueue b) deadline waiting).
  { apply run_keeps; [assumption|].
    apply pendingOrTimedOut_intro; cbn.
    - apply elem_of_app. right. left.
    - intros t Ht Hid. apply elem_of_app in Ht as [Ht|Ht].
      + now destruct (Htimers t Ht).
      + apply list_elem_of_singleton in Ht. now subst t.
    - assumption.
    - fold window. unfold deadline. lia.
    - apply elem_of_app. right. left. }
  apply pendingOrTimedOut_elim in Hinv as (Hearly & Hlate & _).
  assert (Hconsumer : Rabbit.consumers waiting !! length (Rabbit.consumers b)
                      = Some {| Rabbit.consumerQueue := Rabbit.replyQueue b;
                                Rabbit.requestId := id |}).
  { unfold waiting. destruct (consumers_run events called) as [-> _].
    unfold called at 1. cbn. rewrite <- app_assoc.
    rewrite lookup_app_r by lia. now rewrite Nat.sub_diag. }
  assert (Hdelivered : delivered =
            {| Rabbit.replyQueue := Rabbit.replyQueue waiting;
               Rabbit.clock := Rabbit.clock waiting;
               Rabbit.consumers := Rabbit.consumers waiting;
               Rabbit.timers := filter (fun t => Rabbit.timerFor t <> id)
                                       (Rabbit.timers waiting);
               Rabbit.promises := Rabbit.settlePromise id (Fulfilled answer)
                                    (Rabbit.promises waiting);
               Rabbit.published := Rabbit.published waiting;
               Rabbit.acked := Rabbit.acked waiting ++ [Rabbit_reply request answer];
               Rabbit.nacked := Rabbit.nacked waiting |}).
  { unfold delivered, Rabbit.deliver. rewrite Hconsumer. cbn.
    destruct (decide (id = id)); [reflexivity | congruence]. }
  rewrite Hdelivered. cbn. split; [apply elem_of_app; right; left|]. split.
  - intros Hclock. specialize (Hearly Hclock).
    assert (Hp : Rabbit.settlePromise id (Fulfilled answer) (Rabbit.promises waiting) !! id
                 = Some (Fulfilled answer)).
    { unfold Rabbit.settlePromise. rewrite Hearly. apply lookup_insert_eq. }
    split; [exact Hp|]. split.
    + intros t Ht. now apply list_elem_of_filter in Ht as [Ht _].
    + now apply run_settled.
  - intros Hclock. destruct (Hlate Hclock) as [Hrejected _].
    apply run_settled. cbn. now apply settlePromise_settled.
Qed.

Lemma reply_settles_the_call_in_time_only_witness :
  let called := Rabbit.requestReply (Rabbit.connected "reply") "work" "payload"
                  (Some 1000) "r1" in
  let request := {| Rabbit.p_queue := "work"; Rabbit.p_payload := "payload";
                    Rabbit.p_correlationId := "r1"; Rabbit.p_replyTo := "reply";
                    Rabbit.p_expiration := 1000 |} in
  Rabbit.promises
    (Rabbit.run (Rabbit.deliver (Rabbit.run called [Rabbit.Advance 700]) 0
                   (Rabbit_reply request "done"))
                [Rabbit.Advance 5000]) !! "r1" = Some (Fulfilled "done")
  /\ Rabbit.promises
       (Rabbit.run (Rabbit.deliver (Rabbit.run called [Rabbit.Advance 1500]) 0
                      (Rabbit_reply request "done"))
                   [Rabbit.Advance 5000]) !! "r1" = Some (Rejected Rabbit.Timeout).
Proof.
  cbv zeta. split.
  - destruct (reply_settles_the_call_in_time_only (Rabbit.connected "reply") "work" "payload"
                (Some 1000) "r1" [Rabbit.Advance 700] [Rabbit.Advance 5000] "done")
      as (_ & _ & Hearly & _).
    + cbn. lia.
    + reflexivity.
    + intros t Ht. inversion Ht.
    + repeat constructor.
    + apply Hearly. vm_compute. reflexivity.
  - destruct (reply_settles_the_call_in_time_only (Rabbit.connected "reply") "work" "payload"
                (Some 1000) "r1" [Rabbit.Advance 1500] [Rabbit.Advance 5000] "done")
      as (_ & _ & _ & Hlate).
    + cbn. lia.
    + reflexivity.
    + intros t Ht. inversion Ht.
    + repeat constructor.
    + apply Hlate. vm_compute. discriminate.
Defined.

(** X18: nothing in the bridge removes a consumer.  After any run of
    calls, deliveries and timer firings the consumers on the reply queue
    are those there were before, each at its place, followed by one
    consumer for each call of [requestReply] in the run, in the order of the
    calls: replies and timeouts leave them registered, and the reply queue
    keeps its name. *)
Theorem consumers_only_accumulate :
  forall (b : Rabbit.Bridge) (events : list Rabbit.Event),
    Rabbit.consumers (Rabbit.run b events)
    = Rabbit.consumers b ++ registeredBy (Rabbit.replyQueue b) events
    /\ Rabbit.replyQueue (Rabbit.run b events) = Rabbit.replyQueue b
    /\ (forall i c, Rabbit.consumers b !! i = Some c ->
                    Rabbit.consumers (Rabbit.run b events) !! i = Some c)
    /\ forall queue payload timeout id,
         {| Rabbit.consumerQueue := Rabbit.replyQueue b; Rabbit.requestId := id |}
         ∈ Rabbit.consumers
             (Rabbit.run (Rabbit.requestReply b queue payload timeout id) events).
Proof.
  intros b events. destruct (consumers_run events b) as [Hconsumers Hqueue].
  split; [exact Hconsumers|]. split; [exact Hqueue|]. split.
  - intros i c Hi. rewrite Hconsumers. now apply lookup_app_l_Some.
  - intros queue payload timeout id.
    destruct (consumers_run events (Rabbit.requestReply b queue payload timeout id))
      as [-> _].
    cbn. apply elem_of_app. left. apply elem_of_app. right. left.
Qed.

(** ** Rows of a block and of a transaction *)

Section RowFacts.

Variable sha256 : string -> string.
Variable defaultTTL : Z.
Variable db : Database.
Variable now : Z.

Lemma getTransactionsByBlock_run blockHash w :
  getTransactionsByBlock sha256 defaultTTL db now blockHash w =
  let cacheName := "getTransactionsByBlock" +:+ blockHash in
  let rows := txnRow <$> filter (fun t => t_blockHash t = blockHash) (transactions db) in
  let cached := checkCache sha256 (transactionRows <$> w) now cacheName in
  (match rows, w with
   | _ :: _, Some c =>
       Some (putV transactionRowsV
               (<[sha256 cacheName := (rows, now + 120)]> (transactionRows c)) c)
   | _, _ => w
   end,
   Some (Fulfilled (default rows cached))).
Proof.
  unfold getTransactionsByBlock. run_chain.
  destruct (checkCache sha256 (transactionRows <$> w) now _) as [cached|]; cbn;
    (destruct (txnRow <$> filter _ (transactions db)) as [|row rows]; cbn;
     [reflexivity | now destruct w]).
Qed.

Lemma getTransactionInputs_run hash trim w :
  checkCache sha256 (inputRows <$> w) now ("getTransactionInputs" +:+ hash) = None ->
  getTransactionInputs sha256 defaultTTL db now hash trim w =
  let cacheName := "getTransactionInputs" +:+ hash in
  let rows := inputRow <$> orderBy inputRecordLeb
                (filter (fun r => ir_txnHash r = hash) (transaction_inputs db)) in
  (match rows, w with
   | _ :: _, Some c =>
       Some (putV inputRowsV (<[sha256 cacheName := (rows, now + 60)]> (inputRows c)) c)
   | _, _ => w
   end,
   Some (Fulfilled (if default true trim then deleteInputTxnHash <$> rows else rows))).
Proof.
  intros Hmiss. unfold getTransactionInputs. run_chain. rewrite Hmiss. cbn.
  destruct (orderBy inputRecordLeb _) as [|row rows]; cbn.
  - now destruct trim as [[|]|].
  - destruct w; cbn; now destruct trim as [[|]|].
Qed.

Lemma getTransactionOutputs_run hash trim w :
  checkCache sha256 (outputRows <$> w) now ("getTransactionOutputs" +:+ hash) = None ->
  getTransactionOutputs sha256 defaultTTL db now (Some hash) trim w =
  let cacheName := "getTransactionOutputs" +:+ hash in
  let rows := outputRow <$> orderAsc or_outputIndex
                (filter (fun r => Some (or_txnHash r) = Some hash)
                        (transaction_outputs db)) in
  (match rows, w with
   | _ :: _, Some c =>
       Some (putV outputRowsV (<[sha256 cacheName := (rows, now + 60)]> (outputRows c)) c)
   | _, _ => w
   end,
   Some (Fulfilled (if default true trim then deleteOutputTxnHash <$> rows else rows))).
Proof.
  intros Hmiss. unfold getTransactionOutputs. run_chain. rewrite Hmiss. cbn.
  destruct (orderAsc or_outputIndex _) as [|row rows]; cbn.
  - now destruct trim as [[|]|].
  - destruct w; cbn; now destruct trim as [[|]|].
Qed.

End RowFacts.

(** X19: [getTransactionsByBlock], when it is not served from the cache,
    resolves the rows of [transactions] of the block.  A call that finds no
    row writes nothing to the cache.  With a Redis backend, a call that
    finds rows leaves them in the cache for 120 seconds: a call for the
    same block within that time resolves those rows, whatever the store
    holds by then. *)
Theorem getTransactionsByBlock_caches_only_rows :
  forall (sha256 : string -> string) (defaultTTL : Z) (db db' : Database) (now later : Z)
         (w : option Cache) (blockHash : string),
    checkCache sha256 (transactionRows <$> w) now ("getTransactionsByBlock" +:+ blockHash)
    = None ->
    let rows := txnRow <$> filter (fun t => t_blockHash t = blockHash) (transactions db) in
    let first := getTransactionsByBlock sha256 defaultTTL db now blockHash w in
    snd first = Some (Fulfilled rows)
    /\ (rows = [] -> fst first = w)
    /\ (rows <> [] -> is_Some w -> later < now + 120 ->
        snd (getTransactionsByBlock sha256 defaultTTL db' later blockHash (fst first))
        = Some (Fulfilled rows)).
Proof.
  intros sha256 defaultTTL db db' now later w blockHash Hmiss rows first.
  unfold first. rewrite getTransactionsByBlock_run. cbv zeta. fold rows.
  rewrite Hmiss. cbn [fst snd default]. split; [reflexivity|]. split.
  - intros ->. reflexivity.
  - intros Hrows [c ->] Hlater. destruct rows as [|row rest] eqn:Hr; [congruence|].
    rewrite getTransactionsByBlock_run. cbv zeta. cbn [snd]. do 2 f_equal.
    assert (Hhit : checkCache sha256
              (transactionRows <$> Some (putV transactionRowsV
                 (<[sha256 ("getTransactionsByBlock" +:+ blockHash)
                    := (row :: rest, now + 120)]> (transactionRows c)) c))
              later ("getTransactionsByBlock" +:+ blockHash) = Some (row :: rest)).
    { cbn. unfold RedisCache_get. rewrite lookup_insert_eq.
      destruct (Z.ltb_spec later (now + 120)); [reflexivity | lia]. }
    now rewrite Hhit.
Qed.

Lemma getTransactionsByBlock_caches_only_rows_witness :
  fst (getTransactionsByBlock (fun s => s) 30 oneTransfer 0 "zz" (Some emptyCache))
  = Some emptyCache
  /\ snd (getTransactionsByBlock (fun s => s) 30 (blocksOnly []) 100 "b0"
            (fst (getTransactionsByBlock (fun s => s) 30 oneTransfer 0 "b0"
                    (Some emptyCache))))
     = Some (Fulfilled [txnRow (sampleTransaction "t1" "b0" 1 10 9)]).
Proof.
  split.
  - apply (getTransactionsByBlock_caches_only_rows (fun s => s) 30 oneTransfer oneTransfer
             0 0 (Some emptyCache) "zz"); reflexivity.
  - apply (getTransactionsByBlock_caches_only_rows (fun s => s) 30 oneTransfer
             (blocksOnly []) 0 100 (Some emptyCache) "b0");
      [reflexivity | discriminate | eauto | lia].
Defined.

(** X20: [getTransactionInputs] and [getTransactionOutputs], when they are
    not served from the cache, resolve one row for each stored input
    (output) of the transaction, with [type] printed as two hexadecimal
    digits; the outputs come in the order of [outputIndex].  Every row has
    lost [txnHash] unless [trim] is [false], in which case it carries the
    hash asked for.  For a transaction without rows the result is the empty
    list and nothing is written to the cache. *)
Theorem transaction_rows_when_not_cached :
  forall (sha256 : string -> string) (defaultTTL : Z) (db : Database) (now : Z)
         (w : option Cache) (hash : string) (trim : option bool),
    (checkCache sha256 (inputRows <$> w) now ("getTransactionInputs" +:+ hash) = None ->
     exists rows,
       snd (getTransactionInputs sha256 defaultTTL db now hash trim w)
       = Some (Fulfilled rows)
       /\ (rows = [] -> fst (getTransactionInputs sha256 defaultTTL db now hash trim w) = w)
       /\ (fun r => (i_type r, i_amount r, i_keyImage r)) <$> rows
          ≡ₚ (fun r => (padStart2 (toString16 (ir_type r)), ir_amount r, ir_keyImage r))
               <$> filter (fun r => ir_txnHash r = hash) (transaction_inputs db)
       /\ Forall (fun r => i_txnHash r
                           = if default true trim then None else Some hash) rows)
    /\ (checkCache sha256 (outputRows <$> w) now ("getTransactionOutputs" +:+ hash) = None ->
        exists rows,
          snd (getTransactionOutputs sha256 defaultTTL db now (Some hash) trim w)
          = Some (Fulfilled rows)
          /\ (rows = [] ->
              fst (getTransactionOutputs sha256 defaultTTL db now (Some hash) trim w) = w)
          /\ (fun r => (o_type r, o_amount r, o_globalIndex r, o_outputIndex r, o_key r))
               <$> rows
             ≡ₚ (fun r => (padStart2 (toString16 (or_type r)), or_amount r,
                           or_globalIndex r, or_outputIndex r, or_key r))
                  <$> filter (fun r => or_txnHash r = hash) (transaction_outputs db)
          /\ StronglySorted (fun a b => o_outputIndex a <= o_outputIndex b) rows
          /\ Forall (fun r => o_txnHash r
                              = if default true trim then None else Some hash) rows).
Proof.
  intros sha256 defaultTTL db now w hash trim. split.
  - intros Hmiss. rewrite (getTransactionInputs_run _ _ _ _ _ _ _ Hmiss). cbv zeta.
    set (stored := filter (fun r => ir_txnHash r = hash) (transaction_inputs db)).
    assert (Hperm : orderBy inputRecordLeb stored ≡ₚ stored)
      by apply sortRows_Permutation.
    assert (Hin : forall r, r ∈ orderBy inputRecordLeb stored -> ir_txnHash r = hash).
    { intros r Hr. rewrite Hperm in Hr. now apply list_elem_of_filter in Hr as [Hr _]. }
    cbn [fst snd]. eexists. split; [reflexivity|]. split; [|split].
    + destruct (orderBy inputRecordLeb stored) as [|row rows]; [reflexivity|].
      now destruct (default true trim).
    + destruct (default true trim); rewrite <- !list_fmap_compose; now rewrite Hperm.
    + destruct (default true trim); rewrite ?Forall_fmap;
        apply Forall_forall; intros r Hr; cbn; try reflexivity.
      now rewrite (Hin r Hr).
  - intros Hmiss. rewrite (getTransactionOutputs_run _ _ _ _ _ _ _ Hmiss). cbv zeta.
    assert (Hfilter : filter (fun r => Some (or_txnHash r) = Some hash)
                             (transaction_outputs db)
                      = filter (fun r => or_txnHash r = hash) (transaction_outputs db)).
    { apply list_filter_iff. intros r. split; congruence. }
    rewrite Hfilter.
    set (stored := filter (fun r => or_txnHash r = hash) (transaction_outputs db)).
    assert (Hperm : orderAsc or_outputIndex stored ≡ₚ stored) by apply orderAsc_perm.
    assert (Hin : forall r, r ∈ orderAsc or_outputIndex stored -> or_txnHash r = hash).
    { intros r Hr. rewrite Hperm in Hr. now apply list_elem_of_filter in Hr as [Hr _]. }
    pose proof (orderAsc_sorted or_outputIndex stored) as Hsorted.
    cbn [fst snd]. eexists. split; [reflexivity|]. split; [|split; [|split]].
    + destruct (orderAsc or_outputIndex stored) as [|row rows]; [reflexivity|].
      now destruct (default true trim).
    + destruct (default true trim); rewrite <- !list_fmap_compose; now rewrite Hperm.
    + destruct (default true trim);
        repeat (apply (StronglySorted_fmap _ (fun a b => o_outputIndex a <= o_outputIndex b));
                [auto|]);
        apply (StronglySorted_fmap _ (fun a b => or_outputIndex a <= or_outputIndex b));
        auto.
    + destruct (default true trim); rewrite ?Forall_fmap;
        apply Forall_forall; intros r Hr; cbn; try reflexivity.
      now rewrite (Hin r Hr).
Qed.

Lemma transaction_rows_when_not_cached_witness :
  exists rows,
    snd (getTransactionInputs (fun s => s) 30 oneTransfer 0 "t1" (Some false) None)
    = Some (Fulfilled rows)
    /\ Forall (fun r => i_txnHash r = Some "t1") rows.
Proof.
  destruct (transaction_rows_when_not_cached (fun s => s) 30 oneTransfer 0 None "t1"
              (Some false)) as [Hinputs _].
  destruct (Hinputs eq_refl) as (rows & Hrows & _ & _ & Hhash).
  exists rows. split; [exact Hrows | exact Hhash].
Defined.

(** ** The legacy assembler and [skipCoinbaseTransactions] *)

Section LegacyOutcomes.

Variable sha256 : string -> string.
Variable defaultTTL : Z.
Variable db : Database.
Variable now : Z.

(** A hit settles the promise with the cached block, whatever the rest of
    the chain does. *)
Lemma buildLegacyWalletDataBlock_hit block skip w cached :
  checkCache sha256 (legacyBlocks <$> w) now ("legacy" +:+ s_hash block) = Some cached ->
  snd (buildLegacyWalletDataBlock sha256 defaultTTL db now block skip w)
  = Some (Fulfilled cached).
Proof.
  intros Hc. unfold buildLegacyWalletDataBlock. run_chain. rewrite Hc. cbn.
  pose proof (assembleLegacy_run sha256 defaultTTL db now block
                (mkExec (Some (Fulfilled cached)) w)) as [Hs _].
  destruct (assembleLegacy sha256 defaultTTL db now block _)
    as [x1 [[coinbaseTX transactions]| |]]; cbn in *; rewrite ?Hs; try reflexivity.
  unfold checkLegacyBlock. run_chain.
  destruct coinbaseTX as [|hash txPublicKey unlockTime [|out outs]]; cbn.
  - now rewrite Hs.
  - rewrite !Hs. cbn. destruct (world x1); cbn; rewrite ?Hs; reflexivity.
  - destruct (countDiffers _ _); cbn.
    + rewrite !Hs. cbn. destruct (world x1); cbn; rewrite ?Hs; reflexivity.
    + destruct (checkLegacyTransactions transactions) as [transactions' [|e|e]]; cbn;
        rewrite ?Hs; cbn; try reflexivity; destruct (world x1); cbn; rewrite ?Hs;
        reflexivity.
Qed.

End LegacyOutcomes.

(** X21: [buildLegacyWalletDataBlock] applies [skipCoinbaseTransactions]
    only to a block it assembles in the call: such a block is resolved
    without the field [coinbaseTX] when the flag is set and with a coinbase
    transaction that has outputs when it is not.  A block served from the
    cache is resolved as it was stored, whatever the flag says. *)
Theorem skipCoinbase_applies_to_assembled_blocks_only :
  forall (sha256 : string -> string) (defaultTTL : Z) (db : Database) (now : Z)
         (block : BlockSummary) (w : option Cache),
    (forall skip cached,
        checkCache sha256 (legacyBlocks <$> w) now ("legacy" +:+ s_hash block)
        = Some cached ->
        snd (buildLegacyWalletDataBlock sha256 defaultTTL db now block skip w)
        = Some (Fulfilled cached))
    /\ (forall skip obj,
          checkCache sha256 (legacyBlocks <$> w) now ("legacy" +:+ s_hash block) = None ->
          snd (buildLegacyWalletDataBlock sha256 defaultTTL db now block skip w)
          = Some (Fulfilled obj) ->
          if skip then lb_coinbaseTX obj = None
          else exists hash txPublicKey unlockTime out outs,
                 lb_coinbaseTX obj
                 = Some (Coinbase hash txPublicKey unlockTime (out :: outs))).
Proof.
  intros sha256 defaultTTL db now block w. split.
  - intros skip cached. apply buildLegacyWalletDataBlock_hit.
  - intros skip obj Hmiss. rewrite (buildLegacyWalletDataBlock_outcome _ _ _ _ _ _ _ Hmiss).
    destruct (snd (assembleLegacy sha256 defaultTTL db now block _))
      as [[coinbaseTX transactions]| |]; try discriminate.
    destruct coinbaseTX as [|hash txPublicKey unlockTime [|out outs]]; try discriminate.
    destruct (countDiffers _ _); [discriminate|].
    destruct (checkLegacyTransactions transactions) as [transactions' [|e|e]];
      try discriminate.
    intros [= <-]. destruct skip; cbn; [reflexivity|]. now eexists _, _, _, _, _.
Qed.

Lemma skipCoinbase_applies_to_assembled_blocks_only_witness :
  let block := {| s_hash := "b0"; s_height := 0; s_timestamp := 1000;
                  s_txnCount := Some 2 |} in
  let first := buildLegacyWalletDataBlock (fun s => s) 30 soundBlock 0 block true
                 (Some emptyCache) in
  exists computed served,
    snd first = Some (Fulfilled computed)
    /\ snd (buildLegacyWalletDataBlock (fun s => s) 30 soundBlock 1 block true (fst first))
       = Some (Fulfilled served)
    /\ lb_coinbaseTX computed = None
    /\ lb_coinbaseTX served <> None.
Proof.
  cbv zeta.
  set (block := {| s_hash := "b0"; s_height := 0; s_timestamp := 1000;
                   s_txnCount := Some 2 |}).
  destruct (skipCoinbase_applies_to_assembled_blocks_only (fun s => s) 30 soundBlock 0 block
              (Some emptyCache)) as [_ Hcomputed].
  set (first := buildLegacyWalletDataBlock (fun s => s) 30 soundBlock 0 block true
                  (Some emptyCache)).
  destruct (skipCoinbase_applies_to_assembled_blocks_only (fun s => s) 30 soundBlock 1 block
              (fst first)) as [Hserved _].
  eexists. eexists. split; [vm_compute; reflexivity|]. split.
  - apply (Hserved true). vm_compute. reflexivity.
  - split.
    + match goal with
      | |- lb_coinbaseTX ?obj = None =>
          apply (Hcomputed true obj); [reflexivity | vm_compute; reflexivity]
      end.
    + discriminate.
Defined.

(** ** The random output sampler: when it completes *)

Section SamplerCompletes.

(** The drawing loop takes the values of the random source one by one
    while they are new. *)
Lemma drawUnique_takes (max k : Z) (draws rnds rest : list Z) :
  NoDup (rnds ++ draws) ->
  (forall x, x ∈ draws -> 0 <= x <= max) ->
  Z.of_nat (length (rnds ++ draws)) = k ->
  drawUnique max (Some k) rnds (draws ++ rest) = (Some (rnds ++ draws), rest).
Proof.
  revert rnds. induction draws as [|e draws IH]; intros rnds Hnd Hin Hlen.
  - rewrite app_nil_r in *. now apply drawUnique_done.
  - cbn [app]. rewrite drawUnique_fresh.
    + replace (rnds ++ e :: draws) with ((rnds ++ [e]) ++ draws) in *
        by now rewrite <- app_assoc.
      apply IH; try assumption. intros x Hx. apply Hin. now right.
    + apply Hin. left.
    + apply NoDup_app in Hnd as (_ & Hdisjoint & _). intros He.
      apply (Hdisjoint e He). left.
    + rewrite length_app in Hlen. cbn in Hlen. lia.
Qed.

Lemma sampleRows_takes mixin mixinCounts results draws rest :
  (forall r, r ∈ results -> mixin <= m_globalIndex r) ->
  Forall2 (fun r l => NoDup l /\ (forall x, x ∈ l -> 0 <= x <= m_globalIndex r)
                      /\ mixinCounts !! m_amount r = Some (Z.of_nat (length l)))
          results draws ->
  exists randomValues,
    sampleRows mixin mixinCounts results (concat draws ++ rest) = Drawn randomValues.
Proof.
  intros Hroom Hdraws. induction Hdraws as [|r l results draws (Hnd & Hin & Hk) _ IH]; cbn.
  - eauto.
  - destruct (Z.ltb_spec (m_globalIndex r) mixin) as [Hlt|_].
    { specialize (Hroom r ltac:(left)). lia. }
    rewrite Hk, <- app_assoc.
    rewrite (drawUnique_takes (m_globalIndex r) _ l [] (concat draws ++ rest));
      [|assumption..|reflexivity].
    destruct IH as [values ->]; [intros r' Hr'; apply Hroom; now right|].
    eauto.
Qed.

(** The loop over the maxima gives a value at least when its first row
    asks for one. *)
Lemma sampleRows_some_values mixin mixinCounts result rest entropy randomValues k :
  sampleRows mixin mixinCounts (result :: rest) entropy = Drawn randomValues ->
  mixinCounts !! m_amount result = Some k -> 1 <= k ->
  randomValues <> [].
Proof.
  cbn. intros Hrows Hk Hone.
  destruct (m_globalIndex result <? mixin); [discriminate|].
  destruct (drawUnique (m_globalIndex result) (mixinCounts !! m_amount result) [] entropy)
    as [[rnds|] entropy'] eqn:Hdraw; [|discriminate].
  apply drawUnique_length in Hdraw. rewrite Hk in Hdraw. injection Hdraw as Hlen.
  destruct (sampleRows mixin mixinCounts rest entropy'); try discriminate.
  injection Hrows as <-. destruct rnds; [cbn in Hlen; lia | discriminate].
Qed.

Lemma Forall2_impl_elem {X Y} (P Q : X -> Y -> Prop) (l : list X) (k : list Y) :
  Forall2 P l k -> (forall x y, x ∈ l -> P x y -> Q x y) -> Forall2 Q l k.
Proof.
  induction 1 as [|x y l k HP _ IH]; intros Himpl; constructor.
  - apply Himpl; [left | assumption].
  - apply IH. intros x' y' Hx'. apply Himpl. now right.
Qed.

(** The grouping loop fails only on a row whose amount is -1. *)
Lemma groupRows_some mixin rows response curObject :
  (forall r, r ∈ rows -> or_amount r <> -1) ->
  g_amount curObject = -1 \/ is_Some (g_outs curObject) ->
  is_Some (groupRows mixin response curObject rows).
Proof.
  revert response curObject. induction rows as [|r rows IH]; intros response cur Hrows Hcur;
    cbn; [eauto|].
  assert (Hr : or_amount r <> -1) by (apply Hrows; left).
  assert (Hrest : forall r', r' ∈ rows -> or_amount r' <> -1)
    by (intros r' Hr'; apply Hrows; now right).
  destruct (Z.eqb_spec (or_amount r) (g_amount cur)) as [Heq|Hne]; cbn.
  - destruct Hcur as [Hcur | [outs Houts]]; [congruence|].
    rewrite Houts. cbn.
    destruct (Z.of_nat (length outs) =? mixin); apply IH; try assumption; right; cbn; eauto.
  - apply IH; [assumption|]. right. cbn. eauto.
Qed.

End SamplerCompletes.

(** X22: [getRandomOutputsForAmounts] completes when it can: for a request
    that is not empty, does not name the amount -1 and asks for a mixin
    count that is not negative, if the store knows a greatest index for
    each distinct amount, each of them at least the count plus 1, and the
    random source yields, for each amount in turn, as many different
    indices within the range as the loop has to draw ((count + 1) times
    the number of times the amount is requested), then the call resolves a
    response. *)
Theorem sampler_completes_on_distinct_draws :
  forall (db : Database) (amounts : list Z) (mixin : option Z) (draws : list (list Z))
         (rest : list Z),
    let results := filter (fun r => m_amount r ∈ amounts)
                          (transaction_outputs_index_maximums db) in
    0 <= default 0 mixin ->
    amounts <> [] ->
    -1 ∉ amounts ->
    length results = length (fst (dedupe (default 0 mixin + 1) amounts)) ->
    (forall r, r ∈ results -> default 0 mixin + 1 <= m_globalIndex r) ->
    Forall2 (fun r l =>
               NoDup l /\ (forall x, x ∈ l -> 0 <= x <= m_globalIndex r)
               /\ Z.of_nat (length l)
                  = (default 0 mixin + 1)
                    * Z.of_nat (length (filter (fun a => a = m_amount r) amounts)))
            results draws ->
    exists response,
      getRandomOutputsForAmounts db amounts mixin (concat draws ++ rest) = Drawn response.
Proof.
  intros db amounts mixin draws rest results Hmixin Hne Hminus Hlen Hroom Hdraws.
  unfold getRandomOutputsForAmounts.
  destruct (dedupe_counts (default 0 mixin + 1) amounts) as [Hfst Hsnd].
  destruct (dedupe (default 0 mixin + 1) amounts) as [dedupedAmounts mixinCounts].
  cbn [fst snd] in Hfst, Hsnd, Hlen.
  assert (Hsame : filter (fun r => m_amount r ∈ dedupedAmounts)
                         (transaction_outputs_index_maximums db) = results).
  { apply list_filter_iff. intros r. apply Hfst. }
  destruct dedupedAmounts as [|a0 deduped].
  { destruct amounts as [|a rest']; [congruence|].
    assert (Ha : a ∈ []) by (apply Hfst; left). inversion Ha. }
  rewrite Hsame, Hlen, Nat.eqb_refl. cbn [negb].
  destruct (sampleRows_takes (default 0 mixin + 1) mixinCounts results draws rest Hroom)
    as [randomValues Hrows].
  { apply (Forall2_impl_elem _ _ _ _ Hdraws).
    intros r l Hr (Hnd & Hin & Hk). split; [assumption|]. split; [assumption|].
    apply list_elem_of_filter in Hr as [Hr _]. now rewrite (Hsnd _ Hr), Hk. }
  rewrite Hrows.
  assert (Hsome : randomValues <> []).
  { assert (Hex : exists r rest', results = r :: rest')
      by (destruct results; [discriminate Hlen | eauto]).
    destruct Hex as (r & rest' & Hres).
    assert (Ha : m_amount r ∈ amounts).
    { assert (Hr : r ∈ results) by (rewrite Hres; left).
      now apply list_elem_of_filter in Hr as [Hr _]. }
    rewrite Hres in Hrows.
    apply (sampleRows_some_values _ _ _ _ _ _ _ Hrows (Hsnd _ Ha)).
    assert (Hocc : (1 <= length (filter (fun a => a = m_amount r) amounts))%nat).
    { destruct (filter (fun a => a = m_amount r) amounts) eqn:Hnone; [|cbn; lia].
      assert (Hin : m_amount r ∈ filter (fun a => a = m_amount r) amounts)
        by (apply list_elem_of_filter; now split).
      rewrite Hnone in Hin. inversion Hin. }
    nia. }
  destruct randomValues as [|v vs] eqn:Hvs; [congruence|].
  cbv iota. rewrite <- Hvs in *. clear Hvs.
  apply sampleRows_drawn in Hrows as [_ Hvalues]; [|lia].
  destruct (groupRows_some (default 0 mixin + 1)
              (orderAsc or_amount
                 (filter (fun r => (or_amount r, or_globalIndex r) ∈ randomValues)
                         (transaction_outputs db)))
              [] {| g_amount := -1; g_outs := None |}) as [response Hresponse].
  - intros r Hr. rewrite (orderAsc_perm or_amount) in Hr.
    apply list_elem_of_filter in Hr as [Hpair _]. intros Hamount.
    destruct (Hvalues _ _ Hpair) as (m & Hm & Hma & _).
    apply list_elem_of_filter in Hm as [Hm _]. apply Hminus. congruence.
  - now left.
  - rewrite Hresponse. eauto.
Qed.

Lemma sampler_completes_on_distinct_draws_witness :
  exists response,
    getRandomOutputsForAmounts (outputsOfSeven 7) [7; 7] (Some 2) [5; 0; 3; 6; 1; 2; 4]
    = Drawn response.
Proof.
  apply (sampler_completes_on_distinct_draws (outputsOfSeven 7) [7; 7] (Some 2)
           [[5; 0; 3; 6; 1; 2]] [4]).
  - cbn. lia.
  - discriminate.
  - intros Hin. repeat (apply elem_of_cons in Hin as [Hin|Hin]; [discriminate Hin|]).
    inversion Hin.
  - vm_compute. reflexivity.
  - intros r Hr. vm_compute in Hr.
    apply list_elem_of_singleton in Hr. subst r. cbn. lia.
  - vm_compute filter. constructor; [|constructor]. split; [|split].
    + refine (bool_decide_unpack _ _). vm_compute. exact I.
    + intros x Hx. cbn.
      repeat (apply elem_of_cons in Hx as [-> | Hx]; [lia|]). inversion Hx.
    + reflexivity.
Defined.

(** ** Wallet sync: all the blocks of the window, or none *)

Section SyncOutcomes.

Variable sha256 : string -> string.
Variable defaultTTL : Z.
Variable db : Database.
Variable now : Z.

Lemma gather_fulfilled {A} (os : list (option (Settled A))) (l : list A) :
  gather os = Some (Fulfilled l) <-> Forall2 (fun o a => o = Some (Fulfilled a)) os l.
Proof.
  revert l. induction os as [|o os IH]; intros l; cbn.
  - split; [intros [= <-]; constructor | intros Hl; now inversion Hl].
  - split.
    + destruct o as [[a|e]|]; destruct (gather os) as [[l'|e']|]; try discriminate.
      intros [= <-]. constructor; [reflexivity | now apply IH].
    + intros Hl. inversion Hl as [|? a ? l' -> Hrest]; subst.
      apply IH in Hrest. now rewrite Hrest.
Qed.

Lemma gather_rejected {A} (os : list (option (Settled A))) e :
  Some (Rejected e) ∈ os -> exists e', gather os = Some (Rejected e').
Proof.
  induction os as [|o os IH]; intros Hin; [inversion Hin|].
  apply elem_of_cons in Hin as [<- | Hin]; cbn; [eauto|].
  destruct (IH Hin) as [e' ->]. destruct o as [[a|e0]|]; eauto.
Qed.

(** Without a backend the promises of [Promise.all] do not see each
    other. *)
Lemma runAll_none {A} (ps : list (Promise (option Cache) A)) :
  Forall (fun p => fst (p None) = None) ps ->
  runAll ps None = (None, (fun p => snd (p None)) <$> ps).
Proof.
  induction 1 as [|p ps Hp _ IH]; cbn; [reflexivity|].
  destruct (p None) as [w1 o]. cbn in Hp. subst w1. now rewrite IH.
Qed.

Lemma buildWalletDataBlock_none block :
  fst (buildWalletDataBlock sha256 defaultTTL db now block None) = None.
Proof.
  unfold buildWalletDataBlock. run_chain.
  destruct (assembleTransactions_keeps sha256 defaultTTL db now block
              (mkExec (R:=WalletBlock) None None)) as (Hkeeps & _ & _).
  destruct (assembleTransactions sha256 defaultTTL db now block _) as [[s1 w1] l1].
  cbn in Hkeeps.
  assert (Hw1 : w1 = None).
  { destruct w1 as [c|]; [|reflexivity]. destruct (proj2 Hkeeps) as [? [=]]. eauto. }
  subst w1. destruct l1 as [transactions|e|]; cbn; try (now destruct s1).
  unfold checkWalletBlock. run_chain.
  destruct (countDiffers _ _); cbn; [now destruct s1|].
  destruct (checkTransactions transactions) as [transactions' [|e|e]]; cbn;
    now destruct s1.
Qed.

End SyncOutcomes.

(** X23: without a cache backend, [getWalletSyncDataByHeight] resolves
    exactly when [buildWalletDataBlock] resolves for every block of the
    window (the heights from [scanHeight] up to, but not including,
    [scanHeight] plus the normalised block count), and it then returns
    those blocks, one for each block of the window; if the assembly of a
    single block of the window rejects, the whole call rejects and no block
    is returned. *)
Theorem wallet_sync_is_all_or_nothing :
  forall (sha256 : string -> string) (defaultTTL : Z) (db : Database) (now : Z)
         (scanHeight blockCount : option Z),
    let from := default 0 scanHeight in
    let window :=
      orderAsc b_height
        (filter (fun b => from <= b_height b
                          /\ b_height b < from + checkBlockCount blockCount)
                (blocks db)) in
    let build b :=
      snd (buildWalletDataBlock sha256 defaultTTL db now (blockSummary db b) None) in
    let sync :=
      snd (getWalletSyncDataByHeight sha256 defaultTTL db now scanHeight blockCount None) in
    (forall resolved,
        sync = Some (Fulfilled resolved) ->
        exists objs,
          Forall2 (fun b obj => build b = Some (Fulfilled obj)) window objs
          /\ resolved ≡ₚ objs)
    /\ ((forall b, b ∈ window -> exists obj, build b = Some (Fulfilled obj)) ->
        exists resolved, sync = Some (Fulfilled resolved))
    /\ (forall b e, b ∈ window -> build b = Some (Rejected e) ->
                    exists e', sync = Some (Rejected e')).
Proof.
  intros sha256 defaultTTL db now scanHeight blockCount from window build sync.
  assert (Hsync : sync =
            match gather (build <$> window) with
            | Some (Fulfilled objs) =>
                Some (Fulfilled (jsSort (fun _ _ => compareBlockHeight None None) objs))
            | Some (Rejected e) => Some (Rejected e)
            | None => None
            end).
  { unfold sync, getWalletSyncDataByHeight, thenable, bind, await, ret, all. cbn.
    fold from. fold window. rewrite runAll_none.
    - rewrite <- !list_fmap_compose.
      match goal with
      | |- context [gather (?f <$> window)] => change f with build
      end.
      now destruct (gather (build <$> window)) as [[objs|e]|].
    - apply Forall_fmap, Forall_fmap, Forall_forall. intros b _.
      apply buildWalletDataBlock_none. }
  rewrite Hsync. split; [|split].
  - intros resolved. destruct (gather (build <$> window)) as [[objs|e]|] eqn:Hg;
      try discriminate.
    intros [= <-]. exists objs. split; [|apply jsSort_Permutation].
    apply gather_fulfilled in Hg. now apply Forall2_fmap_l in Hg.
  - intros Hall.
    assert (Hobjs : exists objs,
               Forall2 (fun b obj => build b = Some (Fulfilled obj)) window objs).
    { clear Hsync. induction window as [|b rest IH]; [eexists; constructor|].
      destruct (Hall b) as [obj Hobj]; [left|].
      destruct IH as [objs Hobjs]; [intros b' Hb'; apply Hall; now right|].
      exists (obj :: objs). now constructor. }
    destruct Hobjs as [objs Hobjs].
    assert (Hg : gather (build <$> window) = Some (Fulfilled objs))
      by (apply gather_fulfilled, Forall2_fmap_l; exact Hobjs).
    rewrite Hg. eauto.
  - intros b e Hb Hrejected.
    destruct (gather_rejected (build <$> window) e) as [e' ->]; [|eauto].
    rewrite <- Hrejected. now apply list_elem_of_fmap_2.
Qed.

Lemma wallet_sync_is_all_or_nothing_witness :
  (exists resolved,
      snd (getWalletSyncDataByHeight (fun s => s) 30 soundBlock 0 (Some 0) (Some 1) None)
      = Some (Fulfilled resolved))
  /\ exists e,
       snd (getWalletSyncDataByHeight (fun s => s) 30 feeMismatch 0 (Some 0) (Some 1) None)
       = Some (Rejected e).
Proof.
  split.
  - apply (wallet_sync_is_all_or_nothing (fun s => s) 30 soundBlock 0 (Some 0) (Some 1)).
    intros b Hb. vm_compute in Hb. apply list_elem_of_singleton in Hb. subst b.
    eexists. vm_compute. reflexivity.
  - apply (wallet_sync_is_all_or_nothing (fun s => s) 30 feeMismatch 0 (Some 0) (Some 1))
      with (b := sampleBlock "b0" 0 1000)
           (e := Err (getError "t1" "Transaction fee does not match")).
    + vm_compute. left.
    + vm_compute. reflexivity.
Defined.

(** ** Recent chain statistics *)

(** X24: when [getRecentChainStats] is not served from the cache, it
    rejects with 'No blocks found' if the store has no block; otherwise it
    resolves one row for each of the 2880 highest blocks (for every block
    when there are fewer), highest first: a block that is left out is not
    higher than any block that is listed. *)
Theorem getRecentChainStats_newest_blocks :
  forall (sha256 : string -> string) (defaultTTL : Z) (db : Database) (now : Z)
         (w : option (gmap string (list ChainStat * Z))),
    checkCache sha256 w now "getRecentChainStats" = None ->
    (blocks db = [] ->
     snd (getRecentChainStats sha256 defaultTTL db now w)
     = Some (Rejected (Err "No blocks found")))
    /\ (blocks db <> [] ->
        exists listed,
          snd (getRecentChainStats sha256 defaultTTL db now w)
          = Some (Fulfilled (chainStat db <$> listed))
          /\ length listed = Nat.min 2880 (length (blocks db))
          /\ (forall b, b ∈ listed -> b ∈ blocks db)
          /\ StronglySorted (fun a b => b_height b <= b_height a) listed
          /\ forall b, b ∈ blocks db ->
               b ∈ listed \/ forall c, c ∈ listed -> b_height b <= b_height c).
Proof.
  intros sha256 defaultTTL db now w Hmiss.
  assert (Hw : (fun m : gmap string (list ChainStat * Z) => m) <$> w = w) by now destruct w.
  pose proof (orderDesc_perm b_height (blocks db)) as Hperm.
  pose proof (orderDesc_sorted b_height (blocks db)) as Hsorted.
  split.
  - intros Hnil. unfold getRecentChainStats. run_store. rewrite Hw, Hmiss.
    rewrite Hnil in *. apply Permutation_nil_r in Hperm. rewrite Hperm. reflexivity.
  - intros Hne. exists (firstn 2880 (orderDesc b_height (blocks db))). split; [|split; [|split; [|split]]].
    + unfold getRecentChainStats. run_store. rewrite Hw, Hmiss. cbn -[checkCache firstn].
      destruct (orderDesc b_height (blocks db)) as [|b rest] eqn:Hs.
      { apply orderDesc_nil in Hs. contradiction. }
      cbn -[checkCache]. now destruct w.
    + rewrite length_take, (Permutation_length Hperm). lia.
    + intros b Hb. rewrite <- Hperm. apply elem_of_take in Hb as (i & Hb & _).
      now apply list_elem_of_lookup_2 in Hb.
    + rewrite <- (take_drop 2880 (orderDesc b_height (blocks db))) in Hsorted.
      now apply StronglySorted_app_1_l in Hsorted.
    + intros b Hb. rewrite <- Hperm in Hb.
      rewrite <- (take_drop 2880 (orderDesc b_height (blocks db))) in Hb, Hsorted.
      apply elem_of_app in Hb as [Hb|Hb]; [now left | right].
      intros c Hc. exact (StronglySorted_app_1_elem_of _ _ _ _ _ Hsorted Hc Hb).
Qed.

Lemma getRecentChainStats_newest_blocks_witness :
  snd (getRecentChainStats (fun s => s) 30 (blocksOnly []) 0 None)
  = Some (Rejected (Err "No blocks found"))
  /\ exists listed,
       snd (getRecentChainStats (fun s => s) 30 chain3 0 None)
       = Some (Fulfilled (chainStat chain3 <$> listed))
       /\ length listed = 3%nat.
Proof.
  split.
  - apply (getRecentChainStats_newest_blocks (fun s => s) 30 (blocksOnly []) 0 None);
      reflexivity.
  - destruct (getRecentChainStats_newest_blocks (fun s => s) 30 chain3 0 None eq_refl)
      as [_ Hsome].
    destruct Hsome as (listed & Hrows & Hlen & _); [discriminate|].
    exists listed. split; [exact Hrows | exact Hlen].
Defined.

(** ** Wallet sync by known hashes *)



(** ** A transaction with its block *)

Section TransactionFacts.

Variable sha256 : string -> string.
Variable defaultTTL : Z.
Variable db : Database.
Variable now : Z.

(** Without a backend the promise of [getTransaction] is a function of the
    store. *)
Lemma getTransaction_run hash :
  snd (getTransaction sha256 defaultTTL db now hash None) =
  match filter (fun t => t_txnHash t = hash) (transactions db) with
  | [tx] =>
      match snd (getBlockHeaderByHash sha256 defaultTTL db now (t_blockHash tx) None),
            snd (getTransactionInputs sha256 defaultTTL db now (t_txnHash tx) None None),
            snd (getTransactionOutputs sha256 defaultTTL db now (Some (t_txnHash tx)) None
                   None),
            snd (getLastBlockHeader sha256 defaultTTL db now None) with
      | Some (Fulfilled block), Some (Fulfilled inputs), Some (Fulfilled outputs),
        Some (Fulfilled header) =>
          Some (Fulfilled
            {| td_tx := {| ti_amount_out := t_totalOutputsAmount tx; ti_fee := t_fee tx;
                           ti_hash := t_txnHash tx; ti_mixin := t_mixin tx;
                           ti_paymentId := t_paymentId tx; ti_size := t_size tx;
                           ti_extra := toStringHex (t_extra tx);
                           ti_unlock_time := toString10 (t_unlockTime tx);
                           ti_publicKey := t_publicKey tx;
                           ti_inputs := inputs; ti_outputs := outputs |};
               td_block := {| bi_cumul_size := b_size (h_block block);
                              bi_difficulty := b_difficulty (h_block block);
                              bi_hash := b_hash (h_block block);
                              bi_height := b_height (h_block block);
                              bi_timestamp := b_timestamp (h_block block);
                              bi_tx_count := h_transactionCount block;
                              bi_depth := b_height (h_block header)
                                          - b_height (h_block block) |} |})
      | Some (Rejected e), _, _, _ => Some (Rejected e)
      | Some (Fulfilled _), Some (Rejected e), _, _ => Some (Rejected e)
      | Some (Fulfilled _), Some (Fulfilled _), Some (Rejected e), _ => Some (Rejected e)
      | Some (Fulfilled _), Some (Fulfilled _), Some (Fulfilled _), Some (Rejected e) =>
          Some (Rejected e)
      | _, _, _, _ => None
      end
  | _ => Some (Rejected (Err "Transaction not found"))
  end.
Proof.
  unfold getTransaction.
  remember ("getTransaction" +:+ hash) as cacheName eqn:Hname.
  run_store. unfold onCache. cbn.
  destruct (filter (fun t => t_txnHash t = hash) (transactions db)) as [|tx [|tx' rest]];
    cbn; try reflexivity.
  destruct (getBlockHeaderByHash sha256 defaultTTL db now (t_blockHash tx) None)
    as [w1 [[block|e]|]]; cbn; try reflexivity.
  destruct (getTransactionInputs sha256 defaultTTL db now (t_txnHash tx) None None)
    as [w2 [[inputs|e]|]]; cbn; try reflexivity.
  destruct (getTransactionOutputs sha256 defaultTTL db now (Some (t_txnHash tx)) None None)
    as [w3 [[outputs|e]|]]; cbn; try reflexivity.
  destruct (getLastBlockHeader sha256 defaultTTL db now None)
    as [w4 [[header|e]|]]; cbn; reflexivity.
Qed.

End TransactionFacts.

(** X26: without a cache backend, [getTransaction(hash)] rejects with
    'Transaction not found' unless exactly one row of [transactions] has
    the hash.  For such a row it rejects with 'No blocks found in backend
    storage' when the store has no block and with 'Requested block not
    found' when no stored block has the block hash of the row.  Otherwise
    it resolves the fields of the row ([extra] in hexadecimal, the unlock
    time as text), the fields of a stored block with that hash, a depth
    that is the greatest stored height minus the height of the block, and
    one input (output) for each stored input (output) of the transaction,
    all without [txnHash]. *)
Theorem getTransaction_without_backend :
  forall (sha256 : string -> string) (defaultTTL : Z) (db : Database) (now : Z)
         (hash : string),
    let found := filter (fun t => t_txnHash t = hash) (transactions db) in
    let result := snd (getTransaction sha256 defaultTTL db now hash None) in
    ((forall tx, found <> [tx]) ->
     result = Some (Rejected (Err "Transaction not found")))
    /\ (forall tx, found = [tx] ->
        (blocks db = [] ->
         result = Some (Rejected (Err "No blocks found in backend storage")))
        /\ (blocks db <> [] ->
            (forall b, b ∈ blocks db -> b_hash b <> t_blockHash tx) ->
            result = Some (Rejected (Err "Requested block not found")))
        /\ ((exists b, b ∈ blocks db /\ b_hash b = t_blockHash tx) ->
            exists r block top,
              result = Some (Fulfilled r)
              /\ ti_hash (td_tx r) = hash
              /\ ti_amount_out (td_tx r) = t_totalOutputsAmount tx
              /\ ti_fee (td_tx r) = t_fee tx
              /\ ti_extra (td_tx r) = toStringHex (t_extra tx)
              /\ ti_unlock_time (td_tx r) = toString10 (t_unlockTime tx)
              /\ block ∈ blocks db /\ b_hash block = t_blockHash tx
              /\ bi_hash (td_block r) = b_hash block
              /\ bi_height (td_block r) = b_height block
              /\ bi_tx_count (td_block r)
                 = Z.of_nat (length (filter (fun t => t_blockHash t = b_hash block)
                                            (transactions db)))
              /\ top ∈ blocks db
              /\ (forall b, b ∈ blocks db -> b_height b <= b_height top)
              /\ bi_depth (td_block r) = b_height top - b_height block
              /\ Forall (fun i => i_txnHash i = None) (ti_inputs (td_tx r))
              /\ Forall (fun o => o_txnHash o = None) (ti_outputs (td_tx r))
              /\ length (ti_inputs (td_tx r))
                 = length (filter (fun i => ir_txnHash i = hash) (transaction_inputs db))
              /\ length (ti_outputs (td_tx r))
                 = length (filter (fun o => or_txnHash o = hash)
                                  (transaction_outputs db)))).
Proof.
  intros sha256 defaultTTL db now hash. cbv zeta. rewrite getTransaction_run.
  remember (filter (fun t => t_txnHash t = hash) (transactions db)) as found eqn:Hfound.
  split.
  - intros Hnot. destruct found as [|tx [|tx' rest]]; try reflexivity.
    now destruct (Hnot tx).
  - intros tx ->.
    assert (Hhash : t_txnHash tx = hash).
    { assert (Hin : tx ∈ filter (fun t => t_txnHash t = hash) (transactions db))
        by (rewrite <- Hfound; left).
      now apply list_elem_of_filter in Hin as [Hin _]. }
    rewrite (getBlockHeaderByHash_run sha256 defaultTTL db now None (t_blockHash tx) eq_refl).
    rewrite getLastBlockHeader_run. cbv zeta.
    destruct (orderDesc b_height (blocks db)) as [|top rest] eqn:Hs; cbn [firstn snd].
    { apply orderDesc_nil in Hs. split; [reflexivity|]. split; [congruence|].
      intros (b & Hb & _). rewrite Hs in Hb. inversion Hb. }
    assert (Hne : blocks db <> []).
    { intros Hnil. rewrite Hnil in Hs. discriminate. }
    apply orderDesc_head in Hs as [Htop Hmax].
    cbn [default checkCache fmap option_fmap option_map].
    destruct (filter (fun b => b_hash b = t_blockHash tx) (blocks db))
      as [|block others] eqn:Hf; cbn [firstn].
    { split; [congruence|]. split; [reflexivity|].
      intros (b & Hb & Hbh).
      assert (Hin : b ∈ filter (fun b => b_hash b = t_blockHash tx) (blocks db))
        by (apply list_elem_of_filter; now split).
      rewrite Hf in Hin. inversion Hin. }
    assert (Hblock : block ∈ filter (fun b => b_hash b = t_blockHash tx) (blocks db))
      by (rewrite Hf; left).
    apply list_elem_of_filter in Hblock as [Hbh Hblock].
    split; [congruence|]. split; [intros _ Hnone; now destruct (Hnone block Hblock)|].
    intros _.
    rewrite (getTransactionInputs_run sha256 defaultTTL db now (t_txnHash tx) None None
               eq_refl).
    rewrite (getTransactionOutputs_run sha256 defaultTTL db now (t_txnHash tx) None None
               eq_refl).
    cbv zeta. cbn [snd default]. rewrite Hhash.
    eexists _, block, top. split; [reflexivity|]. cbn.
    assert (Hfilter : filter (fun r => Some (or_txnHash r) = Some hash)
                             (transaction_outputs db)
                      = filter (fun r => or_txnHash r = hash) (transaction_outputs db)).
    { apply list_filter_iff. intros r. split; congruence. }
    repeat split; try assumption; try reflexivity.
    + apply Forall_fmap, Forall_forall. intros i _. reflexivity.
    + apply Forall_fmap, Forall_forall. intros o _. reflexivity.
    + rewrite !length_fmap. apply Permutation_length, sortRows_Permutation.
    + rewrite !length_fmap, Hfilter. apply Permutation_length, sortRows_Permutation.
Qed.

Lemma getTransaction_without_backend_witness :
  snd (getTransaction (fun s => s) 30 oneTransfer 0 "zz" None)
  = Some (Rejected (Err "Transaction not found"))
  /\ exists r,
       snd (getTransaction (fun s => s) 30 oneTransfer 0 "t1" None) = Some (Fulfilled r)
       /\ ti_hash (td_tx r) = "t1" /\ bi_depth (td_block r) = 0.
Proof.
  split.
  - apply (getTransaction_without_backend (fun s => s) 30 oneTransfer 0 "zz").
    intros tx. vm_compute. discriminate.
  - destruct (getTransaction_without_backend (fun s => s) 30 oneTransfer 0 "t1")
      as [_ Hfound].
    destruct (Hfound (sampleTransaction "t1" "b0" 1 10 9) eq_refl) as (_ & _ & Hok).
    destruct Hok as (r & block & top & Hr & Hhash & _ & _ & _ & _ & Hblock & _ & _ & _ & _
                     & Htop & _ & Hdepth & _).
    { exists (sampleBlock "b0" 0 1000). split; [left | reflexivity]. }
    exists r. split; [exact Hr|]. split; [exact Hhash|].
    apply list_elem_of_singleton in Hblock, Htop. subst block top.
    rewrite Hdepth. reflexivity.
Defined.
